(** * Global Weather API Python client: a shallow embedding

    Model of [examples/python/weather_client.py]: the request cache, the
    transport wrapper [_make_request], the [WeatherClient] operations and the
    [WeatherMonitor] threshold evaluation, together with the Python library
    functions they rely on ([json.dumps], [hashlib.md5], [hmac.new] with
    SHA-256, [hmac.compare_digest]).

    Conventions.
    - A Python [str] is a Rocq [string]; the character with code [n] stands
      for the code point U+00[n], so the model covers the strings whose code
      points are below 256 (ASCII is the range below 128).
    - [bytes] is [list byte].
    - [time.time()] is a rational number of seconds ([Q]).
    - Exceptions are values of [exn]; a computation that can raise returns
      [result].  Effects on the client (cache, clock, network) are threaded
      explicitly through a state-and-error monad.
    - What the program reads from outside (the clock, the answers of the
      server, the order in which a set is iterated, what a callback does)
      is given by an environment [env]; the properties hold for every
      environment unless they say otherwise.
    - Logging is left out, and so are the construction of the client, the
      building of the URL and the operations no property is about
      ([search_locations] and the webhook calls). *)

From Stdlib Require Import ZArith QArith Lqa String Ascii List Permutation Lia.
From Stdlib.Strings Require Import Byte.
From stdpp Require Import base option list sorting gmap strings pretty.

Local Open Scope string_scope.
Local Open Scope Z_scope.
Local Open Scope list_scope.

(** ** Bytes and hexadecimal text *)

Module Bytes.

Definition to_Z (b : byte) : Z := Z.of_N (Byte.to_N b).

Definition of_Z (z : Z) : byte :=
  default Byte.x00 (Byte.of_N (Z.to_N (z mod 256))).

Definition of_string (s : string) : list byte :=
  List.map byte_of_ascii (list_ascii_of_string s).

Definition hex_digit (n : Z) : ascii :=
  if n <? 10 then ascii_of_N (Z.to_N (48 + n))
  else ascii_of_N (Z.to_N (87 + n)).

(** Two lowercase hexadecimal digits per byte, as [hexdigest()] prints. *)
Fixpoint hex (l : list Z) : string :=
  match l with
  | [] => EmptyString
  | b :: l' =>
      String (hex_digit (Z.shiftr (b mod 256) 4))
        (String (hex_digit (Z.land b 15)) (hex l'))
  end.

(** [n]-byte little-endian and big-endian encodings of a number. *)
Fixpoint le (n : nat) (x : Z) : list Z :=
  match n with
  | O => []
  | S n' => (x mod 256) :: le n' (x / 256)
  end.

Definition be (n : nat) (x : Z) : list Z := rev (le n x).

Fixpoint of_le (l : list Z) : Z :=
  match l with
  | [] => 0
  | b :: l' => b + 256 * of_le l'
  end.

Definition of_be (l : list Z) : Z := of_le (rev l).

(** Cut a list into blocks of [n] elements. *)
Fixpoint blocks {A} (fuel n : nat) (l : list A) : list (list A) :=
  match fuel, l with
  | O, _ | _, [] => []
  | S fuel', _ => firstn n l :: blocks fuel' n (skipn n l)
  end.

End Bytes.

(** ** 32-bit words *)

Module Word32.

Definition wrap (x : Z) : Z := x mod 2 ^ 32.
Definition add (x y : Z) : Z := wrap (x + y).
Definition not (x : Z) : Z := Z.lxor (wrap x) 4294967295.
Definition rotl (x n : Z) : Z :=
  wrap (Z.lor (Z.shiftl x n) (Z.shiftr (wrap x) (32 - n))).
Definition rotr (x n : Z) : Z := rotl x (32 - n).
Definition shr (x n : Z) : Z := Z.shiftr (wrap x) n.

End Word32.

(** ** [hashlib.md5] (RFC 1321) *)

Module MD5.
Import Word32.

Definition K : list Z :=
  [ 3614090360; 3905402710; 606105819; 3250441966; 4118548399; 1200080426;
    2821735955; 4249261313; 1770035416; 2336552879; 4294925233; 2304563134;
    1804603682; 4254626195; 2792965006; 1236535329; 4129170786; 3225465664;
    643717713; 3921069994; 3593408605; 38016083; 3634488961; 3889429448;
    568446438; 3275163606; 4107603335; 1163531501; 2850285829; 4243563512;
    1735328473; 2368359562; 4294588738; 2272392833; 1839030562; 4259657740;
    2763975236; 1272893353; 4139469664; 3200236656; 681279174; 3936430074;
    3572445317; 76029189; 3654602809; 3873151461; 530742520; 3299628645;
    4096336452; 1126891415; 2878612391; 4237533241; 1700485571; 2399980690;
    4293915773; 2240044497; 1873313359; 4264355552; 2734768916; 1309151649;
    4149444226; 3174756917; 718787259; 3951481745 ].

Definition S : list Z :=
  [ 7; 12; 17; 22; 7; 12; 17; 22; 7; 12; 17; 22; 7; 12; 17; 22;
    5; 9; 14; 20; 5; 9; 14; 20; 5; 9; 14; 20; 5; 9; 14; 20;
    4; 11; 16; 23; 4; 11; 16; 23; 4; 11; 16; 23; 4; 11; 16; 23;
    6; 10; 15; 21; 6; 10; 15; 21; 6; 10; 15; 21; 6; 10; 15; 21 ].

Definition pad (msg : list Z) : list Z :=
  let n := Z.of_nat (length msg) in
  msg ++ [128] ++ repeat 0 (Z.to_nat ((55 - n) mod 64))
      ++ Bytes.le 8 (8 * n).

Definition state : Type := Z * Z * Z * Z.

Definition init : state := (1732584193, 4023233417, 2562383102, 271733878).

Definition step (M : list Z) (st : state) (i : nat) : state :=
  let '(A, B, C, D) := st in
  let iz := Z.of_nat i in
  let '(F, g) :=
    if iz <? 16 then (Z.lor (Z.land B C) (Z.land (not B) D), iz)
    else if iz <? 32 then
      (Z.lor (Z.land D B) (Z.land (not D) C), (5 * iz + 1) mod 16)
    else if iz <? 48 then (Z.lxor (Z.lxor B C) D, (3 * iz + 5) mod 16)
    else (Z.lxor C (Z.lor B (not D)), (7 * iz) mod 16) in
  let F' := add (add (add F A) (nth i K 0)) (nth (Z.to_nat g) M 0) in
  (D, add B (rotl F' (nth i S 0)), B, C).

Definition compress (st : state) (block : list Z) : state :=
  let M := List.map Bytes.of_le (Bytes.blocks 16 4 block) in
  let '(a, b, c, d) := st in
  let '(a', b', c', d') := fold_left (step M) (seq 0 64) st in
  (add a a', add b b', add c c', add d d').

Definition digest (msg : list byte) : list Z :=
  let padded := pad (List.map Bytes.to_Z msg) in
  let '(a, b, c, d) :=
    fold_left compress (Bytes.blocks (length padded) 64 padded) init in
  Bytes.le 4 a ++ Bytes.le 4 b ++ Bytes.le 4 c ++ Bytes.le 4 d.

Definition hexdigest (msg : list byte) : string := Bytes.hex (digest msg).

End MD5.

(** ** [hashlib.sha256] (FIPS 180-4) and [hmac.new] (RFC 2104) *)

Module SHA256.
Import Word32.

Definition K : list Z :=
  [ 1116352408; 1899447441; 3049323471; 3921009573; 961987163; 1508970993;
    2453635748; 2870763221; 3624381080; 310598401; 607225278; 1426881987;
    1925078388; 2162078206; 2614888103; 3248222580; 3835390401; 4022224774;
    264347078; 604807628; 770255983; 1249150122; 1555081692; 1996064986;
    2554220882; 2821834349; 2952996808; 3210313671; 3336571891; 3584528711;
    113926993; 338241895; 666307205; 773529912; 1294757372; 1396182291;
    1695183700; 1986661051; 2177026350; 2456956037; 2730485921; 2820302411;
    3259730800; 3345764771; 3516065817; 3600352804; 4094571909; 275423344;
    430227734; 506948616; 659060556; 883997877; 958139571; 1322822218;
    1537002063; 1747873779; 1955562222; 2024104815; 2227730452; 2361852424;
    2428436474; 2756734187; 3204031479; 3329325298 ].

Definition init : list Z :=
  [ 1779033703; 3144134277; 1013904242; 2773480762;
    1359893119; 2600822924; 528734635; 1541459225 ].

Definition block_size : nat := 64.

Definition pad (msg : list Z) : list Z :=
  let n := Z.of_nat (length msg) in
  msg ++ [128] ++ repeat 0 (Z.to_nat ((55 - n) mod 64))
      ++ Bytes.be 8 (8 * n).

Definition xor3 (a b c : Z) : Z := Z.lxor (Z.lxor a b) c.
Definition bsig0 (x : Z) : Z := xor3 (rotr x 2) (rotr x 13) (rotr x 22).
Definition bsig1 (x : Z) : Z := xor3 (rotr x 6) (rotr x 11) (rotr x 25).
Definition ssig0 (x : Z) : Z := xor3 (rotr x 7) (rotr x 18) (shr x 3).
Definition ssig1 (x : Z) : Z := xor3 (rotr x 17) (rotr x 19) (shr x 10).
Definition ch (e f g : Z) : Z := Z.lxor (Z.land e f) (Z.land (not e) g).
Definition maj (a b c : Z) : Z :=
  xor3 (Z.land a b) (Z.land a c) (Z.land b c).

(** The message schedule: sixteen words of the block, then forty-eight
    derived words. *)
Definition extend (W : list Z) (i : nat) : list Z :=
  W ++ [ add (add (add (ssig1 (nth (i - 2) W 0)) (nth (i - 7) W 0))
                  (ssig0 (nth (i - 15) W 0)))
             (nth (i - 16) W 0) ].

Definition schedule (block : list Z) : list Z :=
  fold_left extend (seq 16 48)
    (List.map Bytes.of_be (Bytes.blocks 16 4 block)).

Definition round (W : list Z) (st : list Z) (i : nat) : list Z :=
  match st with
  | [a; b; c; d; e; f; g; h] =>
      let t1 :=
        add (add (add (add h (bsig1 e)) (ch e f g)) (nth i K 0))
            (nth i W 0) in
      let t2 := add (bsig0 a) (maj a b c) in
      [add t1 t2; a; b; c; add d t1; e; f; g]
  | _ => st
  end.

Fixpoint add_all (x y : list Z) : list Z :=
  match x, y with
  | a :: x', b :: y' => add a b :: add_all x' y'
  | _, _ => []
  end.

Definition compress (st : list Z) (block : list Z) : list Z :=
  add_all st (fold_left (round (schedule block)) (seq 0 64) st).

Definition digest_Z (msg : list Z) : list Z :=
  let padded := pad msg in
  flat_map (Bytes.be 4)
    (fold_left compress (Bytes.blocks (length padded) 64 padded) init).

Definition digest (msg : list byte) : list Z :=
  digest_Z (List.map Bytes.to_Z msg).

Definition hexdigest (msg : list byte) : string := Bytes.hex (digest msg).

End SHA256.

Module HMAC.

(** [hmac.new(key, msg, hashlib.sha256)]: a key longer than the block is
    hashed first, then padded with zero bytes to the block size. *)
Definition block_key (key : list Z) : list Z :=
  let k := if (SHA256.block_size <? length key)%nat
           then SHA256.digest_Z key else key in
  k ++ repeat 0 (SHA256.block_size - length k).

Definition digest (key msg : list byte) : list Z :=
  let k := block_key (List.map Bytes.to_Z key) in
  let inner :=
    SHA256.digest_Z (List.map (Z.lxor 54) k ++ List.map Bytes.to_Z msg) in
  SHA256.digest_Z (List.map (Z.lxor 92) k ++ inner).

Definition hexdigest (key msg : list byte) : string :=
  Bytes.hex (digest key msg).

End HMAC.

(** ** Python values *)

(** A [float]: not-a-number, an infinity, or a finite value.  Every finite
    double is a rational; the model allows any rational. *)
Inductive pyfloat : Type :=
  | FNaN
  | FInf (negative : bool)
  | FFin (q : Q).

(** The values the client handles: request parameters and decoded JSON. *)
#[warnings="-register-all"]
Inductive pyval : Type :=
  | VNone
  | VBool (b : bool)
  | VInt (z : Z)
  | VFloat (f : pyfloat)
  | VStr (s : string)
  | VList (l : list pyval)
  | VDict (d : list (string * pyval)).

(** A [dict] with [str] keys, in insertion order, keys pairwise distinct. *)
Abbreviation pydict := (list (string * pyval)).

(** Exceptions, by class.  [JSONDecodeError] is [json.JSONDecodeError], a
    subclass of [ValueError]; [AuthenticationError] and [RateLimitError] are
    the subclasses of [WeatherAPIError] the client declares. *)
Inductive exn : Type :=
  | ValueError (msg : string)
  | TypeError (msg : string)
  | KeyError (key : string)
  | JSONDecodeError (msg : string)
  | WeatherAPIError (msg : string)
  | AuthenticationError (msg : string)
  | RateLimitError (msg : string) (retry_after : Z).

Inductive result (A : Type) : Type :=
  | Ok (a : A)
  | Raise (e : exn).
Arguments Ok {A} a.
Arguments Raise {A} e.

(** [isinstance(e, WeatherAPIError)], with [str(e)] when it holds. *)
Definition as_WeatherAPIError (e : exn) : option string :=
  match e with
  | WeatherAPIError m | AuthenticationError m | RateLimitError m _ => Some m
  | _ => None
  end.

Definition is_WeatherAPIError (e : exn) : bool :=
  match as_WeatherAPIError e with
  | Some _ => true
  | None => false
  end.

Module Py.

(** *** Strings *)

Definition code (c : ascii) : Z := Z.of_N (N_of_ascii c).
Definition chr (n : Z) : ascii := ascii_of_N (Z.to_N n).

Definition is_ascii_char (c : ascii) : bool := code c <? 128.

Fixpoint isascii (s : string) : bool :=
  match s with
  | EmptyString => true
  | String c s' => is_ascii_char c && isascii s'
  end.

(** [s.encode()]: UTF-8. *)
Definition utf8_char (c : ascii) : list byte :=
  let n := code c in
  if n <? 128 then [Bytes.of_Z n]
  else [Bytes.of_Z (192 + n / 64); Bytes.of_Z (128 + n mod 64)].

Fixpoint encode (s : string) : list byte :=
  match s with
  | EmptyString => []
  | String c s' => utf8_char c ++ encode s'
  end.

Definition startswith (s p : string) : bool := String.prefix p s.

(** [p in s] for two strings. *)
Fixpoint str_contains (p s : string) : bool :=
  String.prefix p s ||
  match s with
  | EmptyString => false
  | String _ s' => str_contains p s'
  end.

Fixpoint join (sep : string) (l : list string) : string :=
  match l with
  | [] => ""
  | [x] => x
  | x :: l' => x +:+ sep +:+ join sep l'
  end.

(** *** Dictionaries *)

Fixpoint dict_get {A} (k : string) (d : list (string * A)) : option A :=
  match d with
  | [] => None
  | (k', v) :: d' => if String.eqb k' k then Some v else dict_get k d'
  end.

(** [d[k] = v]: an existing key keeps its place, a new key goes last. *)
Fixpoint dict_set {A} (k : string) (v : A) (d : list (string * A))
  : list (string * A) :=
  match d with
  | [] => [(k, v)]
  | (k', v') :: d' =>
      if String.eqb k' k then (k, v) :: d' else (k', v') :: dict_set k v d'
  end.

(** *** Truth value *)

Definition float_is_zero (f : pyfloat) : bool :=
  match f with
  | FFin q => Qeq_bool q 0
  | _ => false
  end.

Definition truthy (v : pyval) : bool :=
  match v with
  | VNone => false
  | VBool b => b
  | VInt z => negb (z =? 0)
  | VFloat f => negb (float_is_zero f)
  | VStr s => negb (String.eqb s "")
  | VList l => negb (bool_decide (length l = 0%nat))
  | VDict d => negb (bool_decide (length d = 0%nat))
  end.

Definition type_name (v : pyval) : string :=
  match v with
  | VNone => "NoneType"
  | VBool _ => "bool"
  | VInt _ => "int"
  | VFloat _ => "float"
  | VStr _ => "str"
  | VList _ => "list"
  | VDict _ => "dict"
  end.

End Py.

(** ** Comparison of Python values *)

Module Cmp.

Definition num_of (v : pyval) : option pyfloat :=
  match v with
  | VBool b => Some (FFin (if b then 1 else 0)%Q)
  | VInt z => Some (FFin (inject_Z z))
  | VFloat f => Some f
  | _ => None
  end.

(** Numeric order; [None] when a NaN is involved. *)
Definition float_cmp (a b : pyfloat) : option comparison :=
  match a, b with
  | FNaN, _ | _, FNaN => None
  | FInf n1, FInf n2 =>
      Some (if eqb n1 n2 then Eq else if n1 then Lt else Gt)
  | FInf n, FFin _ => Some (if n then Lt else Gt)
  | FFin _, FInf n => Some (if n then Gt else Lt)
  | FFin p, FFin q => Some (p ?= q)%Q
  end.

(** [a == b]. Numbers compare by value across [bool], [int] and [float];
    values of unrelated types are unequal. *)
Fixpoint eq (a b : pyval) : bool :=
  match a, b with
  | VNone, VNone => true
  | VStr s, VStr t => String.eqb s t
  | VList l1, VList l2 =>
      (fix go (l1 l2 : list pyval) : bool :=
         match l1, l2 with
         | [], [] => true
         | x :: l1', y :: l2' => eq x y && go l1' l2'
         | _, _ => false
         end) l1 l2
  | VDict d1, VDict d2 =>
      bool_decide (length d1 = length d2) &&
      (fix go (d : pydict) : bool :=
         match d with
         | [] => true
         | (k, v) :: d' =>
             match Py.dict_get k d2 with
             | Some v' => eq v v'
             | None => false
             end && go d'
         end) d1
  | _, _ =>
      match num_of a, num_of b with
      | Some x, Some y =>
          match float_cmp x y with Some Eq => true | _ => false end
      | _, _ => false
      end
  end.

Inductive ordering : Type :=
  | Ordered (c : comparison)
  | Unordered
  | Incomparable (left right : pyval).

(** The order behind [<], [<=], [>], [>=]: numbers by value, strings and
    lists lexicographically; anything else has no order. *)
Fixpoint order (a b : pyval) : ordering :=
  match a, b with
  | VStr s, VStr t => Ordered (String.compare s t)
  | VList l1, VList l2 =>
      (fix go (l1 l2 : list pyval) : ordering :=
         match l1, l2 with
         | [], [] => Ordered Eq
         | [], _ :: _ => Ordered Lt
         | _ :: _, [] => Ordered Gt
         | x :: l1', y :: l2' => if eq x y then go l1' l2' else order x y
         end) l1 l2
  | _, _ =>
      match num_of a, num_of b with
      | Some x, Some y =>
          match float_cmp x y with
          | Some c => Ordered c
          | None => Unordered
          end
      | _, _ => Incomparable a b
      end
  end.

Definition rich (sym : string) (test : comparison → bool) (a b : pyval)
  : result bool :=
  match order a b with
  | Ordered c => Ok (test c)
  | Unordered => Ok false
  | Incomparable x y =>
      Raise (TypeError ("'" +:+ sym +:+ "' not supported between instances of '"
                        +:+ Py.type_name x +:+ "' and '"
                        +:+ Py.type_name y +:+ "'"))
  end.

Definition gt := rich ">" (λ c, match c with Gt => true | _ => false end).
Definition lt := rich "<" (λ c, match c with Lt => true | _ => false end).
Definition ge := rich ">=" (λ c, match c with Lt => false | _ => true end).
Definition le := rich "<=" (λ c, match c with Gt => false | _ => true end).
Definition ne (a b : pyval) : bool := negb (eq a b).

End Cmp.

(** ** [json.dumps(..., sort_keys=True)] *)

Module Json.

(** [sorted(d.items())]: keys of a dict are distinct, so the order of the
    pairs is the order of their keys.  Python sorts by merging runs. *)
Definition key_le {A} : relation (string * A) :=
  λ x y, String.le (fst x) (fst y).

#[global] Instance key_le_dec {A} : RelDecision (@key_le A) :=
  λ x y, String.le_dec (fst x) (fst y).

Definition sorted_items {A} (d : list (string * A)) : list (string * A) :=
  merge_sort key_le d.

Definition hex4 (n : Z) : string :=
  String (Bytes.hex_digit (n / 4096 mod 16))
    (String (Bytes.hex_digit (n / 256 mod 16))
       (String (Bytes.hex_digit (n / 16 mod 16))
          (String (Bytes.hex_digit (n mod 16)) ""))).

(** One character of a string literal, with [ensure_ascii=True]. *)
Definition escape_char (c : ascii) : string :=
  let n := Py.code c in
  if n =? 34 then "\" +:+ String c ""
  else if n =? 92 then "\\"
  else if n =? 10 then "\n"
  else if n =? 13 then "\r"
  else if n =? 9 then "\t"
  else if n =? 12 then "\f"
  else if n =? 8 then "\b"
  else if (n <? 32) || (126 <? n) then "\u" +:+ hex4 n
  else String c "".

Fixpoint escape (s : string) : string :=
  match s with
  | EmptyString => ""
  | String c s' => escape_char c +:+ escape s'
  end.

Definition quote (s : string) : string :=
  String (Py.chr 34) (escape s) +:+ String (Py.chr 34) "".

Section Dumps.
(** [float.__repr__] on finite floats. *)
Variable float_repr : Q → string.

Definition float_str (f : pyfloat) : string :=
  match f with
  | FNaN => "NaN"
  | FInf false => "Infinity"
  | FInf true => "-Infinity"
  | FFin q => float_repr q
  end.

Definition render_item (kv : string * string) : string :=
  quote (fst kv) +:+ ": " +:+ snd kv.

(** A dict is rendered value by value, and the rendered pairs are put in
    key order. *)
Fixpoint dumps (v : pyval) : string :=
  match v with
  | VNone => "null"
  | VBool true => "true"
  | VBool false => "false"
  | VInt z => pretty z
  | VFloat f => float_str f
  | VStr s => quote s
  | VList l =>
      "[" +:+ Py.join ", " (List.map dumps l) +:+ "]"
  | VDict d =>
      "{" +:+ Py.join ", "
                (List.map render_item
                   (sorted_items
                      (List.map (λ kv, (fst kv, dumps (snd kv))) d)))
          +:+ "}"
  end.
End Dumps.

End Json.

(** ** The outside world *)

(** What [session.request] is called with. *)
Record request : Type := {
  method : string;
  endpoint : string;
  params : option pydict;
  body : option pydict;
}.

(** What [response.json()] does. *)
Inductive json_body : Type :=
  | Json (v : pyval)
  | NotJson (msg : string).

(** The parts of a [requests.Response] the client reads.  [http_error] is
    the text of the [HTTPError] that [raise_for_status()] raises when the
    status is a 4xx or 5xx one. *)
Record response : Type := {
  status_code : Z;
  retry_after : option string;
  http_error : string;
  json : json_body;
}.

(** [session.request] returns a response or raises a
    [requests.exceptions.RequestException] with the given text. *)
Inductive net_outcome : Type :=
  | Responds (r : response)
  | RequestException (msg : string).

(** Everything the program reads from its runtime and surroundings.
    - [float_repr]: [float.__repr__] on finite floats.
    - [builtin_int]: [int(s)] on a string, the integer or the message of the
      [ValueError].
    - [clock n]: what the [n]-th call of [time.time()] returns.
    - [session_request n r]: the outcome of request [r] when [n] requests
      were sent before it.
    - [backoff_elapsed n]: the seconds the [backoff] decorator measures at
      the start of the [n]-th try of one call.
    - [json_error_wrapped]: whether the installed [requests] raises its own
      [RequestException] subclass from [response.json()] (2.27 and later) or
      the plain [json.JSONDecodeError].
    - [set_iter l]: the order in which a [set] built from [l] is iterated.
    - [callback_raises c d]: whether callback [c] raises an [Exception] on
      the payload [d]. *)
Record env : Type := {
  float_repr : Q → string;
  builtin_int : string → Z + string;
  clock : nat → Q;
  session_request : nat → request → net_outcome;
  backoff_elapsed : nat → Q;
  json_error_wrapped : bool;
  set_iter : list string → list string;
  callback_raises : nat → pyval → bool;
}.

(** ** Program state *)

Definition Qltb (x y : Q) : bool := negb (Qle_bool y x).

#[global] Instance Qlt_dec : RelDecision Qlt := λ x y,
  match Qlt_le_dec x y with
  | left H => left H
  | right H => right (Qle_not_lt _ _ H)
  end.

(** A call of a client operation, as seen from outside. *)
Inductive api_call : Type :=
  | CurrentWeather (location : option string) (lat lon : option pyfloat)
  | Forecast (location : option string) (lat lon : option pyfloat) (days : Z)
  | Historical (location : option string) (lat lon : option pyfloat)
  | Alerts (location : option string) (lat lon : option pyfloat).

(** The client's cache ([self._cache]: key to (data, timestamp)), and the
    observable history of a run: the requests sent over the network, the
    number of clock readings, the client operations called and the callbacks
    invoked with their payloads. *)
Record state : Type := {
  _cache : gmap string (pyval * Q);
  sent : list request;
  time_reads : nat;
  calls : list api_call;
  fired : list (nat * pyval);
}.

Definition initial : state :=
  {| _cache := ∅; sent := []; time_reads := 0; calls := []; fired := [] |}.

Definition set_cache (c : gmap string (pyval * Q)) (st : state) : state :=
  {| _cache := c; sent := sent st; time_reads := time_reads st;
     calls := calls st; fired := fired st |}.

(** ** State and exceptions *)

Definition M (A : Type) : Type := state → result A * state.

#[global] Instance M_ret : MRet M := λ A a st, (Ok a, st).

#[global] Instance M_bind : MBind M := λ A B f m st,
  match m st with
  | (Ok a, st') => f a st'
  | (Raise e, st') => (Raise e, st')
  end.

Definition raise {A} (e : exn) : M A := λ st, (Raise e, st).

(** [try: m except WeatherAPIError as e: h(str(e))] *)
Definition try_except_WeatherAPIError {A} (m : M A) (h : string → M A) : M A :=
  λ st,
    match m st with
    | (Raise e, st') =>
        match as_WeatherAPIError e with
        | Some msg => h msg st'
        | None => (Raise e, st')
        end
    | r => r
    end.

(** A [for] loop over a list. *)
Fixpoint for_each {A} (l : list A) (body : A → M unit) : M unit :=
  match l with
  | [] => mret tt
  | x :: l' => body x ≫= λ _, for_each l' body
  end.

(** ** [WeatherClient] *)

Inductive WeatherUnits : Type := METRIC | IMPERIAL | KELVIN.

Definition WeatherUnits_value (u : WeatherUnits) : string :=
  match u with
  | METRIC => "metric"
  | IMPERIAL => "imperial"
  | KELVIN => "kelvin"
  end.

Inductive WeatherSeverity : Type := MINOR | MODERATE | SEVERE | EXTREME.

Definition WeatherSeverity_value (s : WeatherSeverity) : string :=
  match s with
  | MINOR => "minor"
  | MODERATE => "moderate"
  | SEVERE => "severe"
  | EXTREME => "extreme"
  end.

(** Truth value of an [Optional[str]] and of an [Optional[float]]. *)
Definition given_str (location : option string) : bool :=
  match location with
  | Some s => Py.truthy (VStr s)
  | None => false
  end.

Definition given_float (x : option pyfloat) : bool :=
  match x with
  | Some f => Py.truthy (VFloat f)
  | None => false
  end.

Definition float_or_None (x : option pyfloat) : pyval :=
  match x with
  | Some f => VFloat f
  | None => VNone
  end.

Definition modify (f : state → state) : M unit := λ st, (Ok tt, f st).

Definition add_fired (l : list (nat * pyval)) (st : state) : state :=
  {| _cache := _cache st; sent := sent st; time_reads := time_reads st;
     calls := calls st; fired := fired st ++ l |}.

Section Client.
Variable E : env.

(** [self._cache_ttl], in seconds. *)
Definition _cache_ttl : Q := 300.

Definition _get_cache_key (endpoint : string) (params : pydict) : string :=
  let cache_data :=
    endpoint +:+ ":" +:+ Json.dumps (float_repr E) (VDict params) in
  MD5.hexdigest (Py.encode cache_data).

(** [time.time()] *)
Definition time : M Q := λ st,
  (Ok (clock E (time_reads st)),
   {| _cache := _cache st; sent := sent st;
      time_reads := Datatypes.S (time_reads st);
      calls := calls st; fired := fired st |}).

Definition _get_from_cache (cache_key : string) : M (option pyval) := λ st,
  match _cache st !! cache_key with
  | Some (data, timestamp) =>
      (now ← time;
       if Qltb (now - timestamp) _cache_ttl then mret (Some data)
       else mret None) st
  | None => (Ok None, st)
  end.

Definition _save_to_cache (cache_key : string) (data : pyval) : M unit :=
  t ← time;
  modify (λ st, set_cache (<[cache_key := (data, t)]> (_cache st)) st);;
  (* Clean old cache entries *)
  current_time ← time;
  modify (λ st,
    set_cache
      (filter (λ kv, (current_time - snd (snd kv) < _cache_ttl)%Q)
              (_cache st)) st).

(** [self.session.request(...)]: the request goes out and is answered. *)
Definition send (r : request) : M net_outcome := λ st,
  (Ok (session_request E (length (sent st)) r),
   {| _cache := _cache st; sent := sent st ++ [r];
      time_reads := time_reads st; calls := calls st; fired := fired st |}).

(** [int(response.headers.get('Retry-After', 60))] *)
Definition retry_after_seconds (r : response) : M Z :=
  match retry_after r with
  | None => mret 60
  | Some s =>
      match builtin_int E s with
      | inl n => mret n
      | inr msg => raise (ValueError msg)
      end
  end.

(** The status checks of [_make_request], then [raise_for_status()].  The
    [except RequestException] clause turns the [HTTPError] into a
    [WeatherAPIError]. *)
Definition check_status (endpoint : string) (r : response) : M unit :=
  let status := status_code r in
  if status =? 401 then raise (AuthenticationError "Invalid API key")
  else if status =? 429 then
    n ← retry_after_seconds r;
    raise (RateLimitError "Rate limit exceeded" n)
  else if status =? 404 then
    raise (WeatherAPIError ("Resource not found: " +:+ endpoint))
  else if 500 <=? status then
    raise (WeatherAPIError ("Server error: " +:+ pretty status))
  else if (400 <=? status) && (status <? 600) then
    raise (WeatherAPIError ("Request failed: " +:+ http_error r))
  else mret tt.

(** [response.json()] *)
Definition parse (r : response) : M pyval :=
  match json r with
  | Json v => mret v
  | NotJson msg =>
      if json_error_wrapped E
      then raise (WeatherAPIError ("Request failed: " +:+ msg))
      else raise (JSONDecodeError msg)
  end.

(** What [_make_request] does with the outcome of [session.request]. *)
Definition receive (endpoint cache_key : string) (cacheable : bool)
    (outcome : net_outcome) : M pyval :=
  match outcome with
  | RequestException msg =>
      raise (WeatherAPIError ("Request failed: " +:+ msg))
  | Responds response =>
      check_status endpoint response;;
      response_data ← parse response;
      (if cacheable then _save_to_cache cache_key response_data
       else mret tt);;
      mret response_data
  end.

(** The body of [_make_request]: one try. *)
Definition _make_request_once (method endpoint : string)
    (params data : option pydict) (use_cache : bool) : M pyval :=
  let cacheable := String.eqb method "GET" && use_cache in
  let cache_key := _get_cache_key endpoint (default [] params) in
  cached_data ← (if cacheable then _get_from_cache cache_key
                 else mret None);
  if match cached_data with Some d => Py.truthy d | None => false end
  then mret (default VNone cached_data)
  else
    outcome ← send {| method := method; endpoint := endpoint;
                      params := params; body := data |};
    receive endpoint cache_key cacheable outcome.

(** [@backoff.on_exception(backoff.expo, (RequestException,
    RateLimitError), max_tries=3, max_time=60)]: a try that raises one of
    the listed exceptions is repeated unless it was the last allowed try
    or the time is up.  A [RequestException] never leaves the body, so
    only [RateLimitError] is retried. *)
Definition max_tries : nat := 3.
Definition max_time : Q := 60.

Definition retried (e : exn) : bool :=
  match e with
  | RateLimitError _ _ => true
  | _ => false
  end.

Fixpoint on_exception {A} (remaining tries : nat) (target : M A) : M A :=
  λ st,
    match target st with
    | (Raise e, st') =>
        match remaining with
        | Datatypes.S remaining' =>
            if retried e && negb (Qle_bool max_time (backoff_elapsed E tries))
            then on_exception remaining' (Datatypes.S tries) target st'
            else (Raise e, st')
        | O => (Raise e, st')
        end
    | r => r
    end.

Definition _make_request (method endpoint : string)
    (params data : option pydict) (use_cache : bool) : M pyval :=
  on_exception (max_tries - 1) 1
    (_make_request_once method endpoint params data use_cache).

Definition log_call (c : api_call) : M unit :=
  modify (λ st,
    {| _cache := _cache st; sent := sent st; time_reads := time_reads st;
       calls := calls st ++ [c]; fired := fired st |}).

(** [params['city'] = location] or [params['lat'] = lat;
    params['lon'] = lon] *)
Definition with_place (location : option string) (lat lon : option pyfloat)
    (params : pydict) : pydict :=
  if given_str location
  then Py.dict_set "city" (VStr (default "" location)) params
  else Py.dict_set "lon" (float_or_None lon)
         (Py.dict_set "lat" (float_or_None lat) params).

Definition get_current_weather (location : option string)
    (lat lon : option pyfloat) (units : WeatherUnits) (lang : string)
  : M pyval :=
  log_call (CurrentWeather location lat lon);;
  if negb (given_str location)
     && negb (if given_float lat then given_float lon else false)
  then raise (ValueError "Either location or coordinates required")
  else
    let params := [("units", VStr (WeatherUnits_value units));
                   ("lang", VStr lang)] in
    _make_request "GET" "/weather/current"
      (Some (with_place location lat lon params)) None true.

Definition get_forecast (location : option string)
    (lat lon : option pyfloat) (days : Z) (units : WeatherUnits)
  : M pyval :=
  log_call (Forecast location lat lon days);;
  if negb ((1 <=? days) && (days <=? 7))
  then raise (ValueError "Days must be between 1 and 7")
  else
    let params := [("days", VInt days);
                   ("units", VStr (WeatherUnits_value units))] in
    _make_request "GET" "/weather/forecast"
      (Some (with_place location lat lon params)) None true.

(** [date] is the [YYYY-MM-DD] text, given as such or produced by
    [strftime] from a [datetime]. *)
Definition get_historical_weather (date : string)
    (location : option string) (lat lon : option pyfloat)
    (units : WeatherUnits) : M pyval :=
  log_call (Historical location lat lon);;
  let params := [("date", VStr date);
                 ("units", VStr (WeatherUnits_value units))] in
  _make_request "GET" "/weather/historical"
    (Some (with_place location lat lon params)) None true.

Definition get_alerts (location : option string)
    (lat lon : option pyfloat) (severity : option WeatherSeverity)
  : M pyval :=
  log_call (Alerts location lat lon);;
  let params := with_place location lat lon [] in
  let params :=
    match severity with
    | Some s => Py.dict_set "severity" (VStr (WeatherSeverity_value s)) params
    | None => params
    end in
  _make_request "GET" "/weather/alerts" (Some params) None true.
End Client.

(** ** Utility methods of [WeatherClient] *)

(** [hmac.compare_digest(a, b)] on two strings: a [TypeError] unless both
    are ASCII, else whether they are equal (in time independent of the
    contents, which the model does not observe). *)
Definition compare_digest (a b : string) : result bool :=
  if Py.isascii a && Py.isascii b then Ok (String.eqb a b)
  else Raise (TypeError
                "comparing strings with non-ASCII characters is not supported").

Definition verify_webhook_signature (payload : list byte)
    (signature secret : string) : result bool :=
  let expected := HMAC.hexdigest (Py.encode secret) payload in
  compare_digest expected signature.

Section Batch.
Variable E : env.

(** The call made for one location: [self.get_current_weather(location)],
    [self.get_forecast(location)], or the [ValueError] of the [else]
    branch. *)
Definition batch_call (request_type location : string) : M pyval :=
  if String.eqb request_type "current" then
    get_current_weather E (Some location) None None METRIC "en"
  else if String.eqb request_type "forecast" then
    get_forecast E (Some location) None None 5 METRIC
  else
    raise (ValueError ("Invalid request type: " +:+ request_type)).

(** The body of the loop of [batch_weather_request], [results] being the
    dictionary built so far. *)
Definition batch_step (request_type : string) (results : pydict)
    (location : string) : M pydict :=
  try_except_WeatherAPIError
    (data ← batch_call request_type location;
     mret (Py.dict_set location data results))
    (λ msg,
       mret (Py.dict_set location (VDict [("error", VStr msg)]) results)).

Fixpoint batch_loop (request_type : string) (locations : list string)
    (results : pydict) : M pydict :=
  match locations with
  | [] => mret results
  | location :: rest =>
      results' ← batch_step request_type results location;
      batch_loop request_type rest results'
  end.

Definition batch_weather_request (locations : list string)
    (request_type : string) : M pydict :=
  batch_loop request_type locations [].
End Batch.

(** ** [WeatherMonitor] *)

(** A value of [self.thresholds]. *)
Record threshold : Type := {
  th_operator : string;
  th_value : pyval;
  th_parameter : string;
  th_location : string;
}.

(** [self.thresholds] and [self.callbacks]; a callback is known by a number. *)
Record monitor : Type := {
  thresholds : list (string * threshold);
  callbacks : list (string * list nat);
}.

Definition new_monitor : monitor := {| thresholds := []; callbacks := [] |}.

Definition set_threshold (parameter operator : string) (value : pyval)
    (location : string) (m : monitor) : monitor :=
  let key := location +:+ ":" +:+ parameter in
  {| thresholds :=
       Py.dict_set key
         {| th_operator := operator; th_value := value;
            th_parameter := parameter; th_location := location |}
         (thresholds m);
     callbacks := callbacks m |}.

Definition on_threshold_exceeded (callback : nat) (m : monitor) : monitor :=
  let registered := default [] (Py.dict_get "threshold_exceeded" (callbacks m)) in
  {| thresholds := thresholds m;
     callbacks :=
       Py.dict_set "threshold_exceeded" (registered ++ [callback])
         (callbacks m) |}.

(** [obj[key]] with a string key. *)
Definition getitem (obj : pyval) (key : string) : result pyval :=
  match obj with
  | VDict d =>
      match Py.dict_get key d with
      | Some v => Ok v
      | None => Raise (KeyError key)
      end
  | VList _ =>
      Raise (TypeError "list indices must be integers or slices, not str")
  | VStr _ => Raise (TypeError "string indices must be integers, not 'str'")
  | _ =>
      Raise (TypeError ("'" +:+ Py.type_name obj
                        +:+ "' object is not subscriptable"))
  end.

(** [key in obj] with a string key. *)
Definition contains (key : string) (obj : pyval) : result bool :=
  match obj with
  | VDict d => Ok (bool_decide (is_Some (Py.dict_get key d)))
  | VList l => Ok (existsb (λ x, Cmp.eq x (VStr key)) l)
  | VStr s => Ok (Py.str_contains key s)
  | _ =>
      Raise (TypeError ("argument of type '" +:+ Py.type_name obj
                        +:+ "' is not iterable"))
  end.

Definition lift {A} (r : result A) : M A := λ st, (r, st).

(** The [operators] table of [_check_condition]. *)
Definition operators : list (string * (pyval → pyval → result bool)) :=
  [ (">", Cmp.gt);
    ("<", Cmp.lt);
    (">=", Cmp.ge);
    ("<=", Cmp.le);
    ("==", λ x y, Ok (Cmp.eq x y));
    ("!=", λ x y, Ok (Cmp.ne x y)) ].

Definition _check_condition (value : pyval) (operator : string)
    (threshold : pyval) : result bool :=
  match Py.dict_get operator operators with
  | None => Raise (ValueError ("Invalid operator: " +:+ operator))
  | Some f => f value threshold
  end.

Section Monitor.
Variable E : env.

(** [callback(data)] inside [try ... except Exception]: the call is made,
    and whether it raises makes no difference to what follows. *)
Definition invoke (data : pyval) (callback : nat) : M unit :=
  modify (add_fired [(callback, data)]);;
  if callback_raises E callback data then mret tt (* logged *) else mret tt.

Definition _trigger_callbacks (m : monitor) (event_type : string)
    (data : pyval) : M unit :=
  match Py.dict_get event_type (callbacks m) with
  | Some registered => for_each registered (invoke data)
  | None => mret tt
  end.

(** The body of the inner loop of [check_thresholds]. *)
Definition check_rule (m : monitor) (location : string)
    (current_data : pyval) (entry : string * threshold) : M unit :=
  let '(key, threshold) := entry in
  if negb (Py.startswith key (location +:+ ":")) then mret tt
  else
    let param := th_parameter threshold in
    present ← lift (contains param current_data);
    if present : bool then
      value ← lift (getitem current_data param);
      holds ← lift (_check_condition value (th_operator threshold)
                      (th_value threshold));
      if holds : bool then
        _trigger_callbacks m "threshold_exceeded"
          (VDict [("location", VStr location);
                  ("parameter", VStr param);
                  ("value", value);
                  ("threshold", th_value threshold);
                  ("operator", VStr (th_operator threshold))])
      else mret tt
    else mret tt.

(** What is done with the weather fetched for a location. *)
Definition rules_loop (m : monitor) (location : string) (weather : pyval)
  : M unit :=
  current_data ← lift (getitem weather "current");
  for_each (thresholds m) (check_rule m location current_data).

(** The body of the outer loop. *)
Definition check_location (m : monitor) (location : string) : M unit :=
  try_except_WeatherAPIError
    (get_current_weather E (Some location) None None METRIC "en"
       ≫= rules_loop m location)
    (λ _, mret tt).

Definition monitored_locations (m : monitor) : list string :=
  set_iter E (remove_dups (List.map (λ kv, th_location (snd kv))
                             (thresholds m))).

Definition check_thresholds (m : monitor) : M unit :=
  for_each (monitored_locations m) (check_location m).
End Monitor.

(** ** The monitor as the specification words it

    These definitions follow the specification text, not the code: which
    callbacks are due for one location, given the [current] block of the
    weather fetched for it. *)

(** "The rule's comparison holds": observed value, operator, threshold. *)
Definition comparison_holds (operator : string) (observed threshold : pyval)
  : bool :=
  let ordered (test : comparison → bool) :=
    match Cmp.order observed threshold with
    | Cmp.Ordered c => test c
    | _ => false
    end in
  if String.eqb operator ">" then
    ordered (λ c, match c with Gt => true | _ => false end)
  else if String.eqb operator "<" then
    ordered (λ c, match c with Lt => true | _ => false end)
  else if String.eqb operator ">=" then
    ordered (λ c, match c with Lt => false | _ => true end)
  else if String.eqb operator "<=" then
    ordered (λ c, match c with Gt => false | _ => true end)
  else if String.eqb operator "==" then Cmp.eq observed threshold
  else if String.eqb operator "!=" then negb (Cmp.eq observed threshold)
  else false.

(** The event payload: location, parameter, observed value, threshold,
    operator. *)
Definition event_payload (location : string) (observed : pyval)
    (rule : threshold) : pyval :=
  VDict [("location", VStr location);
         ("parameter", VStr (th_parameter rule));
         ("value", observed);
         ("threshold", th_value rule);
         ("operator", VStr (th_operator rule))].

Definition subscribers (m : monitor) : list nat :=
  default [] (Py.dict_get "threshold_exceeded" (callbacks m)).

(** A rule of the location whose parameter is present and whose comparison
    holds is due for every registered callback, once; any other rule for
    none. *)
Definition due_for_rule (m : monitor) (location : string)
    (current : pydict) (rule : threshold) : list (nat * pyval) :=
  if String.eqb (th_location rule) location then
    match Py.dict_get (th_parameter rule) current with
    | Some observed =>
        if comparison_holds (th_operator rule) observed (th_value rule)
        then List.map (λ c, (c, event_payload location observed rule))
               (subscribers m)
        else []
    | None => []
    end
  else [].

Definition due_callbacks (m : monitor) (location : string)
    (current : pydict) : list (nat * pyval) :=
  flat_map (λ kv, due_for_rule m location current (snd kv)) (thresholds m).

(** No rule of the location raises when it is evaluated against the
    [current] block: its operator is one of the six, and the observed value
    can be compared with the threshold. *)
Definition evaluable (rules : list (string * threshold)) (location : string)
    (current : pydict) : Prop :=
  ∀ kv v, kv ∈ rules → th_location (snd kv) = location →
          Py.dict_get (th_parameter (snd kv)) current = Some v →
          ∃ b, _check_condition v (th_operator (snd kv))
                 (th_value (snd kv)) = Ok b.

(** [self.client.get_current_weather(location)], the call that
    [check_thresholds] makes for a location. *)
Definition fetch (E : env) (location : string) : M pyval :=
  get_current_weather E (Some location) None None METRIC "en".

(** The check that started in [st] has gone through the locations [before]
    and stands in [st0]. *)
Definition reaches (E : env) (m : monitor) (st : state)
    (before : list string) (st0 : state) : Prop :=
  for_each before (check_location E m) st = (Ok tt, st0).

(** What came back for a location when its weather was asked for in [st]:
    a weather with the [current] block [current], against which the rules
    of the location can be evaluated; or nothing, the call having failed
    with a [WeatherAPIError]. *)
Definition answered (E : env) (m : monitor) (location : string) (st : state)
    (reading : option pydict) : Prop :=
  match reading with
  | Some current =>
      ∃ weather st1,
        fetch E location st = (Ok weather, st1)
        ∧ getitem weather "current" = Ok (VDict current)
        ∧ evaluable (thresholds m) location current
  | None =>
      ∃ e st1,
        fetch E location st = (Raise e, st1) ∧ is_WeatherAPIError e = true
  end.

(** The callbacks due for a location, given what came back for it. *)
Definition due_at (m : monitor) (location : string)
    (reading : option pydict) : list (nat * pyval) :=
  match reading with
  | Some current => due_callbacks m location current
  | None => []
  end.

(** ** Monitors built by [set_threshold] *)

(** Every entry of [self.thresholds] sits under the key made of its own
    location and parameter. *)
Definition well_keyed (m : monitor) : Prop :=
  Forall (λ kv, fst kv = th_location (snd kv) +:+ ":"
                           +:+ th_parameter (snd kv)) (thresholds m).

Definition colon_free (s : string) : Prop := Py.str_contains ":" s = false.

Definition plain_locations (m : monitor) : Prop :=
  Forall (λ kv, colon_free (th_location (snd kv))) (thresholds m).

(** ** A sample environment

    The server knows a few cities: Paris is not found, Oslo times out, Nome
    is cold, Lima reports its humidity in words, and every other place is
    warm.  Requests without a city are answered like the warm places. *)

Definition weather_report (temperature : Z) : pyval :=
  VDict [("location", VDict [("city", VStr "somewhere")]);
         ("current", VDict [("temperature", VInt temperature);
                            ("humidity", VInt 40)])].

(** A report whose humidity is a word, not a number. *)
Definition misty_report : pyval :=
  VDict [("location", VDict [("city", VStr "Lima")]);
         ("current", VDict [("humidity", VStr "high");
                            ("temperature", VInt 31)])].

Definition ok_response (v : pyval) : net_outcome :=
  Responds {| status_code := 200; retry_after := None; http_error := "";
              json := Json v |}.

Definition demo_server (r : request) : net_outcome :=
  match params r ≫= Py.dict_get "city" with
  | Some (VStr city) =>
      if String.eqb city "Paris" then
        Responds {| status_code := 404; retry_after := None;
                    http_error := "404 Client Error"; json := NotJson "" |}
      else if String.eqb city "Oslo" then RequestException "timed out"
      else if String.eqb city "Nome" then ok_response (weather_report 29)
      else if String.eqb city "Lima" then ok_response misty_report
      else ok_response (weather_report 31)
  | _ => ok_response (weather_report 31)
  end.

(** [int()] on plain decimal numerals, and [repr] on whole numbers: enough
    for the samples. *)
Fixpoint decimal (acc : Z) (s : string) : option Z :=
  match s with
  | EmptyString => Some acc
  | String c s' =>
      let d := Py.code c - 48 in
      if (0 <=? d) && (d <=? 9) then decimal (10 * acc + d) s' else None
  end.

Definition sample_int (s : string) : Z + string :=
  match s with
  | EmptyString => inr "invalid literal for int() with base 10: ''"
  | _ =>
      match decimal 0 s with
      | Some n => inl n
      | None => inr ("invalid literal for int() with base 10: '" +:+ s +:+ "'")
      end
  end.

Definition sample_repr (q : Q) : string :=
  pretty (Qnum q / Z.pos (Qden q)) +:+ ".0".

Definition demo : env := {|
  float_repr := sample_repr;
  builtin_int := sample_int;
  clock := λ n, inject_Z (Z.of_nat n);
  session_request := λ _, demo_server;
  backoff_elapsed := λ _, 0%Q;
  json_error_wrapped := true;
  set_iter := λ l, l;
  callback_raises := λ _ _, false;
|}.

(** The same surroundings with a clock that advances five minutes between
    any two readings. *)
Definition stalled : env := {|
  float_repr := float_repr demo;
  builtin_int := builtin_int demo;
  clock := λ n, inject_Z (300 * Z.of_nat n);
  session_request := session_request demo;
  backoff_elapsed := backoff_elapsed demo;
  json_error_wrapped := json_error_wrapped demo;
  set_iter := set_iter demo;
  callback_raises := callback_raises demo;
|}.

(** Sample monitors, each with callback 7 registered. *)
Definition hot_monitor (location : string) : monitor :=
  on_threshold_exceeded 7
    (set_threshold "temperature" ">" (VInt 30) location new_monitor).

Definition mistyped_monitor : monitor :=
  on_threshold_exceeded 7
    (set_threshold "temperature" ">" (VInt 30) "X"
       (set_threshold "humidity" "=>" (VInt 50) "X" new_monitor)).

Definition humidity_monitor : monitor :=
  on_threshold_exceeded 7
    (set_threshold "temperature" ">" (VInt 30) "Lima"
       (set_threshold "humidity" ">" (VInt 50) "Lima" new_monitor)).

(** A monitor with a colon in a location name: Nome, and "Nome:1". *)
Definition colon_monitor : monitor :=
  on_threshold_exceeded 7
    (set_threshold "temperature" "<" (VInt 30) "Nome:1"
       (set_threshold "humidity" ">" (VInt 100) "Nome" new_monitor)).

(** A monitor of two cities, X and Paris, and what the sample server has
    for them: 31 degrees, and nothing for Paris. *)
Definition two_city_monitor : monitor :=
  on_threshold_exceeded 7
    (set_threshold "temperature" ">" (VInt 30) "Paris"
       (set_threshold "temperature" ">" (VInt 30) "X" new_monitor)).

Definition sample_reading (location : string) : option pydict :=
  if String.eqb location "Paris" then None
  else Some [("temperature", VInt 31); ("humidity", VInt 40)].

Definition current_weather_request (city : string) : request :=
  {| method := "GET"; endpoint := "/weather/current";
     params := Some [("units", VStr "metric"); ("lang", VStr "en");
                     ("city", VStr city)];
     body := None |}.

(** ** Vocabulary of the properties *)

(** [respects R m]: every run of [m] takes a state to an [R]-related one. *)
Definition respects (R : relation state) {A} (m : M A) : Prop :=
  ∀ st, R st (m st).2.

(** The digest of the payload with its first character replaced by "é":
    one character of the signature is changed. *)
Definition mutated_signature : string :=
  match HMAC.hexdigest (Py.encode "secret") (Bytes.of_string "{}") with
  | String _ rest => String (Py.chr 233) rest
  | EmptyString => ""
  end.

(** *** The network log only grows *)

Definition sent_grows : relation state :=
  λ st st', sent st `prefix_of` sent st'.

(** [sends r st st']: from [st] to [st'] the request [r] went out, and
    it was the first to do so. *)
Definition sends (r : request) (st st' : state) : Prop :=
  ∃ more, sent st' = sent st ++ r :: more.

Definition placeless (endpoint : string) (params : pydict) : request :=
  {| method := "GET"; endpoint := endpoint;
     params := Some (params ++ [("lat", VNone); ("lon", VNone)]);
     body := None |}.

(** ** Which exceptions a computation can raise *)

Definition raises_only (P : exn → Prop) {A} (m : M A) : Prop :=
  ∀ st e st', m st = (Raise e, st') → P e.

(** An outcome of [session.request] that the client turns into a value or
    a [WeatherAPIError], never into another exception: a 429 answer has a
    [Retry-After] that [int()] accepts (or none), and a body that is not
    JSON is reported by a [requests] that wraps the error. *)
Definition tame (E : env) (outcome : net_outcome) : Prop :=
  match outcome with
  | RequestException _ => True
  | Responds r =>
      (∀ s, retry_after r = Some s → ∃ n, builtin_int E s = inl n)
      ∧ (∀ msg, json r = NotJson msg → json_error_wrapped E = true)
  end.

Definition is_WAE (e : exn) : Prop := is_WeatherAPIError e = true.

Definition error_marker (msg : string) : pyval := VDict [("error", VStr msg)].

(** What the batch holds for a location once it returns: the data of a
    call for it that succeeded, or the marker of one that failed. *)
Definition settled (E : env) (ty l : string) (v : pyval) : Prop :=
  ∃ st0,
    (batch_call E ty l st0).1 = Ok v
    ∨ ∃ e msg, (batch_call E ty l st0).1 = Raise e
               ∧ as_WeatherAPIError e = Some msg ∧ v = error_marker msg.

(** *** The call log *)

Definition same_calls : relation state := λ st st', calls st = calls st'.

(** *** The callbacks called *)

Definition same_fired : relation state := λ st st', fired st = fired st'.

(** ** Further operations of [WeatherClient] and [WeatherMonitor] *)

(** [search_locations] and [list_webhooks] call [.get] on the decoded
    response, which only a dict has: besides the exceptions of [exn] they
    can fail with an [AttributeError]. *)
Inductive outcome (A : Type) : Type :=
  | Returned (a : A)
  | Raised (e : exn)
  | RaisedAttributeError (msg : string).
Arguments Returned {A} a.
Arguments Raised {A} e.
Arguments RaisedAttributeError {A} msg.

(** [response.get(key, fallback)] *)
Definition get_method (response : pyval) (key : string) (fallback : pyval)
  : outcome pyval :=
  match response with
  | VDict d => Returned (default fallback (Py.dict_get key d))
  | _ =>
      RaisedAttributeError ("'" +:+ Py.type_name response
                            +:+ "' object has no attribute 'get'")
  end.

(** The [data] of [create_webhook]. *)
Definition webhook_data (url : string) (events : list string)
    (description secret : option string) : pydict :=
  let data := [("url", VStr url);
               ("events", VList (List.map VStr events));
               ("active", VBool true)] in
  let data :=
    if given_str description
    then Py.dict_set "description" (VStr (default "" description)) data
    else data in
  if given_str secret
  then Py.dict_set "secret" (VStr (default "" secret)) data
  else data.

Section Operations.
Variable E : env.

Definition search_locations (query : string) (limit : Z)
  : state → outcome pyval * state := λ st,
  if negb ((1 <=? limit) && (limit <=? 10))
  then (Raised (ValueError "Limit must be between 1 and 10"), st)
  else
    let params := [("q", VStr query); ("limit", VInt limit)] in
    match _make_request E "GET" "/locations/search" (Some params) None true st
    with
    | (Ok response, st') => (get_method response "results" (VList []), st')
    | (Raise e, st') => (Raised e, st')
    end.

Definition create_webhook (url : string) (events : list string)
    (description secret : option string) : M pyval :=
  _make_request E "POST" "/webhooks" None
    (Some (webhook_data url events description secret)) true.

Definition list_webhooks : state → outcome pyval * state := λ st,
  match _make_request E "GET" "/webhooks" None None true st with
  | (Ok response, st') => (get_method response "webhooks" (VList []), st')
  | (Raise e, st') => (Raised e, st')
  end.

Definition delete_webhook (webhook_id : string) : M bool :=
  _make_request E "DELETE" ("/webhooks/" +:+ webhook_id) None None true;;
  mret true.

(** The first [rounds] turns of the loop that [start_monitoring] runs:
    [while True: self.check_thresholds(); time.sleep(interval)].  An
    exception leaves the loop. *)
Fixpoint monitor_loop (rounds : nat) (m : monitor) : M unit :=
  match rounds with
  | O => mret tt
  | S rounds' => check_thresholds E m;; monitor_loop rounds' m
  end.
End Operations.

(** *** More vocabulary *)

Definition add_sent (l : list request) (st : state) : state :=
  {| _cache := _cache st; sent := sent st ++ l; time_reads := time_reads st;
     calls := calls st; fired := fired st |}.

Definition same_sent : relation state := λ st st', sent st = sent st'.

(** A try of a request finds nothing to return in the cache: no entry
    under the key. *)
Definition misses (E : env) (endpoint : string) (params : option pydict)
    (st : state) : Prop :=
  _cache st !! _get_cache_key E endpoint (default [] params) = None.

(** The status codes the client lets through. *)
Definition passes (r : response) : Prop := status_code r < 400.

(** A server that answers every request with 429 and no [Retry-After], a
    server that does so twice before it answers, and one whose
    [Retry-After] is a date. *)
Definition too_many : response :=
  {| status_code := 429; retry_after := None; http_error := "429";
     json := NotJson "" |}.

Definition busy : env := {|
  float_repr := float_repr demo;
  builtin_int := builtin_int demo;
  clock := clock demo;
  session_request := λ _ _, Responds too_many;
  backoff_elapsed := backoff_elapsed demo;
  json_error_wrapped := json_error_wrapped demo;
  set_iter := set_iter demo;
  callback_raises := callback_raises demo;
|}.

Definition busy_twice : env := {|
  float_repr := float_repr demo;
  builtin_int := builtin_int demo;
  clock := clock demo;
  session_request := λ n r,
    if (n <? 2)%nat then Responds too_many else demo_server r;
  backoff_elapsed := backoff_elapsed demo;
  json_error_wrapped := json_error_wrapped demo;
  set_iter := set_iter demo;
  callback_raises := callback_raises demo;
|}.

Definition come_back_later : response :=
  {| status_code := 429;
     retry_after := Some "Wed, 21 Oct 2015 07:28:00 GMT";
     http_error := "429"; json := NotJson "" |}.

Definition dated : env := {|
  float_repr := float_repr demo;
  builtin_int := builtin_int demo;
  clock := clock demo;
  session_request := λ _ _, Responds come_back_later;
  backoff_elapsed := backoff_elapsed demo;
  json_error_wrapped := json_error_wrapped demo;
  set_iter := set_iter demo;
  callback_raises := callback_raises demo;
|}.

(** Callbacks that all raise. *)
Definition grumpy : env := {|
  float_repr := float_repr demo;
  builtin_int := builtin_int demo;
  clock := clock demo;
  session_request := session_request demo;
  backoff_elapsed := backoff_elapsed demo;
  json_error_wrapped := json_error_wrapped demo;
  set_iter := set_iter demo;
  callback_raises := λ _ _, true;
|}.

(** A server that answers every request with 204 and an empty body. *)
Definition no_content : response :=
  {| status_code := 204; retry_after := None; http_error := "";
     json := NotJson "Expecting value: line 1 column 1 (char 0)" |}.

Definition terse : env := {|
  float_repr := float_repr demo;
  builtin_int := builtin_int demo;
  clock := clock demo;
  session_request := λ _ _, Responds no_content;
  backoff_elapsed := backoff_elapsed demo;
  json_error_wrapped := json_error_wrapped demo;
  set_iter := set_iter demo;
  callback_raises := callback_raises demo;
|}.

(** * Properties *)

(** ** The library models agree with the published test vectors *)

Example md5_empty :
  MD5.hexdigest [] = "d41d8cd98f00b204e9800998ecf8427e".
Proof. vm_compute. reflexivity. Qed.

Example md5_abc :
  MD5.hexdigest (Bytes.of_string "abc") = "900150983cd24fb0d6963f7d28e17f72".
Proof. vm_compute. reflexivity. Qed.

Example md5_two_blocks :
  MD5.hexdigest (repeat Byte.x61 70) = "0f5c6c4e740bfcc08c3c26ccb2673d46".
Proof. vm_compute. reflexivity. Qed.

Example sha256_abc :
  SHA256.hexdigest (Bytes.of_string "abc")
  = "ba7816bf8f01cfea414140de5dae2223b00361a396177a9cb410ff61f20015ad".
Proof. vm_compute. reflexivity. Qed.

Example hmac_sha256_fox :
  HMAC.hexdigest (Bytes.of_string "key")
    (Bytes.of_string "The quick brown fox jumps over the lazy dog")
  = "f7bc83f430538424b13298e6aa6fb143ef4d59a14946175997479dbc2d1a3cd8".
Proof. vm_compute. reflexivity. Qed.

Example hmac_sha256_long_key :
  HMAC.hexdigest (repeat Byte.x6b 70) (Bytes.of_string "x")
  = "9aaa34ef38bff9e3d571e60f9b6eadbc378f6177d2e7f8d156d458b21cfc62cb".
Proof. vm_compute. reflexivity. Qed.

Example cmp_int_float : Cmp.gt (VInt 31) (VFloat (FFin 30.5)) = Ok true.
Proof. reflexivity. Qed.

Example cmp_str_int :
  Cmp.gt (VStr "31") (VInt 30)
  = Raise (TypeError "'>' not supported between instances of 'str' and 'int'").
Proof. reflexivity. Qed.

Example cmp_nan : Cmp.ge (VFloat FNaN) (VInt 30) = Ok false.
Proof. reflexivity. Qed.

(** Keys computed by the Python client for the same requests. *)
Example cache_key_london :
  _get_cache_key demo "/weather/current"
    [("units", VStr "metric"); ("lang", VStr "en"); ("city", VStr "London")]
  = "8303904488a483accb8b2b011899438c".
Proof. vm_compute. reflexivity. Qed.

Example cache_key_nested :
  _get_cache_key demo "/weather/current"
    [("units", VStr "metric"); ("lang", VStr "en"); ("lat", VNone);
     ("days", VInt 5);
     ("s", VStr (String (Py.chr 233)
                   ("a\b" +:+ String (Py.chr 34)
                      ("q" +:+ String (Py.chr 127) (String (Py.chr 10) "")))));
     ("l", VList [VInt 1; VBool true; VStr "x";
                  VDict [("b", VNone); ("a", VList [])]])]
  = "e276566b19ec4eb2c704c15c9f3b3a20".
Proof. vm_compute. reflexivity. Qed.

Example cache_key_key_order :
  _get_cache_key demo "e"
    [("B", VInt 1); ("a", VInt 2); ("_", VInt 3);
     (String (Py.chr 233) "", VInt 4); ("aa", VInt 5); ("", VInt 6);
     ("x", VFloat FNaN); ("y", VFloat (FInf true))]
  = "72c2b385df809ae95cba788b6229f152".
Proof. vm_compute. reflexivity. Qed.

(** ** The monad *)

Lemma bind_run {A B} (m : M A) (f : A → M B) (st : state) :
  (m ≫= f) st =
  match m st with
  | (Ok a, st') => f a st'
  | (Raise e, st') => (Raise e, st')
  end.
Proof. reflexivity. Qed.

Lemma Qltb_lt (x y : Q) : Qltb x y = true ↔ (x < y)%Q.
Proof.
  unfold Qltb. rewrite negb_true_iff. split.
  - intros H. apply Qnot_le_lt. intros Hle.
    apply Qle_bool_iff in Hle. congruence.
  - intros H. destruct (Qle_bool y x) eqn:Hb; [|reflexivity].
    apply Qle_bool_iff in Hb. exfalso. exact (Qlt_not_le _ _ H Hb).
Qed.

Lemma Qltb_ge (x y : Q) : Qltb x y = false ↔ (y <= x)%Q.
Proof.
  unfold Qltb. rewrite negb_false_iff. apply Qle_bool_iff.
Qed.

(** ** Cache keys *)

Section CacheKey.
Context {A : Type}.

#[local] Instance key_le_trans : Transitive (@Json.key_le A).
Proof. intros x y z. unfold Json.key_le. apply transitivity. Qed.

#[local] Instance key_le_total : Total (@Json.key_le A).
Proof. intros x y. unfold Json.key_le. apply total, _. Qed.

Lemma same_key_same_item (l : list (string * A)) (x y : string * A) :
  NoDup (List.map fst l) → In x l → In y l → fst x = fst y → x = y.
Proof.
  induction l as [|z l IH]; simpl; [tauto|].
  intros Hnd Hx Hy Hk. apply NoDup_cons in Hnd as [Hz Hnd].
  assert (Hin : ∀ w, In w l → fst w ∈ List.map fst l).
  { intros w Hw. apply list_elem_of_In, in_map, Hw. }
  destruct Hx as [->|Hx], Hy as [->|Hy]; [reflexivity| | |by apply IH].
  - exfalso. apply Hz. rewrite Hk. by apply Hin.
  - exfalso. apply Hz. rewrite <- Hk. by apply Hin.
Qed.

(** Sorting by key forgets the order the pairs came in. *)
Lemma sorted_items_perm (l1 l2 : list (string * A)) :
  NoDup (List.map fst l1) → l1 ≡ₚ l2 →
  Json.sorted_items l1 = Json.sorted_items l2.
Proof.
  intros Hnd Hp. unfold Json.sorted_items.
  apply (StronglySorted_unique_strong Json.key_le).
  - intros x1 x2 H1 H2 H12 H21.
    apply (same_key_same_item l1); [done| | |].
    + apply list_elem_of_In. by rewrite <- (merge_sort_Permutation Json.key_le l1).
    + apply list_elem_of_In. rewrite Hp.
      by rewrite <- (merge_sort_Permutation Json.key_le l2).
    + unfold Json.key_le in *. by apply (anti_symm String.le).
  - apply StronglySorted_merge_sort; apply _.
  - apply StronglySorted_merge_sort; apply _.
  - by rewrite !merge_sort_Permutation.
Qed.
End CacheKey.

Lemma dumps_dict_perm (fr : Q → string) (p1 p2 : pydict) :
  NoDup (List.map fst p1) → p1 ≡ₚ p2 →
  Json.dumps fr (VDict p1) = Json.dumps fr (VDict p2).
Proof.
  intros Hnd Hp. cbn [Json.dumps]. do 4 f_equal.
  apply sorted_items_perm.
  - by rewrite List.map_map.
  - by apply Permutation_map.
Qed.

(** C6. For every endpoint and every two parameter dictionaries with the
    same bindings, in whatever order they were inserted, [_get_cache_key]
    yields the same key; the key is that of the bindings put in key
    order. *)
Theorem cache_key_order_independent (E : env) (endpoint : string)
    (p1 p2 : pydict) :
  NoDup (List.map fst p1) → p1 ≡ₚ p2 →
  _get_cache_key E endpoint p1 = _get_cache_key E endpoint p2
  ∧ _get_cache_key E endpoint p1
    = _get_cache_key E endpoint (Json.sorted_items p1).
Proof.
  intros Hnd Hp. unfold _get_cache_key. split.
  - by rewrite (dumps_dict_perm _ p1 p2).
  - rewrite (dumps_dict_perm _ p1 (Json.sorted_items p1)); [done..|].
    unfold Json.sorted_items. by rewrite merge_sort_Permutation.
Qed.

Lemma cache_key_order_independent_witness :
  _get_cache_key demo "/weather/current" [("a", VInt 1); ("b", VInt 2)]
  = _get_cache_key demo "/weather/current" [("b", VInt 2); ("a", VInt 1)].
Proof.
  apply (cache_key_order_independent demo "/weather/current"
           [("a", VInt 1); ("b", VInt 2)] [("b", VInt 2); ("a", VInt 1)]).
  - compute_done.
  - apply perm_swap.
Defined.

(** ** The cache *)

Lemma _get_from_cache_run (E : env) (key : string) (st : state) :
  _get_from_cache E key st =
  match _cache st !! key with
  | Some (data, timestamp) =>
      (Ok (if Qltb (clock E (time_reads st) - timestamp) _cache_ttl
           then Some data else None),
       (time E st).2)
  | None => (Ok None, st)
  end.
Proof.
  unfold _get_from_cache. destruct (_cache st !! key) as [[data ts]|]; [|done].
  rewrite bind_run. simpl. by destruct (Qltb _ _).
Qed.

(** C5. [_get_from_cache] returns the stored value exactly when the entry's
    age, now minus the time it was stored at, is below the time to live:
    a value stored at [t0] is returned unchanged at any time before
    [t0 + ttl], and a lookup at or after [t0 + ttl] returns nothing.  The
    lookup never raises and leaves the cache as it was. *)
Theorem cache_get_fresh_only (E : env) (key : string) (st : state) :
  let now := clock E (time_reads st) in
  let got := _get_from_cache E key st in
  (∀ v, got.1 = Ok (Some v) ↔
        ∃ t0, _cache st !! key = Some (v, t0) ∧ (now - t0 < _cache_ttl)%Q)
  ∧ (∀ v t0, _cache st !! key = Some (v, t0) →
       ((now < t0 + _cache_ttl)%Q → got.1 = Ok (Some v))
       ∧ ((t0 + _cache_ttl <= now)%Q → got.1 = Ok None))
  ∧ (_cache st !! key = None → got.1 = Ok None)
  ∧ (∃ r, got.1 = Ok r)
  ∧ _cache got.2 = _cache st.
Proof.
  intros now got.
  assert (Hval : got.1 = Ok (match _cache st !! key with
                             | Some (d, ts) =>
                                 if Qltb (now - ts) _cache_ttl
                                 then Some d else None
                             | None => None
                             end)).
  { subst got. rewrite _get_from_cache_run.
    by destruct (_cache st !! key) as [[d ts]|]. }
  assert (Hcache : _cache got.2 = _cache st).
  { subst got. rewrite _get_from_cache_run.
    by destruct (_cache st !! key) as [[d ts]|]. }
  split; [|split; [|split; [|split]]].
  - intros v. rewrite Hval.
    destruct (_cache st !! key) as [[d ts]|] eqn:Hk.
    + destruct (Qltb (now - ts) _cache_ttl) eqn:Hf.
      * split.
        -- intros [= <-]. exists ts. split; [done | by apply Qltb_lt].
        -- by intros (t0 & [= <- <-] & _).
      * split.
        -- intros [=].
        -- intros (t0 & [= <- <-] & Hlt). apply Qltb_lt in Hlt. congruence.
    + split; [intros [=] | intros (t0 & [=] & _)].
  - intros v t0 Hk. rewrite Hval, Hk. split.
    + intros Hlt. assert (Qltb (now - t0) _cache_ttl = true) as ->; [|done].
      apply Qltb_lt. unfold _cache_ttl in *. lra.
    + intros Hge. assert (Qltb (now - t0) _cache_ttl = false) as ->; [|done].
      apply Qltb_ge. unfold _cache_ttl in *. lra.
  - intros Hk. by rewrite Hval, Hk.
  - rewrite Hval. eauto.
  - done.
Qed.

Lemma cache_get_fresh_only_witness :
  (_get_from_cache demo "k"
     (set_cache {["k" := (VInt 7, 0%Q)]} initial)).1 = Ok (Some (VInt 7)).
Proof.
  apply (cache_get_fresh_only demo "k"
           (set_cache {["k" := (VInt 7, 0%Q)]} initial)).
  exists 0%Q. split; [reflexivity | reflexivity].
Defined.

Lemma _save_to_cache_run (E : env) (key : string) (v : pyval) (st : state) :
  _save_to_cache E key v st =
  (Ok tt,
   {| _cache :=
        filter (λ kv, (clock E (S (time_reads st)) - snd (snd kv)
                       < _cache_ttl)%Q)
               (<[key := (v, clock E (time_reads st))]> (_cache st));
      sent := sent st; time_reads := S (S (time_reads st));
      calls := calls st; fired := fired st |}).
Proof. reflexivity. Qed.

(** C7, as amended. Every [_save_to_cache key v] returns, having read the
    clock twice: first for the timestamp of the entry, then for the sweep.
    Whatever the two readings are, the sweep is done: every entry left in
    the cache is younger than the time to live at the second reading, an
    entry under another key that had reached it is gone, a younger one is
    kept as it was, and no other key appears.  The cache holds [v] under
    [key], with the timestamp read first, exactly when the two readings
    are less than the time to live apart; otherwise the entry just written
    is swept with the others and nothing is left under [key]. *)
Theorem cache_put_sweeps (E : env) (key : string) (v : pyval) (st : state) :
  let t := clock E (time_reads st) in
  let current_time := clock E (S (time_reads st)) in
  let run := _save_to_cache E key v st in
  run.1 = Ok tt
  ∧ time_reads run.2 = S (S (time_reads st))
  ∧ (∀ k d ts, _cache run.2 !! k = Some (d, ts) →
       (current_time - ts < _cache_ttl)%Q)
  ∧ (∀ k d ts, k ≠ key → _cache st !! k = Some (d, ts) →
       (_cache_ttl <= current_time - ts)%Q → _cache run.2 !! k = None)
  ∧ (∀ k d ts, k ≠ key → _cache st !! k = Some (d, ts) →
       (current_time - ts < _cache_ttl)%Q →
       _cache run.2 !! k = Some (d, ts))
  ∧ (∀ k, k ≠ key → _cache st !! k = None → _cache run.2 !! k = None)
  ∧ ((current_time - t < _cache_ttl)%Q → _cache run.2 !! key = Some (v, t))
  ∧ ((_cache_ttl <= current_time - t)%Q → _cache run.2 !! key = None).
Proof.
  intros t current_time run. subst run.
  rewrite _save_to_cache_run. cbn [fst snd _cache time_reads].
  fold t current_time.
  split; [done|]. split; [done|]. repeat split.
  - intros k d ts Hk. by apply map_lookup_filter_Some in Hk as [_ Hk].
  - intros k d ts Hne Hk Hold. apply map_lookup_filter_None. right.
    intros x Hx. rewrite lookup_insert_ne in Hx by done.
    simplify_eq. simpl. lra.
  - intros k d ts Hne Hk Hfresh. apply map_lookup_filter_Some.
    split; [by rewrite lookup_insert_ne | done].
  - intros k Hne Hk. apply map_lookup_filter_None. left.
    by rewrite lookup_insert_ne.
  - intros Hnow. apply map_lookup_filter_Some.
    split; [apply lookup_insert_eq | done].
  - intros Hlate. apply map_lookup_filter_None. right.
    intros x Hx. rewrite lookup_insert_eq in Hx.
    simplify_eq. simpl. lra.
Qed.

(** C7, counterexample. With five minutes between the two clock readings
    of one write, the entry just written has reached the time to live when
    the sweep runs, and is swept: the cache does not hold the value. *)
Lemma cache_put_swept_at_once :
  (_save_to_cache stalled "k" (VInt 7) initial).1 = Ok tt
  ∧ _cache (_save_to_cache stalled "k" (VInt 7) initial).2 !! "k" = None.
Proof. split; vm_compute; reflexivity. Qed.

Lemma cache_put_sweeps_witness :
  _cache (_save_to_cache demo "k" (VInt 7)
            (set_cache {["old" := (VInt 1, (-400)%Q)]} initial)).2 !! "k"
  = Some (VInt 7, 0%Q)
  ∧ _cache (_save_to_cache demo "k" (VInt 7)
              (set_cache {["old" := (VInt 1, (-400)%Q)]} initial)).2 !! "old"
    = None.
Proof.
  pose proof (cache_put_sweeps demo "k" (VInt 7)
                (set_cache {["old" := (VInt 1, (-400)%Q)]} initial))
    as (_ & _ & _ & Hgone & _ & _ & Hnew & _).
  split.
  - apply Hnew. reflexivity.
  - apply (Hgone "old" (VInt 1) (-400)%Q).
    + discriminate.
    + apply lookup_singleton_eq.
    + cbv. discriminate.
Defined.

(** ** Webhook signatures *)

Lemma hex_digit_ascii (n : Z) :
  0 <= n < 16 → Py.is_ascii_char (Bytes.hex_digit n) = true.
Proof.
  intros Hn.
  assert (Hcases : n = 0 ∨ n = 1 ∨ n = 2 ∨ n = 3 ∨ n = 4 ∨ n = 5 ∨ n = 6
                   ∨ n = 7 ∨ n = 8 ∨ n = 9 ∨ n = 10 ∨ n = 11 ∨ n = 12
                   ∨ n = 13 ∨ n = 14 ∨ n = 15) by lia.
  repeat (destruct Hcases as [->|Hcases]; [reflexivity|]).
  by subst n.
Qed.

Lemma hex_isascii (l : list Z) : Py.isascii (Bytes.hex l) = true.
Proof.
  induction l as [|b l IH]; [reflexivity|].
  cbn [Bytes.hex Py.isascii]. rewrite IH, !andb_true_r.
  rewrite !hex_digit_ascii; [reflexivity| |].
  - change 15 with (Z.ones 4). rewrite Z.land_ones by lia.
    apply Z.mod_pos_bound. lia.
  - rewrite Z.shiftr_div_pow2 by lia.
    pose proof (Z.mod_pos_bound b 256 ltac:(lia)).
    change (2 ^ 4) with 16. split.
    + apply Z.div_pos; lia.
    + apply Z.div_lt_upper_bound; lia.
Qed.

(** C3, as amended. [verify_webhook_signature] returns true exactly when
    the signature equals the hexadecimal HMAC-SHA256 digest of the payload
    under the secret; on an ASCII signature it returns whether the two are
    equal, so any ASCII signature other than the digest yields false; on a
    signature with a character outside ASCII it raises [TypeError]. *)
Theorem verify_webhook_signature_spec (payload : list byte)
    (signature secret : string) :
  let digest := HMAC.hexdigest (Py.encode secret) payload in
  let verdict := verify_webhook_signature payload signature secret in
  (verdict = Ok true ↔ signature = digest)
  ∧ (Py.isascii signature = true →
       verdict = Ok (bool_decide (signature = digest)))
  ∧ (Py.isascii signature = false → ∃ msg, verdict = Raise (TypeError msg)).
Proof.
  intros digest verdict. subst verdict.
  unfold verify_webhook_signature, compare_digest. fold digest.
  assert (Hd : Py.isascii digest = true) by apply hex_isascii.
  rewrite Hd. simpl. split; [|split].
  - destruct (Py.isascii signature) eqn:Ha; split.
    + intros [= Heq]. symmetry. by apply String.eqb_eq.
    + intros ->. by rewrite String.eqb_refl.
    + intros [=].
    + intros ->. congruence.
  - intros ->. f_equal. destruct (String.eqb_spec digest signature).
    + by rewrite bool_decide_eq_true_2.
    + by rewrite bool_decide_eq_false_2.
  - intros ->. eauto.
Qed.

Lemma verify_webhook_signature_spec_witness :
  verify_webhook_signature (Bytes.of_string "{}") "0123abcd" "secret"
  = Ok (bool_decide
          ("0123abcd"
           = HMAC.hexdigest (Py.encode "secret") (Bytes.of_string "{}"))).
Proof.
  refine (proj1 (proj2 (verify_webhook_signature_spec
                          (Bytes.of_string "{}") "0123abcd" "secret")) _).
  reflexivity.
Defined.

(** C3, counterexample. A signature that differs from the digest in one
    character does not yield false when that character is outside ASCII:
    the comparison raises. *)
Lemma verify_webhook_signature_non_ascii :
  mutated_signature
    ≠ HMAC.hexdigest (Py.encode "secret") (Bytes.of_string "{}")
  ∧ verify_webhook_signature (Bytes.of_string "{}") mutated_signature "secret"
    ≠ Ok false.
Proof.
  split.
  - intros H. vm_compute in H. discriminate H.
  - intros H. vm_compute in H. discriminate H.
Qed.

(** ** What a computation leaves alone

    [respects R m]: every run of [m] takes a state to an [R]-related one.
    With [R] a preorder this passes through sequencing, handlers, loops and
    retries, so it is enough to look at the few steps that touch the
    state. *)

Section Respects.
Context (R : relation state) `{!PreOrder R}.

Lemma respects_ret {A} (a : A) : respects R (mret a).
Proof. intros st. simpl. reflexivity. Qed.

Lemma respects_raise {A} (e : exn) : respects R (@raise A e).
Proof. intros st. simpl. reflexivity. Qed.

Lemma respects_lift {A} (r : result A) : respects R (lift r).
Proof. intros st. simpl. reflexivity. Qed.

Lemma respects_bind {A B} (m : M A) (f : A → M B) :
  respects R m → (∀ a, respects R (f a)) → respects R (m ≫= f).
Proof.
  intros Hm Hf st. rewrite bind_run. specialize (Hm st).
  destruct (m st) as [[a|e] st']; simpl in *; [|done].
  etrans; [exact Hm | apply Hf].
Qed.

Lemma respects_try {A} (m : M A) (h : string → M A) :
  respects R m → (∀ msg, respects R (h msg)) →
  respects R (try_except_WeatherAPIError m h).
Proof.
  intros Hm Hh st. unfold try_except_WeatherAPIError. specialize (Hm st).
  destruct (m st) as [[a|e] st']; simpl in *; [done|].
  destruct (as_WeatherAPIError e); [|done].
  etrans; [exact Hm | apply Hh].
Qed.

Lemma respects_for_each {A} (l : list A) (body : A → M unit) :
  (∀ x, respects R (body x)) → respects R (for_each l body).
Proof.
  intros Hb. induction l as [|x l IH]; simpl.
  - apply respects_ret.
  - apply respects_bind; [apply Hb | intros _; apply IH].
Qed.

(** Whatever follows a first step keeps the state related to the one the
    first step left. *)
Lemma respects_bind_after {A B} (m : M A) (f : A → M B) :
  (∀ a, respects R (f a)) → ∀ st, R (m st).2 ((m ≫= f) st).2.
Proof.
  intros Hf st. rewrite bind_run.
  destruct (m st) as [[a|e] st']; simpl; [apply Hf | reflexivity].
Qed.

Lemma respects_try_bind_after {A B} (m : M A) (f : A → M B)
    (h : string → M B) :
  (∀ a, respects R (f a)) → (∀ msg, respects R (h msg)) →
  ∀ st, R (m st).2 (try_except_WeatherAPIError (m ≫= f) h st).2.
Proof.
  intros Hf Hh st. unfold try_except_WeatherAPIError. rewrite bind_run.
  destruct (m st) as [[a|e] st']; simpl.
  - specialize (Hf a st'). destruct (f a st') as [[b|e] st'']; [done|].
    simpl in *. destruct (as_WeatherAPIError e); [|done].
    etrans; [exact Hf | apply Hh].
  - destruct (as_WeatherAPIError e); [apply Hh | reflexivity].
Qed.

Variable E : env.

Lemma respects_on_exception {A} (remaining tries : nat) (target : M A) :
  respects R target → respects R (on_exception E remaining tries target).
Proof.
  intros Ht. revert tries. induction remaining as [|n IH]; intros tries st.
  - simpl. specialize (Ht st). by destruct (target st) as [[a|e] st'].
  - simpl. specialize (Ht st). destruct (target st) as [[a|e] st']; [done|].
    destruct (retried e && _); [|done].
    etrans; [exact Ht | apply IH].
Qed.

(** The steps that touch the state. *)
Hypothesis respects_time : respects R (time E).
Hypothesis respects_set_cache :
  ∀ g, respects R (modify (λ st, set_cache (g st) st)).
Hypothesis respects_send : ∀ r, respects R (send E r).
Hypothesis respects_add_fired : ∀ l, respects R (modify (add_fired l)).

Lemma respects__get_from_cache (key : string) :
  respects R (_get_from_cache E key).
Proof.
  intros st. rewrite _get_from_cache_run.
  destruct (_cache st !! key) as [[d ts]|]; simpl; [|reflexivity].
  apply respects_time.
Qed.

Lemma respects__save_to_cache (key : string) (v : pyval) :
  respects R (_save_to_cache E key v).
Proof.
  unfold _save_to_cache.
  repeat (apply respects_bind; [|intros ?]);
    auto using respects_time, respects_set_cache.
Qed.

Lemma respects_check_status (endpoint : string) (r : response) :
  respects R (check_status E endpoint r).
Proof.
  unfold check_status, retry_after_seconds.
  repeat first
    [ apply respects_ret | apply respects_raise
    | apply respects_bind; [|intros ?]
    | match goal with
      | |- respects R (if ?b then _ else _) => destruct b
      | |- respects R (match ?x with _ => _ end) => destruct x
      end ].
Qed.

Lemma respects_parse (r : response) : respects R (parse E r).
Proof.
  unfold parse. destruct (json r); [apply respects_ret|].
  destruct (json_error_wrapped E); apply respects_raise.
Qed.

Lemma respects_receive (endpoint cache_key : string) (cacheable : bool)
    (outcome : net_outcome) :
  respects R (receive E endpoint cache_key cacheable outcome).
Proof.
  destruct outcome as [r|msg]; simpl; [|apply respects_raise].
  apply respects_bind; [apply respects_check_status|]. intros _.
  apply respects_bind; [apply respects_parse|]. intros v.
  apply respects_bind; [|intros _; apply respects_ret].
  destruct cacheable; [apply respects__save_to_cache | apply respects_ret].
Qed.

Lemma respects__make_request_once (method endpoint : string)
    (params data : option pydict) (use_cache : bool) :
  respects R (_make_request_once E method endpoint params data use_cache).
Proof.
  unfold _make_request_once.
  apply respects_bind.
  { destruct (_ && _); [apply respects__get_from_cache | apply respects_ret]. }
  intros cached. destruct (match cached with Some _ => _ | None => _ end).
  { apply respects_ret. }
  apply respects_bind; [apply respects_send|]. intros outcome.
  apply respects_receive.
Qed.

Lemma on_exception_after_first {A} (remaining tries : nat) (target : M A) :
  respects R target →
  ∀ st, R (target st).2 (on_exception E remaining tries target st).2.
Proof.
  intros Ht st. destruct remaining as [|n]; simpl.
  - by destruct (target st) as [[a|e] st'].
  - destruct (target st) as [[a|e] st']; [done|]. simpl.
    destruct (retried e && _); [|done].
    by apply respects_on_exception.
Qed.

Lemma respects__make_request (method endpoint : string)
    (params data : option pydict) (use_cache : bool) :
  respects R (_make_request E method endpoint params data use_cache).
Proof. apply respects_on_exception, respects__make_request_once. Qed.

Lemma respects_invoke (data : pyval) (callback : nat) :
  respects R (invoke E data callback).
Proof.
  unfold invoke. apply respects_bind; [apply respects_add_fired|].
  intros _. destruct (callback_raises _ _ _); apply respects_ret.
Qed.

Lemma respects_check_rule (m : monitor) (location : string)
    (current_data : pyval) (entry : string * threshold) :
  respects R (check_rule E m location current_data entry).
Proof.
  unfold check_rule, _trigger_callbacks. destruct entry as [key rule].
  repeat first
    [ apply respects_ret | apply respects_lift | apply respects_invoke
    | apply respects_bind; [|intros ?]
    | apply respects_for_each; intros ?
    | match goal with
      | |- respects R (if ?b then _ else _) => destruct b
      | |- respects R (match ?x with _ => _ end) => destruct x
      end ].
Qed.
End Respects.

#[local] Instance sent_grows_preorder : PreOrder sent_grows.
Proof.
  split.
  - intros st. unfold sent_grows. reflexivity.
  - intros a b c. unfold sent_grows. apply transitivity.
Qed.

Lemma sends_then (r : request) (st st1 st2 : state) :
  sends r st st1 → sent_grows st1 st2 → sends r st st2.
Proof.
  intros [more Hs] [k Hk]. exists (more ++ k).
  by rewrite Hk, Hs, <- !app_assoc.
Qed.

Section SentGrows.
Variable E : env.

Lemma sent_grows_time : respects sent_grows (time E).
Proof. intros st. unfold sent_grows. done. Qed.

Lemma sent_grows_set_cache g :
  respects sent_grows (modify (λ st, set_cache (g st) st)).
Proof. intros st. unfold sent_grows. done. Qed.

Lemma sent_grows_send r : respects sent_grows (send E r).
Proof. intros st. unfold sent_grows. simpl. by apply prefix_app_r. Qed.

Lemma sent_grows_add_fired l : respects sent_grows (modify (add_fired l)).
Proof. intros st. unfold sent_grows. done. Qed.

Lemma sent_grows_log_call c : respects sent_grows (log_call c).
Proof. intros st. unfold sent_grows. done. Qed.

Lemma sent_grows__make_request method endpoint params data use_cache :
  respects sent_grows (_make_request E method endpoint params data use_cache).
Proof.
  exact (respects__make_request sent_grows E sent_grows_time
           sent_grows_set_cache sent_grows_send _ _ _ _ _).
Qed.

(** A cacheable request that finds nothing under its key goes out. *)
Lemma _make_request_miss_sends (endpoint : string) (params : option pydict)
    (st : state) :
  _cache st !! _get_cache_key E endpoint (default [] params) = None →
  sends {| method := "GET"; endpoint := endpoint; params := params;
           body := None |}
    st (_make_request E "GET" endpoint params None true st).2.
Proof.
  intros Hmiss. unfold _make_request.
  set (target := _make_request_once E "GET" endpoint params None true).
  eapply sends_then;
    [|apply (on_exception_after_first sent_grows E);
      exact (respects__make_request_once sent_grows E sent_grows_time
               sent_grows_set_cache sent_grows_send _ _ _ _ _)].
  subst target. unfold _make_request_once.
  rewrite bind_run. simpl. rewrite _get_from_cache_run, Hmiss. simpl.
  rewrite bind_run. simpl.
  set (st1 := {| _cache := _cache st; sent := sent st ++ _;
                 time_reads := _; calls := _; fired := _ |}).
  eapply (sends_then _ st st1).
  - exists []. done.
  - exact (respects_receive sent_grows E sent_grows_time
             sent_grows_set_cache _ _ _ _ st1).
Qed.
End SentGrows.

(** ** Required location *)

Lemma log_call_run (c : api_call) (st : state) :
  log_call c st
  = (Ok tt, {| _cache := _cache st; sent := sent st;
               time_reads := time_reads st; calls := calls st ++ [c];
               fired := fired st |}).
Proof. reflexivity. Qed.

(** [get_current_weather] refuses a call with no usable place, having done
    nothing but being called. *)
Lemma get_current_weather_refuses (E : env) (location : option string)
    (lat lon : option pyfloat) (units : WeatherUnits) (lang : string)
    (st : state) :
  given_str location = false →
  (if given_float lat then given_float lon else false) = false →
  get_current_weather E location lat lon units lang st
  = (Raise (ValueError "Either location or coordinates required"),
     (log_call (CurrentWeather location lat lon) st).2).
Proof.
  intros Hl Hc. unfold get_current_weather.
  rewrite bind_run, log_call_run, Hl, Hc. reflexivity.
Qed.

(** C9. A call of [get_current_weather] with no named location and a
    latitude or longitude equal to 0 raises the validation error "Either
    location or coordinates required" before any request is sent: the
    check tests the truth value of the coordinates, and 0 is false. *)
Theorem get_current_weather_zero_coordinate (E : env)
    (location : option string) (lat lon : option pyfloat)
    (units : WeatherUnits) (lang : string) (st : state) :
  given_str location = false →
  (∃ f, (lat = Some f ∨ lon = Some f) ∧ Py.float_is_zero f = true) →
  let run := get_current_weather E location lat lon units lang st in
  run.1 = Raise (ValueError "Either location or coordinates required")
  ∧ sent run.2 = sent st
  ∧ _cache run.2 = _cache st.
Proof.
  intros Hl (f & Hf & Hz) run. subst run.
  rewrite get_current_weather_refuses; [done..|].
  destruct Hf as [-> | ->].
  - simpl. by rewrite Hz.
  - destruct (given_float lat); [|done]. simpl. by rewrite Hz.
Qed.

Lemma get_current_weather_zero_coordinate_witness :
  (get_current_weather demo None (Some (FFin 0)) (Some (FFin 0))
     METRIC "en" initial).1
  = Raise (ValueError "Either location or coordinates required").
Proof.
  refine (proj1 (get_current_weather_zero_coordinate demo None
                   (Some (FFin 0)) (Some (FFin 0)) METRIC "en" initial _ _)).
  - reflexivity.
  - exists (FFin 0). split; [by left | reflexivity].
Defined.

(** [get_current_weather] is the only one of the four to check: the
    validation holds there whenever no place is given. *)
Lemma get_current_weather_requires_place (E : env) (lat lon : option pyfloat)
    (units : WeatherUnits) (lang : string) (st : state) :
  lat = None ∨ lon = None →
  let run := get_current_weather E None lat lon units lang st in
  run.1 = Raise (ValueError "Either location or coordinates required")
  ∧ sent run.2 = sent st.
Proof.
  intros Hc run. subst run.
  rewrite get_current_weather_refuses; [done..|].
  destruct Hc as [-> | ->]; [done|]. by destruct (given_float lat).
Qed.

(** C1, the failing calls. Called on a new client with neither a location
    nor coordinates, [get_forecast], [get_historical_weather] and
    [get_alerts] raise nothing before the network: each sends its request,
    with [lat] and [lon] set to [None]. *)
Theorem place_not_required_elsewhere (E : env) (date : string) :
  sends (placeless "/weather/forecast"
           [("days", VInt 5); ("units", VStr "metric")])
    initial (get_forecast E None None None 5 METRIC initial).2
  ∧ sends (placeless "/weather/historical"
             [("date", VStr date); ("units", VStr "metric")])
      initial (get_historical_weather E date None None None METRIC initial).2
  ∧ sends (placeless "/weather/alerts" [])
      initial (get_alerts E None None None None initial).2.
Proof.
  split; [|split].
  - unfold get_forecast. rewrite bind_run, log_call_run. simpl.
    destruct (_make_request_miss_sends E "/weather/forecast"
                (Some [("days", VInt 5); ("units", VStr "metric");
                       ("lat", VNone); ("lon", VNone)])
                (log_call (Forecast None None None 5) initial).2)
      as [more Hs]; [apply lookup_empty|].
    exists more. exact Hs.
  - unfold get_historical_weather. rewrite bind_run, log_call_run. simpl.
    destruct (_make_request_miss_sends E "/weather/historical"
                (Some [("date", VStr date); ("units", VStr "metric");
                       ("lat", VNone); ("lon", VNone)])
                (log_call (Historical None None None) initial).2)
      as [more Hs]; [apply lookup_empty|].
    exists more. exact Hs.
  - unfold get_alerts. rewrite bind_run, log_call_run. simpl.
    destruct (_make_request_miss_sends E "/weather/alerts"
                (Some [("lat", VNone); ("lon", VNone)])
                (log_call (Alerts None None None) initial).2)
      as [more Hs]; [apply lookup_empty|].
    exists more. exact Hs.
Qed.

(** In the sample environment the forecast comes back as if nothing were
    missing. *)
Example get_forecast_without_place :
  (get_forecast demo None None None 5 METRIC initial).1
  = Ok (weather_report 31).
Proof. vm_compute. reflexivity. Qed.

Section RaisesOnly.
Context (P : exn → Prop).

Lemma raises_only_ret {A} (a : A) : raises_only P (mret a).
Proof. intros st e st' [=]. Qed.

Lemma raises_only_raise {A} (e : exn) : P e → raises_only P (@raise A e).
Proof. by intros He st e' st' [= <- _]. Qed.

Lemma raises_only_modify (f : state → state) : raises_only P (modify f).
Proof. intros st e st' [=]. Qed.

Lemma raises_only_bind {A B} (m : M A) (f : A → M B) :
  raises_only P m → (∀ a, raises_only P (f a)) → raises_only P (m ≫= f).
Proof.
  intros Hm Hf st e st'. rewrite bind_run.
  destruct (m st) as [[a|e0] st0] eqn:Hrun.
  - apply Hf.
  - intros [= <- _]. by eapply Hm.
Qed.

Lemma raises_only_on_exception (E : env) {A} (remaining tries : nat)
    (target : M A) :
  raises_only P target → raises_only P (on_exception E remaining tries target).
Proof.
  intros Ht. revert tries.
  induction remaining as [|n IH]; intros tries st e st'; simpl.
  - destruct (target st) as [[a|e0] st0] eqn:Hrun; [done|].
    intros [= <- _]. by eapply Ht.
  - destruct (target st) as [[a|e0] st0] eqn:Hrun; [done|].
    destruct (retried e0 && _).
    + apply IH.
    + intros [= <- _]. by eapply Ht.
Qed.
End RaisesOnly.

Section Tame.
Variable E : env.
Hypothesis tame_server : ∀ n r, tame E (session_request E n r).

Lemma receive_raises_WAE (endpoint cache_key : string) (cacheable : bool)
    (outcome : net_outcome) :
  tame E outcome →
  raises_only is_WAE (receive E endpoint cache_key cacheable outcome).
Proof.
  destruct outcome as [r|msg]; simpl.
  - intros [Hint Hjson].
    apply raises_only_bind; [|intros _; apply raises_only_bind].
    + unfold check_status, retry_after_seconds.
      destruct (status_code r =? 401); [by apply raises_only_raise|].
      destruct (status_code r =? 429).
      { apply raises_only_bind; [|intros n; by apply raises_only_raise].
        destruct (retry_after r) as [s|]; [|apply raises_only_ret].
        destruct (Hint s eq_refl) as [n ->]. apply raises_only_ret. }
      repeat (match goal with
              | |- raises_only _ (if ?b then _ else _) => destruct b
              end; [by apply raises_only_raise|]).
      apply raises_only_ret.
    + unfold parse. destruct (json r) as [v|msg]; [apply raises_only_ret|].
      rewrite (Hjson msg eq_refl). by apply raises_only_raise.
    + intros v. apply raises_only_bind; [|intros _; apply raises_only_ret].
      destruct cacheable; [|apply raises_only_ret].
      intros st e st'. by rewrite _save_to_cache_run.
  - intros _. by apply raises_only_raise.
Qed.

Lemma _make_request_raises_WAE (method endpoint : string)
    (params data : option pydict) (use_cache : bool) :
  raises_only is_WAE (_make_request E method endpoint params data use_cache).
Proof.
  apply raises_only_on_exception. unfold _make_request_once.
  apply raises_only_bind.
  { destruct (_ && _); [|apply raises_only_ret].
    intros st e st'. rewrite _get_from_cache_run.
    by destruct (_cache st !! _) as [[d ts]|]. }
  intros cached. destruct (match cached with Some _ => _ | None => _ end).
  { apply raises_only_ret. }
  intros st e st'. rewrite bind_run. simpl.
  apply receive_raises_WAE, tame_server.
Qed.

(** With a valid request type and non-empty location names, the call made
    for one location of a batch raises nothing but [WeatherAPIError]. *)
Lemma batch_call_raises_WAE (request_type location : string) :
  request_type = "current" ∨ request_type = "forecast" →
  location ≠ "" →
  raises_only is_WAE (batch_call E request_type location).
Proof.
  intros Hty Hloc. unfold batch_call.
  assert (Hgiven : given_str (Some location) = true).
  { simpl. apply negb_true_iff. by apply String.eqb_neq. }
  destruct Hty as [-> | ->]; simpl.
  - unfold get_current_weather.
    apply raises_only_bind; [apply raises_only_modify|]. intros _.
    rewrite Hgiven. simpl. apply _make_request_raises_WAE.
  - unfold get_forecast.
    apply raises_only_bind; [apply raises_only_modify|]. intros _.
    simpl. apply _make_request_raises_WAE.
Qed.
End Tame.

Lemma demo_tame (n : nat) (r : request) : tame demo (session_request demo n r).
Proof.
  simpl. unfold demo_server.
  destruct (params r ≫= Py.dict_get "city") as [[]|]; simpl;
    repeat match goal with
           | |- context [if ?b then _ else _] => destruct b; simpl
           end; try done; split; intros ? [=].
Qed.

(** ** Batch requests *)

Lemma dict_get_set_eq {A} (k : string) (v : A) (d : list (string * A)) :
  Py.dict_get k (Py.dict_set k v d) = Some v.
Proof.
  induction d as [|[k' v'] d IH]; simpl.
  - by rewrite String.eqb_refl.
  - destruct (String.eqb k' k) eqn:Hk; simpl; rewrite ?Hk, ?String.eqb_refl; done.
Qed.

Lemma dict_get_set_ne {A} (k k' : string) (v : A) (d : list (string * A)) :
  k ≠ k' → Py.dict_get k' (Py.dict_set k v d) = Py.dict_get k' d.
Proof.
  intros Hne. induction d as [|[k0 v0] d IH]; simpl.
  - by apply String.eqb_neq in Hne as ->.
  - destruct (String.eqb k0 k) eqn:Hk; simpl.
    + apply String.eqb_eq in Hk as ->.
      by apply String.eqb_neq in Hne as ->.
    + by rewrite IH.
Qed.

Lemma batch_step_run (E : env) (ty : string) (results : pydict)
    (l : string) (st : state) :
  batch_step E ty results l st =
  match batch_call E ty l st with
  | (Ok data, st') => (Ok (Py.dict_set l data results), st')
  | (Raise e, st') =>
      match as_WeatherAPIError e with
      | Some msg => (Ok (Py.dict_set l (error_marker msg) results), st')
      | None => (Raise e, st')
      end
  end.
Proof.
  unfold batch_step, try_except_WeatherAPIError. rewrite bind_run.
  destruct (batch_call E ty l st) as [[data|e] st']; [done|].
  by destruct (as_WeatherAPIError e).
Qed.

Lemma batch_loop_app (E : env) (ty : string) (l1 l2 : list string)
    (results : pydict) (st : state) :
  batch_loop E ty (l1 ++ l2) results st =
  match batch_loop E ty l1 results st with
  | (Ok results', st') => batch_loop E ty l2 results' st'
  | (Raise e, st') => (Raise e, st')
  end.
Proof.
  revert results st. induction l1 as [|l l1 IH]; intros results st; [done|].
  simpl. rewrite !bind_run.
  destruct (batch_step E ty results l st) as [[r|e] st']; [apply IH | done].
Qed.

Lemma batch_loop_total (E : env) (ty : string) (locations : list string) :
  (∀ l, l ∈ locations → raises_only is_WAE (batch_call E ty l)) →
  ∀ results st, ∃ results' st',
    batch_loop E ty locations results st = (Ok results', st')
    ∧ (∀ l, l ∈ locations →
         ∃ v, Py.dict_get l results' = Some v ∧ settled E ty l v)
    ∧ (∀ l, l ∉ locations → Py.dict_get l results' = Py.dict_get l results).
Proof.
  induction locations as [|l rest IH]; intros Hwae results st.
  - exists results, st. split; [done|]. split; [|done].
    intros l Hl. by apply elem_of_nil in Hl.
  - simpl. rewrite bind_run, batch_step_run.
    assert (Hstep : ∃ v st1,
               (match batch_call E ty l st with
                | (Ok data, st') => (Ok (Py.dict_set l data results), st')
                | (Raise e, st') =>
                    match as_WeatherAPIError e with
                    | Some msg =>
                        (Ok (Py.dict_set l (error_marker msg) results), st')
                    | None => (Raise e, st')
                    end
                end) = (Ok (Py.dict_set l v results), st1)
               ∧ settled E ty l v).
    { destruct (batch_call E ty l st) as [[data|e] st1] eqn:Hrun.
      - exists data, st1. split; [done|]. exists st. left. by rewrite Hrun.
      - assert (He : is_WAE e).
        { eapply Hwae; [by left | exact Hrun]. }
        unfold is_WAE, is_WeatherAPIError in He.
        destruct (as_WeatherAPIError e) as [msg|] eqn:Hmsg; [|done].
        exists (error_marker msg), st1. split; [done|].
        exists st. right. exists e, msg. by rewrite Hrun. }
    destruct Hstep as (v & st1 & -> & Hv).
    destruct (IH (λ l' Hl', Hwae l' (list_elem_of_further _ _ _ Hl'))
                (Py.dict_set l v results) st1)
      as (results' & st' & Hrun & Hin & Hout).
    exists results', st'. split; [done|]. split.
    + intros l' Hl'. destruct (decide (l' ∈ rest)) as [Hr|Hr]; [by apply Hin|].
      apply elem_of_cons in Hl' as [-> | Hl']; [|done].
      exists v. split; [|done]. by rewrite Hout, dict_get_set_eq.
    + intros l' Hl'. apply not_elem_of_cons in Hl' as [Hne Hl'].
      rewrite Hout by done. by apply dict_get_set_ne.
Qed.

(** C4, as amended. When every call made for a location either succeeds or
    fails with a [WeatherAPIError] (or a subclass of it),
    [batch_weather_request] returns without raising a dictionary that has,
    for every input location, the weather data of a call that succeeded or
    the error marker of one that failed; no location is left out. *)
Theorem batch_isolates_WeatherAPIError (E : env) (locations : list string)
    (request_type : string) (st : state) :
  (∀ l, l ∈ locations → raises_only is_WAE (batch_call E request_type l)) →
  ∃ results,
    (batch_weather_request E locations request_type st).1 = Ok results
    ∧ ∀ l, l ∈ locations →
        ∃ v, Py.dict_get l results = Some v ∧ settled E request_type l v.
Proof.
  intros Hwae. unfold batch_weather_request.
  destruct (batch_loop_total E request_type locations Hwae [] st)
    as (results & st' & Hrun & Hin & _).
  exists results. by rewrite Hrun.
Qed.

Lemma batch_isolates_WeatherAPIError_witness :
  ∃ results,
    (batch_weather_request demo ["London"; "Paris"] "current" initial).1
    = Ok results
    ∧ ∀ l, l ∈ ["London"; "Paris"] →
        ∃ v, Py.dict_get l results = Some v ∧ settled demo "current" l v.
Proof.
  apply (batch_isolates_WeatherAPIError demo ["London"; "Paris"] "current"
           initial).
  intros l Hl. apply batch_call_raises_WAE.
  - apply demo_tame.
  - by left.
  - intros ->. apply elem_of_cons in Hl as [[=] | Hl].
    apply elem_of_cons in Hl as [[=] | Hl]. by apply elem_of_nil in Hl.
Defined.

(** In the sample environment: London's weather, Paris marked as failed. *)
Example batch_london_paris :
  (batch_weather_request demo ["London"; "Paris"] "current" initial).1
  = Ok [("London", weather_report 31);
        ("Paris", error_marker "Resource not found: /weather/current")].
Proof. vm_compute. reflexivity. Qed.

(** C4, counterexample. London's call succeeds and the call for the empty
    location name fails, with a [ValueError]: the batch raises it, and
    nothing is returned for London. *)
Lemma batch_aborted_by_ValueError :
  (batch_call demo "current" "London" initial).1 = Ok (weather_report 31)
  ∧ (batch_weather_request demo ["London"; ""] "current" initial).1
    = Raise (ValueError "Either location or coordinates required").
Proof. split; vm_compute; reflexivity. Qed.

(** C10. [batch_weather_request] turns only [WeatherAPIError] and its
    subclasses into per-location error markers.  With a non-empty list and a
    request type other than "current" and "forecast" the [ValueError]
    reaches the caller; and when the call for a location raises any
    exception that is not a [WeatherAPIError], that exception reaches the
    caller at once: the locations after it are not called and the results
    collected before it are not returned. *)
Theorem batch_propagates_other_exceptions (E : env) :
  (∀ locations ty st,
      locations ≠ [] → ty ≠ "current" → ty ≠ "forecast" →
      batch_weather_request E locations ty st
      = (Raise (ValueError ("Invalid request type: " +:+ ty)), st))
  ∧ (∀ ty before l after st results st1 e st2,
      batch_weather_request E before ty st = (Ok results, st1) →
      batch_call E ty l st1 = (Raise e, st2) →
      is_WeatherAPIError e = false →
      batch_weather_request E (before ++ l :: after) ty st = (Raise e, st2))
  ∧ (∀ ty results l st e st',
      batch_call E ty l st = (Raise e, st') →
      is_WeatherAPIError e = true →
      ∃ msg, as_WeatherAPIError e = Some msg
             ∧ batch_step E ty results l st
               = (Ok (Py.dict_set l (error_marker msg) results), st')).
Proof.
  split; [|split].
  - intros locations ty st Hne Hc Hf.
    destruct locations as [|l rest]; [done|].
    unfold batch_weather_request. simpl.
    rewrite bind_run, batch_step_run. unfold batch_call.
    apply String.eqb_neq in Hc, Hf. by rewrite Hc, Hf.
  - intros ty before l after st results st1 e st2 Hbefore Hcall He.
    unfold batch_weather_request in *. rewrite batch_loop_app, Hbefore.
    simpl. rewrite bind_run, batch_step_run, Hcall.
    unfold is_WeatherAPIError in He.
    by destruct (as_WeatherAPIError e).
  - intros ty results l st e st' Hcall He.
    unfold is_WeatherAPIError in He.
    destruct (as_WeatherAPIError e) as [msg|] eqn:Hmsg; [|done].
    exists msg. split; [done|]. by rewrite batch_step_run, Hcall, Hmsg.
Qed.

Lemma batch_propagates_other_exceptions_witness :
  (batch_weather_request demo (["London"] ++ "" :: ["Paris"]) "current"
     initial).1
  = Raise (ValueError "Either location or coordinates required").
Proof.
  pose proof (proj1 (proj2 (batch_propagates_other_exceptions demo))
                "current" ["London"] "" ["Paris"] initial) as H.
  erewrite H; [reflexivity| | |].
  - vm_compute. reflexivity.
  - vm_compute. reflexivity.
  - reflexivity.
Defined.

(** ** Threshold keys *)

Lemma colon_free_cons (c : ascii) (s : string) :
  colon_free (String c s) → c ≠ ":"%char ∧ colon_free s.
Proof.
  unfold colon_free. cbn [Py.str_contains String.prefix].
  destruct (ascii_dec ":" c) as [<-|Hne]; [by destruct s|].
  intros H. split; [congruence | done].
Qed.

Lemma append_cons (c : ascii) (s t : string) :
  String c s +:+ t = String c (s +:+ t).
Proof. reflexivity. Qed.

Lemma append_nil (t : string) : "" +:+ t = t.
Proof. reflexivity. Qed.

(** The key of a rule starts with [location:] exactly when the rule is one
    of that location, provided location names have no colon. *)
Lemma key_startswith (location location' parameter : string) :
  colon_free location → colon_free location' →
  Py.startswith (location' +:+ ":" +:+ parameter) (location +:+ ":")
  = String.eqb location' location.
Proof.
  unfold Py.startswith. revert location'.
  induction location as [|a l IH]; intros [|c l'] Hl Hl';
    rewrite ?append_cons, ?append_nil; cbn [String.prefix String.eqb].
  - by destruct (ascii_dec ":" ":"); [destruct parameter|].
  - apply colon_free_cons in Hl' as [Hc _].
    by destruct (ascii_dec ":" c) as [<-|_].
  - apply colon_free_cons in Hl as [Ha _].
    by destruct (ascii_dec a ":") as [->|_].
  - apply colon_free_cons in Hl as [_ Hl].
    apply colon_free_cons in Hl' as [_ Hl'].
    destruct (ascii_dec a c) as [->|Hne].
    + rewrite Ascii.eqb_refl. by apply IH.
    + symmetry. assert (c ≠ a) as Hne' by congruence.
      by apply Ascii.eqb_neq in Hne' as ->.
Qed.

(** [set_threshold] files every rule under its own key. *)
Lemma set_threshold_well_keyed (parameter operator : string) (value : pyval)
    (location : string) (m : monitor) :
  well_keyed m → well_keyed (set_threshold parameter operator value location m).
Proof.
  unfold well_keyed, set_threshold. simpl.
  generalize (thresholds m) as d. intros d Hd.
  induction Hd as [|[k r] d Hk Hd IH]; simpl.
  - by repeat constructor.
  - destruct (String.eqb k _); constructor; done.
Qed.

Lemma new_monitor_well_keyed : well_keyed new_monitor.
Proof. constructor. Qed.

Lemma on_threshold_exceeded_well_keyed (callback : nat) (m : monitor) :
  well_keyed m → well_keyed (on_threshold_exceeded callback m).
Proof. done. Qed.

(** Registering a rule for a location without a colon keeps the locations
    plain. *)
Lemma set_threshold_plain (parameter operator : string) (value : pyval)
    (location : string) (m : monitor) :
  colon_free location → plain_locations m →
  plain_locations (set_threshold parameter operator value location m).
Proof.
  unfold plain_locations, set_threshold. simpl.
  generalize (thresholds m) as d. intros d Hl Hd.
  induction Hd as [|[k r] d Hk Hd IH]; simpl.
  - by repeat constructor.
  - destruct (String.eqb k _); constructor; done.
Qed.

(** ** Evaluating the rules *)

Lemma _check_condition_holds (v thr : pyval) (operator : string) (b : bool) :
  _check_condition v operator thr = Ok b →
  comparison_holds operator v thr = b.
Proof.
  unfold _check_condition, comparison_holds, operators. cbn [Py.dict_get].
  rewrite !(String.eqb_sym operator).
  repeat match goal with
         | |- context [String.eqb ?k operator] =>
             destruct (String.eqb k operator)
         end;
    cbv beta iota; unfold Cmp.gt, Cmp.lt, Cmp.ge, Cmp.le, Cmp.ne, Cmp.rich;
    try destruct (Cmp.order v thr);
    intros H; first [discriminate H | by injection H as <-].
Qed.

Lemma _check_condition_invalid (v thr : pyval) (operator : string) :
  operator ∉ [">"; "<"; ">="; "<="; "=="; "!="] →
  _check_condition v operator thr
  = Raise (ValueError ("Invalid operator: " +:+ operator)).
Proof.
  intros Hop. unfold _check_condition, operators. cbn [Py.dict_get].
  repeat match goal with
         | |- context [String.eqb ?k operator] =>
             destruct (String.eqb_spec k operator) as [<-|_];
               [exfalso; apply Hop; set_solver|]
         end.
  done.
Qed.

Lemma add_fired_nil (st : state) : add_fired [] st = st.
Proof. destruct st. unfold add_fired. simpl. by rewrite app_nil_r. Qed.

Lemma add_fired_app (l1 l2 : list (nat * pyval)) (st : state) :
  add_fired l2 (add_fired l1 st) = add_fired (l1 ++ l2) st.
Proof. unfold add_fired. simpl. by rewrite app_assoc. Qed.

(** Whether the callback raises or not, it was called and the loop goes
    on. *)
Lemma invoke_run (E : env) (data : pyval) (c : nat) (st : state) :
  invoke E data c st = (Ok tt, add_fired [(c, data)] st).
Proof.
  unfold invoke. rewrite bind_run. unfold modify.
  by destruct (callback_raises E c data).
Qed.

Lemma invoke_all_run (E : env) (data : pyval) (registered : list nat)
    (st : state) :
  for_each registered (invoke E data) st
  = (Ok tt, add_fired (List.map (λ c, (c, data)) registered) st).
Proof.
  revert st. induction registered as [|c l IH]; intros st; simpl.
  - by rewrite add_fired_nil.
  - by rewrite bind_run, invoke_run, IH, add_fired_app.
Qed.

Lemma _trigger_callbacks_run (E : env) (m : monitor) (data : pyval)
    (st : state) :
  _trigger_callbacks E m "threshold_exceeded" data st
  = (Ok tt, add_fired (List.map (λ c, (c, data)) (subscribers m)) st).
Proof.
  unfold _trigger_callbacks, subscribers.
  destruct (Py.dict_get _ _) as [registered|]; simpl.
  - apply invoke_all_run.
  - by rewrite add_fired_nil.
Qed.

(** One rule, evaluated against the [current] block: the code fires what
    is due for it. *)
Lemma check_rule_run (E : env) (m : monitor) (location : string)
    (current : pydict) (key : string) (rule : threshold) (st : state) :
  key = th_location rule +:+ ":" +:+ th_parameter rule →
  colon_free (th_location rule) → colon_free location →
  (∀ v, th_location rule = location →
        Py.dict_get (th_parameter rule) current = Some v →
        ∃ b, _check_condition v (th_operator rule) (th_value rule) = Ok b) →
  check_rule E m location (VDict current) (key, rule) st
  = (Ok tt, add_fired (due_for_rule m location current rule) st).
Proof.
  intros -> Hr Hl Hok. unfold check_rule, due_for_rule.
  rewrite key_startswith by done.
  destruct (String.eqb_spec (th_location rule) location) as [Heq|Hne];
    cbn [negb]; [|by rewrite add_fired_nil].
  rewrite bind_run. unfold lift at 1, contains.
  destruct (Py.dict_get (th_parameter rule) current) as [v|] eqn:Hv.
  - rewrite bool_decide_eq_true_2 by eauto.
    rewrite bind_run. unfold lift at 1, getitem. rewrite Hv.
    destruct (Hok v Heq eq_refl) as [b Hb].
    rewrite bind_run. unfold lift.
    rewrite Hb, (_check_condition_holds _ _ _ _ Hb).
    destruct b; [apply _trigger_callbacks_run|].
    by rewrite add_fired_nil.
  - rewrite bool_decide_eq_false_2 by (by intros [? [=]]).
    by rewrite add_fired_nil.
Qed.

Lemma check_rules_run (E : env) (m : monitor) (location : string)
    (current : pydict) (rules : list (string * threshold)) (st : state) :
  Forall (λ kv, fst kv = th_location (snd kv) +:+ ":"
                           +:+ th_parameter (snd kv)) rules →
  Forall (λ kv, colon_free (th_location (snd kv))) rules →
  colon_free location →
  (∀ kv v, kv ∈ rules → th_location (snd kv) = location →
           Py.dict_get (th_parameter (snd kv)) current = Some v →
           ∃ b, _check_condition v (th_operator (snd kv))
                  (th_value (snd kv)) = Ok b) →
  for_each rules (check_rule E m location (VDict current)) st
  = (Ok tt,
     add_fired
       (flat_map (λ kv, due_for_rule m location current (snd kv)) rules) st).
Proof.
  intros Hkeys Hplain Hl. revert st.
  induction rules as [|[key rule] rules IH]; intros st Hok;
    cbn [for_each flat_map snd].
  - by rewrite add_fired_nil.
  - apply Forall_cons in Hkeys as [Hkey Hkeys].
    apply Forall_cons in Hplain as [Hrule Hplain].
    rewrite bind_run, (check_rule_run E m location current key rule st);
      [|done..|].
    + rewrite IH; [by rewrite add_fired_app|done..|].
      intros kv v Hin. apply Hok. by right.
    + intros v. apply (Hok (key, rule)). by left.
Qed.

#[local] Instance same_calls_preorder : PreOrder same_calls.
Proof.
  split.
  - by intros st.
  - intros a b c. unfold same_calls. congruence.
Qed.

Section Monitoring.
Variable E : env.

Lemma same_calls_time : respects same_calls (time E).
Proof. by intros st. Qed.

Lemma same_calls_set_cache g :
  respects same_calls (modify (λ st, set_cache (g st) st)).
Proof. by intros st. Qed.

Lemma same_calls_send r : respects same_calls (send E r).
Proof. by intros st. Qed.

Lemma same_calls_add_fired l : respects same_calls (modify (add_fired l)).
Proof. by intros st. Qed.

(** Each call of [get_current_weather] is logged once, whatever comes of
    it. *)
Lemma get_current_weather_calls (location : option string)
    (lat lon : option pyfloat) (units : WeatherUnits) (lang : string)
    (st : state) :
  calls (get_current_weather E location lat lon units lang st).2
  = calls st ++ [CurrentWeather location lat lon].
Proof.
  unfold get_current_weather.
  rewrite <- (respects_bind_after same_calls
                (log_call (CurrentWeather location lat lon)) _).
  - done.
  - intros _. destruct (_ && _); [apply respects_raise; apply _|].
    exact (respects__make_request same_calls E same_calls_time
             same_calls_set_cache same_calls_send _ _ _ _ _).
Qed.

Lemma respects_rules_loop (R : relation state) `{!PreOrder R}
    (m : monitor) (location : string) (weather : pyval) :
  (∀ l, respects R (modify (add_fired l))) →
  respects R (rules_loop E m location weather).
Proof.
  intros Hf. unfold rules_loop.
  apply respects_bind; [done | apply respects_lift; done |].
  intros cd. apply respects_for_each; [done|]. intros entry.
  by apply respects_check_rule.
Qed.

Lemma check_location_calls (m : monitor) (location : string) (st : state) :
  calls (check_location E m location st).2
  = calls st ++ [CurrentWeather (Some location) None None].
Proof.
  unfold check_location.
  rewrite <- (respects_try_bind_after same_calls
                (get_current_weather E (Some location) None None METRIC "en")
                (rules_loop E m location) (λ _, mret tt)).
  - apply get_current_weather_calls.
  - intros weather. apply respects_rules_loop; [apply _|].
    apply same_calls_add_fired.
  - intros _. apply respects_ret; apply _.
Qed.

Lemma check_locations_calls (m : monitor) (locations : list string)
    (st st' : state) :
  for_each locations (check_location E m) st = (Ok tt, st') →
  calls st'
  = calls st ++ List.map (λ l, CurrentWeather (Some l) None None) locations.
Proof.
  revert st. induction locations as [|l rest IH]; intros st; simpl.
  - intros [= <-]. by rewrite app_nil_r.
  - rewrite bind_run. pose proof (check_location_calls m l st) as Hl.
    destruct (check_location E m l st) as [[[]|e] st1]; [|done].
    intros Hrest. rewrite (IH _ Hrest). simpl in Hl.
    by rewrite Hl, <- app_assoc.
Qed.

(** The locations iterated over are the distinct locations of the rules. *)
Lemma monitored_locations_distinct (m : monitor) :
  (∀ l, set_iter E l ≡ₚ l) →
  NoDup (monitored_locations E m)
  ∧ ∀ location,
      location ∈ monitored_locations E m
      ↔ ∃ kv, kv ∈ thresholds m ∧ th_location (snd kv) = location.
Proof.
  intros Hperm. unfold monitored_locations. split.
  - rewrite Hperm. apply NoDup_remove_dups.
  - intros location.
    rewrite Hperm, elem_of_remove_dups, list_elem_of_In, in_map_iff.
    split; intros (kv & H1 & H2); exists kv.
    + by rewrite list_elem_of_In.
    + by rewrite <- list_elem_of_In.
Qed.

(** A location whose weather came back: its rules are evaluated in order,
    and what is due is fired. *)
Lemma check_location_run (m : monitor) (location : string) (st : state)
    (weather : pyval) (st1 : state) (current : pydict) :
  well_keyed m → plain_locations m → colon_free location →
  get_current_weather E (Some location) None None METRIC "en" st
  = (Ok weather, st1) →
  getitem weather "current" = Ok (VDict current) →
  (∀ kv v, kv ∈ thresholds m → th_location (snd kv) = location →
           Py.dict_get (th_parameter (snd kv)) current = Some v →
           ∃ b, _check_condition v (th_operator (snd kv))
                  (th_value (snd kv)) = Ok b) →
  check_location E m location st
  = (Ok tt, add_fired (due_callbacks m location current) st1).
Proof.
  intros Hkeys Hplain Hl Hfetch Hcur Hok.
  unfold check_location. unfold try_except_WeatherAPIError.
  rewrite bind_run, Hfetch. unfold rules_loop.
  rewrite bind_run. unfold lift at 1. rewrite Hcur.
  by rewrite check_rules_run.
Qed.

(** A location whose weather could not be had is passed over. *)
Lemma check_location_skipped (m : monitor) (location : string) (st : state)
    (e : exn) (st1 : state) :
  get_current_weather E (Some location) None None METRIC "en" st
  = (Raise e, st1) →
  is_WeatherAPIError e = true →
  check_location E m location st = (Ok tt, st1).
Proof.
  intros Hfetch He. unfold check_location.
  unfold try_except_WeatherAPIError. rewrite bind_run, Hfetch.
  unfold is_WeatherAPIError in He. by destruct (as_WeatherAPIError e).
Qed.

(** On a client with an empty cache, a call of [get_current_weather] for a
    named location sends its request. *)
Lemma get_current_weather_sends (location : string) (st : state) :
  location ≠ "" → _cache st = ∅ →
  ∃ r, endpoint r = "/weather/current"
       ∧ sends r st
           (get_current_weather E (Some location) None None METRIC "en" st).2.
Proof.
  intros Hloc Hempty.
  assert (Hgiven : given_str (Some location) = true).
  { simpl. apply negb_true_iff. by apply String.eqb_neq. }
  unfold get_current_weather. rewrite bind_run, log_call_run, Hgiven.
  cbn [negb andb].
  set (st1 := {| _cache := _cache st; sent := sent st;
                 time_reads := time_reads st; calls := _;
                 fired := fired st |}).
  destruct (_make_request_miss_sends E "/weather/current"
              (Some (with_place (Some location) None None
                       [("units", VStr (WeatherUnits_value METRIC));
                        ("lang", VStr "en")])) st1) as [more Hs].
  { subst st1. cbn [_cache]. rewrite Hempty. apply lookup_empty. }
  eexists. split; [|exists more; exact Hs]. reflexivity.
Qed.

(** So does checking that location, before any rule is looked at. *)
Lemma check_location_sends (m : monitor) (location : string) (st : state) :
  location ≠ "" → _cache st = ∅ →
  ∃ r, endpoint r = "/weather/current"
       ∧ sends r st (check_location E m location st).2.
Proof.
  intros Hloc Hempty.
  destruct (get_current_weather_sends location st Hloc Hempty)
    as (r & Hr & Hsends).
  exists r. split; [done|]. eapply sends_then; [exact Hsends|].
  unfold check_location.
  apply (respects_try_bind_after sent_grows).
  - intros weather. apply respects_rules_loop; [apply _|].
    apply sent_grows_add_fired.
  - intros _. apply respects_ret; apply _.
Qed.

Lemma check_location_refuses_unnamed (m : monitor) (st : state) :
  (check_location E m "" st).1
  = Raise (ValueError "Either location or coordinates required").
Proof.
  unfold check_location. unfold try_except_WeatherAPIError.
  rewrite bind_run, get_current_weather_refuses; done.
Qed.

Lemma respects_check_location (m : monitor) (location : string) :
  respects sent_grows (check_location E m location).
Proof.
  unfold check_location. apply respects_try; [apply _| |].
  - apply respects_bind; [apply _| |].
    + unfold get_current_weather.
      apply respects_bind; [apply _|apply sent_grows_log_call|]. intros _.
      destruct (_ && _); [apply respects_raise; apply _|].
      apply sent_grows__make_request.
    + intros weather. apply respects_rules_loop; [apply _|].
      apply sent_grows_add_fired.
  - intros _. apply respects_ret; apply _.
Qed.

(** Whatever [check_thresholds] raises on a client with an empty cache, if
    it is not the refusal of an unnamed location, a request was sent
    first. *)
Lemma check_locations_raise_after_send (m : monitor)
    (locations : list string) (st : state) (e : exn) (st' : state) :
  _cache st = ∅ →
  for_each locations (check_location E m) st = (Raise e, st') →
  e ≠ ValueError "Either location or coordinates required" →
  ∃ r, endpoint r = "/weather/current" ∧ sends r st st'.
Proof.
  intros Hempty Hrun He. destruct locations as [|l rest]; [done|].
  destruct (decide (l = "")) as [->|Hl].
  - exfalso. simpl in Hrun. rewrite bind_run in Hrun.
    pose proof (check_location_refuses_unnamed m st) as Hr.
    destruct (check_location E m "" st) as [[[]|e0] st1]; [done|].
    simpl in Hr. congruence.
  - destruct (check_location_sends m l st Hl Hempty) as (r & Hr & Hsends).
    exists r. split; [done|]. eapply sends_then; [exact Hsends|].
    replace st' with (for_each (l :: rest) (check_location E m) st).2
      by (by rewrite Hrun).
    cbn [for_each]. apply (respects_bind_after sent_grows).
    intros _. apply respects_for_each; [apply _|].
    apply respects_check_location.
Qed.
End Monitoring.

(** ** Checking thresholds *)

(** *** Going through the locations *)

Lemma for_each_app {A} (l1 l2 : list A) (body : A → M unit) (st : state) :
  for_each (l1 ++ l2) body st
  = match for_each l1 body st with
    | (Ok _, st') => for_each l2 body st'
    | (Raise e, st') => (Raise e, st')
    end.
Proof.
  revert st. induction l1 as [|x l1 IH]; intros st; [done|].
  cbn [app for_each]. rewrite !bind_run.
  destruct (body x st) as [[[]|e] st1]; [apply IH | done].
Qed.

(** An exception that leaves the check of one location leaves the whole
    check: the locations after it are not visited. *)
Lemma check_locations_stop (E : env) (m : monitor) (before : list string)
    (location : string) (after : list string) (st st0 : state) (e : exn)
    (st1 : state) :
  reaches E m st before st0 →
  check_location E m location st0 = (Raise e, st1) →
  for_each (before ++ location :: after) (check_location E m) st
  = (Raise e, st1).
Proof.
  unfold reaches. intros Hreach Hraise.
  rewrite for_each_app, Hreach. cbn [for_each].
  by rewrite bind_run, Hraise.
Qed.

Lemma reaches_next (E : env) (m : monitor) (before : list string)
    (location : string) (st st0 st1 : state) :
  reaches E m st before st0 →
  check_location E m location st0 = (Ok tt, st1) →
  reaches E m st (before ++ [location]) st1.
Proof.
  unfold reaches. intros Hreach Hnext.
  rewrite for_each_app, Hreach. cbn [for_each].
  by rewrite bind_run, Hnext.
Qed.

#[local] Instance same_fired_preorder : PreOrder same_fired.
Proof.
  split.
  - by intros st.
  - intros a b c. unfold same_fired. congruence.
Qed.

(** Asking for the weather calls no callback. *)
Lemma fetch_fired (E : env) (location : string) (st : state) :
  fired (fetch E location st).2 = fired st.
Proof.
  symmetry. revert st. change (respects same_fired (fetch E location)).
  unfold fetch, get_current_weather.
  apply respects_bind; [apply _ | by intros st |]. intros _.
  destruct (_ && _); [apply respects_raise; apply _|].
  exact (respects__make_request same_fired E (λ st, eq_refl)
           (λ g st, eq_refl) (λ r st, eq_refl) _ _ _ _ _).
Qed.

(** What evaluating a rule can raise is never a [WeatherAPIError], so the
    handler of [check_thresholds] does not catch it. *)
Lemma _check_condition_raises (v thr : pyval) (operator : string) (e : exn) :
  _check_condition v operator thr = Raise e → as_WeatherAPIError e = None.
Proof.
  unfold _check_condition, operators. cbn [Py.dict_get].
  repeat match goal with
         | |- context [String.eqb ?k operator] =>
             destruct (String.eqb k operator)
         end;
    cbv beta iota; unfold Cmp.gt, Cmp.lt, Cmp.ge, Cmp.le, Cmp.rich;
    try destruct (Cmp.order v thr);
    intros H; first [discriminate H | by injection H as <-].
Qed.

Lemma getitem_raises (obj : pyval) (key : string) (e : exn) :
  getitem obj key = Raise e → as_WeatherAPIError e = None.
Proof.
  unfold getitem. destruct obj; try (by intros [= <-]).
  destruct (Py.dict_get key d); [done | by intros [= <-]].
Qed.

(** A rule of the location whose parameter is present and whose comparison
    raises. *)
Lemma check_rule_raises (E : env) (m : monitor) (location : string)
    (current : pydict) (key : string) (rule : threshold) (st : state)
    (v : pyval) (e : exn) :
  key = th_location rule +:+ ":" +:+ th_parameter rule →
  colon_free location → th_location rule = location →
  Py.dict_get (th_parameter rule) current = Some v →
  _check_condition v (th_operator rule) (th_value rule) = Raise e →
  check_rule E m location (VDict current) (key, rule) st = (Raise e, st).
Proof.
  intros -> Hl Hloc Hv Hraise. unfold check_rule.
  rewrite Hloc, key_startswith, String.eqb_refl by done. cbn [negb].
  rewrite bind_run. unfold lift at 1, contains. rewrite Hv.
  rewrite bool_decide_eq_true_2 by eauto.
  rewrite bind_run. unfold lift at 1, getitem. rewrite Hv.
  rewrite bind_run. unfold lift. by rewrite Hraise.
Qed.

(** The rules before the one that raises have fired what was due for
    them; the rules after it are not looked at. *)
Lemma check_location_raising_rule (E : env) (m : monitor)
    (location : string) (st : state) (weather : pyval) (st1 : state)
    (current : pydict) (earlier : list (string * threshold)) (key : string)
    (rule : threshold) (later : list (string * threshold)) (v : pyval)
    (e : exn) :
  well_keyed m → plain_locations m →
  fetch E location st = (Ok weather, st1) →
  getitem weather "current" = Ok (VDict current) →
  thresholds m = earlier ++ (key, rule) :: later →
  evaluable earlier location current →
  th_location rule = location →
  Py.dict_get (th_parameter rule) current = Some v →
  _check_condition v (th_operator rule) (th_value rule) = Raise e →
  check_location E m location st
  = (Raise e,
     add_fired
       (flat_map (λ kv, due_for_rule m location current (snd kv)) earlier)
       st1).
Proof.
  unfold well_keyed, plain_locations, fetch.
  intros Hkeys Hplain Hfetch Hcur Hsplit Hearlier Hloc Hv Hraise.
  rewrite Hsplit in Hkeys, Hplain.
  apply Forall_app in Hkeys as [Hkeys1 [Hkey _]%Forall_cons].
  apply Forall_app in Hplain as [Hplain1 [Hrule _]%Forall_cons].
  cbn [fst snd] in Hkey, Hrule.
  assert (Hl : colon_free location) by (by rewrite <- Hloc).
  unfold check_location, try_except_WeatherAPIError.
  rewrite bind_run, Hfetch. unfold rules_loop.
  rewrite bind_run. unfold lift at 1. rewrite Hcur, Hsplit.
  rewrite for_each_app, (check_rules_run E m location current earlier st1)
    by done.
  cbn [for_each]. rewrite bind_run.
  rewrite (check_rule_raises E m location current key rule _ v e) by done.
  by rewrite (_check_condition_raises _ _ _ _ Hraise).
Qed.

(** The locations that are left, when each of them is answered as
    [reading] says at the time the check comes to it. *)
Lemma check_locations_fire (E : env) (m : monitor) (st : state)
    (reading : string → option pydict) :
  well_keyed m → plain_locations m →
  ∀ todo before st0,
    Forall colon_free todo →
    reaches E m st before st0 →
    (∀ before' location after st0',
       before ++ todo = before' ++ location :: after →
       reaches E m st before' st0' →
       answered E m location st0' (reading location)) →
    ∃ st',
      for_each todo (check_location E m) st0 = (Ok tt, st')
      ∧ fired st'
        = fired st0 ++ flat_map (λ l, due_at m l (reading l)) todo.
Proof.
  intros Hkeys Hplain.
  induction todo as [|l rest IH]; intros before st0 Hcolon Hreach Hans.
  - exists st0. split; [done|]. by rewrite app_nil_r.
  - apply Forall_cons in Hcolon as [Hl Hcolon].
    assert (∃ st2, check_location E m l st0 = (Ok tt, st2)
                   ∧ fired st2 = fired st0 ++ due_at m l (reading l))
      as (st2 & Hl2 & Hfired).
    { pose proof (Hans before l rest st0 eq_refl Hreach) as Hhere.
      unfold answered in Hhere.
      destruct (reading l) as [current|]; cbn [due_at].
      - destruct Hhere as (weather & st1 & Hfetch & Hcur & Heval).
        exists (add_fired (due_callbacks m l current) st1). split.
        + by apply (check_location_run E m l st0 weather st1 current).
        + cbn [fired add_fired].
          by rewrite <- (fetch_fired E l st0), Hfetch.
      - destruct Hhere as (e & st1 & Hfetch & Hwae).
        exists st1. split.
        + by apply (check_location_skipped E m l st0 e st1).
        + by rewrite app_nil_r, <- (fetch_fired E l st0), Hfetch. }
    destruct (IH (before ++ [l]) st2 Hcolon
                (reaches_next E m before l st st0 st2 Hreach Hl2))
      as (st' & Hrest & Hfired').
    { intros before' location after st0' Hsplit.
      apply (Hans before' location after st0').
      by rewrite <- Hsplit, <- app_assoc. }
    exists st'. cbn [for_each flat_map]. rewrite bind_run, Hl2.
    split; [done|]. by rewrite Hfired', Hfired, <- app_assoc.
Qed.

(** *** The whole check *)

(** C8, as amended. For a monitor built by [set_threshold] whose location
    names contain no colon, and a check started in any state:
    [check_thresholds] goes through the distinct monitored locations, and
    when it returns it has called [get_current_weather] once for each of
    them.  When every location, at the time the check comes to it, is
    answered with a weather that has a [current] block against which its
    rules can be evaluated (each operator is one of the six and each
    observed value can be compared with its threshold), or fails with a
    [WeatherAPIError], then [check_thresholds] returns, and the callbacks
    it has called are, location after location and rule after rule: for
    a rule whose parameter is present and whose comparison holds, every
    registered callback once with the payload (location, parameter,
    observed value, threshold, operator); for a rule whose comparison does
    not hold or whose parameter is absent, none; for a location that
    failed, none.  Any other exception ends the check at the location
    where it is raised, the locations after it not being visited: an
    exception of the call that is not a [WeatherAPIError], the error of an
    answer without [current], and what the comparison of a rule raises, in
    which case the callbacks of the earlier rules of the location have
    been called and those of the later rules have not. *)
Theorem check_thresholds_fires_due_callbacks (E : env) (m : monitor)
    (st : state) :
  let locations := monitored_locations E m in
  well_keyed m → plain_locations m → (∀ l, set_iter E l ≡ₚ l) →
  (NoDup locations
   ∧ ∀ location,
       location ∈ locations
       ↔ ∃ kv, kv ∈ thresholds m ∧ th_location (snd kv) = location)
  ∧ (∀ st',
       check_thresholds E m st = (Ok tt, st') →
       calls st'
       = calls st
         ++ List.map (λ l, CurrentWeather (Some l) None None) locations)
  ∧ (∀ reading,
       (∀ before location after st0,
          locations = before ++ location :: after →
          reaches E m st before st0 →
          answered E m location st0 (reading location)) →
       ∃ st',
         check_thresholds E m st = (Ok tt, st')
         ∧ fired st'
           = fired st ++ flat_map (λ l, due_at m l (reading l)) locations)
  ∧ (∀ before location after st0,
       locations = before ++ location :: after →
       reaches E m st before st0 →
       (∀ e st1,
          fetch E location st0 = (Raise e, st1) →
          is_WeatherAPIError e = false →
          check_thresholds E m st = (Raise e, st1))
       ∧ (∀ weather st1 e,
            fetch E location st0 = (Ok weather, st1) →
            getitem weather "current" = Raise e →
            check_thresholds E m st = (Raise e, st1))
       ∧ (∀ weather st1 current earlier key rule later v e,
            fetch E location st0 = (Ok weather, st1) →
            getitem weather "current" = Ok (VDict current) →
            thresholds m = earlier ++ (key, rule) :: later →
            evaluable earlier location current →
            th_location rule = location →
            Py.dict_get (th_parameter rule) current = Some v →
            _check_condition v (th_operator rule) (th_value rule)
            = Raise e →
            check_thresholds E m st
            = (Raise e,
               add_fired
                 (flat_map
                    (λ kv, due_for_rule m location current (snd kv))
                    earlier)
                 st1))).
Proof.
  intros locations Hkeys Hplain Hperm.
  destruct (monitored_locations_distinct E m Hperm) as [Hnd Hin].
  fold locations in Hnd, Hin. unfold check_thresholds. fold locations.
  split; [done|]. split; [|split].
  - intros st'. apply check_locations_calls.
  - intros reading Hans.
    apply (check_locations_fire E m st reading Hkeys Hplain locations []);
      [|done|done].
    apply Forall_forall. intros l Hl.
    apply Hin in Hl as (kv & Hkv & <-).
    unfold plain_locations in Hplain. rewrite Forall_forall in Hplain.
    by apply Hplain.
  - intros before location after st0 -> Hreach. repeat split.
    + intros e st1 Hfetch He.
      apply (check_locations_stop E m before location after st st0);
        [done|].
      unfold fetch in Hfetch.
      unfold check_location, try_except_WeatherAPIError.
      rewrite bind_run, Hfetch. unfold is_WeatherAPIError in He.
      by destruct (as_WeatherAPIError e).
    + intros weather st1 e Hfetch Hcur.
      apply (check_locations_stop E m before location after st st0);
        [done|].
      unfold fetch in Hfetch.
      unfold check_location, try_except_WeatherAPIError.
      rewrite bind_run, Hfetch. unfold rules_loop.
      rewrite bind_run. unfold lift at 1. rewrite Hcur.
      by rewrite (getitem_raises _ _ _ Hcur).
    + intros weather st1 current earlier key rule later v e Hfetch Hcur
        Hsplit Hearlier Hloc Hv Hraise.
      apply (check_locations_stop E m before location after st st0);
        [done|].
      by apply (check_location_raising_rule E m location st0 weather st1
                  current earlier key rule later v e).
Qed.

Lemma check_thresholds_fires_due_callbacks_witness :
  ∃ st',
    check_thresholds demo two_city_monitor initial = (Ok tt, st')
    ∧ fired st'
      = fired initial
        ++ flat_map (λ l, due_at two_city_monitor l (sample_reading l))
             (monitored_locations demo two_city_monitor).
Proof.
  refine (proj1 (proj2 (proj2 (check_thresholds_fires_due_callbacks demo
                                 two_city_monitor initial _ _ _)))
            sample_reading _).
  - repeat constructor.
  - repeat constructor.
  - intros l. reflexivity.
  - intros before location after st0 Hsplit Hreach.
    change (monitored_locations demo two_city_monitor)
      with ["X"; "Paris"] in Hsplit.
    destruct before as [|b [|b' before]].
    + injection Hsplit as <- <-. injection Hreach as <-.
      exists (weather_report 31), (fetch demo "X" initial).2.
      split; [vm_compute; reflexivity|]. split; [reflexivity|].
      intros kv v Hkv Hloc Hv.
      apply list_elem_of_In in Hkv as [<-|[<-|[]]]; [|discriminate Hloc].
      injection Hv as <-. by exists true.
    + injection Hsplit as <- <- <-.
      assert (st0 = (check_location demo two_city_monitor "X" initial).2)
        as -> by (unfold reaches in Hreach; cbn [for_each] in Hreach;
                  rewrite bind_run in Hreach;
                  destruct (check_location demo two_city_monitor "X" initial)
                    as [[[]|e] s]; [by injection Hreach as -> | done]).
      exists (WeatherAPIError "Resource not found: /weather/current"),
        (fetch demo "Paris"
           (check_location demo two_city_monitor "X" initial).2).2.
      split; [vm_compute; reflexivity | reflexivity].
    + injection Hsplit as _ _ Hrest. by destruct before.
Defined.

(** The rule of the specification's example: 31 degrees fires callback 7
    once, 29 degrees fires nothing. *)
Example threshold_31_fires :
  fired (check_thresholds demo (hot_monitor "X") initial).2
  = [(7%nat, event_payload "X" (VInt 31)
               {| th_operator := ">"; th_value := VInt 30;
                  th_parameter := "temperature"; th_location := "X" |})].
Proof. vm_compute. reflexivity. Qed.

Example threshold_29_silent :
  check_thresholds demo (hot_monitor "Nome") initial
  = (Ok tt, (check_thresholds demo (hot_monitor "Nome") initial).2)
  ∧ fired (check_thresholds demo (hot_monitor "Nome") initial).2 = [].
Proof. split; vm_compute; reflexivity. Qed.

(** C8, counterexample. Two rules for Lima, and the weather of Lima with
    both parameters present: the temperature rule's comparison holds
    (31 > 30), so callback 7 is due once; but the humidity rule, evaluated
    first, meets a humidity given in words, the comparison raises
    [TypeError], the check ends there, and no callback is invoked. *)
Lemma check_thresholds_stops_at_raising_rule :
  let run := check_thresholds demo humidity_monitor initial in
  let temperature_rule :=
    {| th_operator := ">"; th_value := VInt 30;
       th_parameter := "temperature"; th_location := "Lima" |} in
  (get_current_weather demo (Some "Lima") None None METRIC "en" initial).1
  = Ok misty_report
  ∧ getitem misty_report "current"
    = Ok (VDict [("humidity", VStr "high"); ("temperature", VInt 31)])
  ∧ due_for_rule humidity_monitor "Lima"
      [("humidity", VStr "high"); ("temperature", VInt 31)] temperature_rule
    = [(7%nat, event_payload "Lima" (VInt 31) temperature_rule)]
  ∧ run.1 = Raise (TypeError
                     "'>' not supported between instances of 'str' and 'int'")
  ∧ fired run.2 = [].
Proof. repeat split; vm_compute; reflexivity. Qed.

(** The same happens when a rule was registered with an operator that is
    not one of the six. *)
Example check_thresholds_stops_at_invalid_operator :
  let run := check_thresholds demo mistyped_monitor initial in
  comparison_holds ">" (VInt 31) (VInt 30) = true
  ∧ run.1 = Raise (ValueError "Invalid operator: =>")
  ∧ fired run.2 = [].
Proof. repeat split; vm_compute; reflexivity. Qed.

(** Outside the theorem's premises: with a colon in a location name, the
    rule of "Nome:1" is taken for a rule of Nome, since its key starts with
    "Nome:", and it fires on Nome's 29 degrees although nothing is due for
    either location. *)
Example colon_in_location_name_crosses_rules :
  due_callbacks colon_monitor "Nome"
    [("temperature", VInt 29); ("humidity", VInt 40)] = []
  ∧ due_callbacks colon_monitor "Nome:1"
      [("temperature", VInt 31); ("humidity", VInt 40)] = []
  ∧ fired (check_thresholds demo colon_monitor initial).2
    = [(7%nat,
        VDict [("location", VStr "Nome"); ("parameter", VStr "temperature");
               ("value", VInt 29); ("threshold", VInt 30);
               ("operator", VStr "<")])].
Proof. repeat split; vm_compute; reflexivity. Qed.

(** C2, as amended. [set_threshold] stores a rule whatever its operator;
    the [ValueError] for an operator that is not one of the six is raised
    by [_check_condition], when [check_thresholds] evaluates the rule; and
    on a client whose cache is empty, [check_thresholds] raises it only
    after the request for the current weather has been sent. *)
Theorem invalid_operator_rejected_on_evaluation (E : env) :
  (∀ parameter operator value location m,
      Py.dict_get (location +:+ ":" +:+ parameter)
        (thresholds (set_threshold parameter operator value location m))
      = Some {| th_operator := operator; th_value := value;
                th_parameter := parameter; th_location := location |})
  ∧ (∀ v operator thr,
      operator ∉ [">"; "<"; ">="; "<="; "=="; "!="] →
      _check_condition v operator thr
      = Raise (ValueError ("Invalid operator: " +:+ operator)))
  ∧ (∀ m st operator st',
      _cache st = ∅ →
      check_thresholds E m st
      = (Raise (ValueError ("Invalid operator: " +:+ operator)), st') →
      ∃ r, endpoint r = "/weather/current" ∧ sends r st st').
Proof.
  split; [|split].
  - intros. apply dict_get_set_eq.
  - intros v operator thr. apply _check_condition_invalid.
  - intros m st operator st' Hempty Hrun.
    apply (check_locations_raise_after_send E m _ st _ st' Hempty Hrun).
    rewrite append_cons. intros [=].
Qed.

Lemma invalid_operator_rejected_on_evaluation_witness :
  ∃ r, endpoint r = "/weather/current"
       ∧ sends r initial
           (check_thresholds demo
              (set_threshold "temperature" "~" (VInt 30) "X" new_monitor)
              initial).2.
Proof.
  apply (proj2 (proj2 (invalid_operator_rejected_on_evaluation demo))
           (set_threshold "temperature" "~" (VInt 30) "X" new_monitor)
           initial "~").
  - reflexivity.
  - vm_compute. reflexivity.
Defined.

(** C2, counterexample. The rule with operator "~" is registered without
    complaint; when the monitor checks it, the request for the weather of X
    has gone out by the time the [ValueError] is raised. *)
Lemma invalid_operator_raised_after_request :
  let m := set_threshold "temperature" "~" (VInt 30) "X" new_monitor in
  let run := check_thresholds demo m initial in
  List.map (λ kv, th_operator (snd kv)) (thresholds m) = ["~"]
  ∧ run.1 = Raise (ValueError "Invalid operator: ~")
  ∧ sent run.2 = [current_weather_request "X"].
Proof. repeat split; vm_compute; reflexivity. Qed.


(** * Further properties *)

(** ** One try of a request *)

Lemma check_status_pure (E : env) (endpoint : string) (r : response)
    (st : state) :
  (check_status E endpoint r st).2 = st.
Proof.
  unfold check_status, retry_after_seconds.
  repeat match goal with
         | |- context [if ?b then _ else _] => destruct b
         end; try reflexivity.
  rewrite bind_run. destruct (retry_after r) as [s|]; [|reflexivity].
  by destruct (builtin_int E s).
Qed.

Lemma check_status_passes (E : env) (endpoint : string) (r : response)
    (st : state) :
  passes r → check_status E endpoint r st = (Ok tt, st).
Proof.
  unfold passes, check_status. intros Hs.
  destruct (Z.eqb_spec (status_code r) 401); [lia|].
  destruct (Z.eqb_spec (status_code r) 429); [lia|].
  destruct (Z.eqb_spec (status_code r) 404); [lia|].
  destruct (Z.leb_spec 500 (status_code r)); [lia|].
  destruct (Z.leb_spec 400 (status_code r)); [lia|].
  reflexivity.
Qed.

Lemma parse_pure (E : env) (r : response) (st : state) :
  (parse E r st).2 = st.
Proof.
  unfold parse. destruct (json r); [reflexivity|].
  by destruct (json_error_wrapped E).
Qed.

(** A try that finds nothing under its key sends the request and goes on
    with the answer. *)
Lemma _make_request_once_miss (E : env) (method endpoint : string)
    (params data : option pydict) (use_cache : bool) (st : state) :
  misses E endpoint params st →
  _make_request_once E method endpoint params data use_cache st
  = receive E endpoint (_get_cache_key E endpoint (default [] params))
      (String.eqb method "GET" && use_cache)
      (session_request E (length (sent st))
         {| method := method; endpoint := endpoint; params := params;
            body := data |})
      (add_sent [{| method := method; endpoint := endpoint;
                    params := params; body := data |}] st).
Proof.
  unfold misses. intros Hmiss. unfold _make_request_once.
  rewrite bind_run.
  destruct (String.eqb method "GET" && use_cache).
  - rewrite _get_from_cache_run, Hmiss. reflexivity.
  - reflexivity.
Qed.

(** A try that may not use the cache does the same without looking. *)
Lemma _make_request_once_direct (E : env) (method endpoint : string)
    (params data : option pydict) (use_cache : bool) (st : state) :
  String.eqb method "GET" && use_cache = false →
  _make_request_once E method endpoint params data use_cache st
  = receive E endpoint (_get_cache_key E endpoint (default [] params))
      false
      (session_request E (length (sent st))
         {| method := method; endpoint := endpoint; params := params;
            body := data |})
      (add_sent [{| method := method; endpoint := endpoint;
                    params := params; body := data |}] st).
Proof.
  intros Hun. unfold _make_request_once. rewrite bind_run, Hun.
  reflexivity.
Qed.

(** A first try that returns is the whole call. *)
Lemma on_exception_returns (E : env) {A} (remaining tries : nat)
    (target : M A) (st : state) (a : A) (st' : state) :
  target st = (Ok a, st') →
  on_exception E remaining tries target st = (Ok a, st').
Proof. intros H. destruct remaining; simpl; by rewrite H. Qed.

(** A try that raises anything but [RateLimitError] is the whole call. *)
Lemma on_exception_gives_up (E : env) {A} (remaining tries : nat)
    (target : M A) (st : state) (e : exn) (st' : state) :
  target st = (Raise e, st') → retried e = false →
  on_exception E remaining tries target st = (Raise e, st').
Proof. intros H He. destruct remaining; simpl; by rewrite H, ?He. Qed.

Lemma on_exception_again (E : env) {A} (remaining tries : nat)
    (target : M A) (st : state) (e : exn) (st' : state) :
  target st = (Raise e, st') → retried e = true →
  (backoff_elapsed E tries < max_time)%Q →
  on_exception E (S remaining) tries target st
  = on_exception E remaining (S tries) target st'.
Proof.
  intros H He Ht. simpl. rewrite H, He.
  assert (Qle_bool max_time (backoff_elapsed E tries) = false) as ->; [|done].
  destruct (Qle_bool _ _) eqn:Hb; [|done].
  apply Qle_bool_iff in Hb. exfalso. exact (Qlt_not_le _ _ Ht Hb).
Qed.

Lemma _make_request_once_fetch (E : env) (endpoint : string)
    (params : option pydict) (st : state) (r : response) (v : pyval) :
  misses E endpoint params st →
  session_request E (length (sent st))
    {| method := "GET"; endpoint := endpoint; params := params;
       body := None |} = Responds r →
  passes r → json r = Json v →
  _make_request_once E "GET" endpoint params None true st
  = (Ok v,
     {| _cache :=
          filter (λ kv, (clock E (S (time_reads st)) - snd (snd kv)
                         < _cache_ttl)%Q)
            (<[_get_cache_key E endpoint (default [] params)
               := (v, clock E (time_reads st))]> (_cache st));
        sent := sent st ++ [{| method := "GET"; endpoint := endpoint;
                               params := params; body := None |}];
        time_reads := S (S (time_reads st));
        calls := calls st; fired := fired st |}).
Proof.
  intros Hmiss Hanswer Hpass Hjson.
  rewrite _make_request_once_miss by done. rewrite Hanswer.
  cbn [receive String.eqb Ascii.eqb Bool.eqb andb].
  rewrite bind_run, check_status_passes by done.
  unfold parse. rewrite Hjson. reflexivity.
Qed.

Lemma _make_request_fetch (E : env) (endpoint : string)
    (params : option pydict) (st : state) (r : response) (v : pyval) :
  misses E endpoint params st →
  session_request E (length (sent st))
    {| method := "GET"; endpoint := endpoint; params := params;
       body := None |} = Responds r →
  passes r → json r = Json v →
  _make_request E "GET" endpoint params None true st
  = (Ok v,
     {| _cache :=
          filter (λ kv, (clock E (S (time_reads st)) - snd (snd kv)
                         < _cache_ttl)%Q)
            (<[_get_cache_key E endpoint (default [] params)
               := (v, clock E (time_reads st))]> (_cache st));
        sent := sent st ++ [{| method := "GET"; endpoint := endpoint;
                               params := params; body := None |}];
        time_reads := S (S (time_reads st));
        calls := calls st; fired := fired st |}).
Proof.
  intros Hmiss Hanswer Hpass Hjson. unfold _make_request.
  by apply on_exception_returns, (_make_request_once_fetch E _ _ _ r).
Qed.

Lemma _make_request_hit (E : env) (endpoint : string)
    (params data : option pydict) (st : state) (d : pyval) (ts : Q) :
  _cache st !! _get_cache_key E endpoint (default [] params) = Some (d, ts) →
  (clock E (time_reads st) - ts < _cache_ttl)%Q →
  Py.truthy d = true →
  _make_request E "GET" endpoint params data true st
  = (Ok d, (time E st).2).
Proof.
  intros Hk Hfresh Htrue. unfold _make_request.
  apply on_exception_returns. unfold _make_request_once.
  rewrite bind_run. cbn [String.eqb Ascii.eqb Bool.eqb andb].
  rewrite _get_from_cache_run, Hk.
  apply Qltb_lt in Hfresh. rewrite Hfresh. cbn [default].
  by rewrite Htrue.
Qed.

(** ** Answers and the cache *)

(** X1. A GET that finds nothing under its key and is answered with a
    status below 400 and a JSON body returns the body, has sent exactly that
    one request, and (the two clock readings of the write being less than
    the time to live apart) leaves the body in the cache under the key of
    the request, stamped with the time of the write. *)
Theorem fetch_returns_and_caches (E : env) (endpoint : string)
    (params : option pydict) (st : state) (r : response) (v : pyval) :
  let request := {| method := "GET"; endpoint := endpoint; params := params;
                    body := None |} in
  let run := _make_request E "GET" endpoint params None true st in
  misses E endpoint params st →
  session_request E (length (sent st)) request = Responds r →
  passes r → json r = Json v →
  run.1 = Ok v
  ∧ sent run.2 = sent st ++ [request]
  ∧ ((clock E (S (time_reads st)) - clock E (time_reads st) < _cache_ttl)%Q →
     _cache run.2 !! _get_cache_key E endpoint (default [] params)
     = Some (v, clock E (time_reads st))).
Proof.
  intros request run Hmiss Hanswer Hpass Hjson. subst run.
  rewrite (_make_request_fetch E endpoint params st r v) by done.
  split; [done|]. split; [done|]. intros Hgap. cbn [snd _cache].
  apply map_lookup_filter_Some. split; [apply lookup_insert_eq | done].
Qed.

Lemma fetch_returns_and_caches_witness :
  (_make_request demo "GET" "/weather/current"
     (Some [("city", VStr "X")]) None true initial).1
  = Ok (weather_report 31).
Proof.
  refine (proj1 (fetch_returns_and_caches demo "/weather/current"
                   (Some [("city", VStr "X")]) initial
                   {| status_code := 200; retry_after := None;
                      http_error := ""; json := Json (weather_report 31) |}
                   (weather_report 31) _ _ _ _)).
  - apply lookup_empty.
  - reflexivity.
  - reflexivity.
  - reflexivity.
Defined.

(** X2. A GET whose key has an entry younger than the time to live, with a
    value that is true in a boolean test, returns that value and sends
    nothing; the cache is as it was. *)
Theorem cached_answer_without_network (E : env) (endpoint : string)
    (params data : option pydict) (st : state) (d : pyval) (ts : Q) :
  let run := _make_request E "GET" endpoint params data true st in
  _cache st !! _get_cache_key E endpoint (default [] params) = Some (d, ts) →
  (clock E (time_reads st) - ts < _cache_ttl)%Q →
  Py.truthy d = true →
  run.1 = Ok d ∧ sent run.2 = sent st ∧ _cache run.2 = _cache st.
Proof.
  intros run Hk Hfresh Htrue. subst run.
  by rewrite (_make_request_hit E endpoint params data st d ts).
Qed.

Lemma cached_answer_without_network_witness :
  (_make_request demo "GET" "/weather/current" None None true
     (set_cache {[_get_cache_key demo "/weather/current" []
                  := (weather_report 7, 0%Q)]} initial)).1
  = Ok (weather_report 7).
Proof.
  refine (proj1 (cached_answer_without_network demo "/weather/current"
                   None None _ (weather_report 7) 0%Q _ _ _)).
  - apply lookup_singleton_eq.
  - reflexivity.
  - reflexivity.
Defined.

(** X3. The same GET made twice: when the first is answered with a status
    below 400 and a JSON body that is true in a boolean test, and the clock
    readings of the write and of the second lookup are within the time to
    live of the write's timestamp, the second call returns the same body
    and no second request is sent. *)
Theorem second_request_served_from_cache (E : env) (endpoint : string)
    (params : option pydict) (st : state) (r : response) (v : pyval) :
  let request := {| method := "GET"; endpoint := endpoint; params := params;
                    body := None |} in
  let first := _make_request E "GET" endpoint params None true st in
  let second := _make_request E "GET" endpoint params None true first.2 in
  let t0 := clock E (time_reads st) in
  misses E endpoint params st →
  session_request E (length (sent st)) request = Responds r →
  passes r → json r = Json v → Py.truthy v = true →
  (clock E (S (time_reads st)) - t0 < _cache_ttl)%Q →
  (clock E (S (S (time_reads st))) - t0 < _cache_ttl)%Q →
  first.1 = Ok v ∧ second.1 = Ok v ∧ sent second.2 = sent st ++ [request].
Proof.
  intros request first second t0 Hmiss Hanswer Hpass Hjson Htrue Hgap Hnow.
  subst first second.
  rewrite (_make_request_fetch E endpoint params st r v) by done.
  split; [done|]. cbn [snd].
  rewrite (_make_request_hit E endpoint params None _ v t0); [done| |done..].
  cbn [_cache]. apply map_lookup_filter_Some.
  split; [apply lookup_insert_eq | done].
Qed.

Lemma second_request_served_from_cache_witness :
  sent (_make_request demo "GET" "/weather/current"
          (Some [("city", VStr "X")]) None true
          (_make_request demo "GET" "/weather/current"
             (Some [("city", VStr "X")]) None true initial).2).2
  = [] ++ [{| method := "GET"; endpoint := "/weather/current";
              params := Some [("city", VStr "X")]; body := None |}].
Proof.
  refine (proj2 (proj2 (second_request_served_from_cache demo
                          "/weather/current" (Some [("city", VStr "X")])
                          initial
                          {| status_code := 200; retry_after := None;
                             http_error := "";
                             json := Json (weather_report 31) |}
                          (weather_report 31) _ _ _ _ _ _ _))).
  - apply lookup_empty.
  - reflexivity.
  - reflexivity.
  - reflexivity.
  - reflexivity.
  - reflexivity.
  - reflexivity.
Defined.

(** X4. A GET goes to the network whenever the cache has no usable entry
    for it: none under its key, one that has reached the time to live, or
    one whose value is false in a boolean test (an empty dict or list, for
    instance: such an answer is stored, but never served). *)
Theorem request_sent_without_usable_entry (E : env) (endpoint : string)
    (params data : option pydict) (st : state) :
  let request := {| method := "GET"; endpoint := endpoint; params := params;
                    body := data |} in
  (∀ d ts,
     _cache st !! _get_cache_key E endpoint (default [] params)
     = Some (d, ts) →
     (clock E (time_reads st) - ts < _cache_ttl)%Q →
     Py.truthy d = false) →
  sends request st (_make_request E "GET" endpoint params data true st).2.
Proof.
  intros request Hno. unfold _make_request.
  eapply sends_then;
    [|apply (on_exception_after_first sent_grows E);
      exact (respects__make_request_once sent_grows E (sent_grows_time E)
               (sent_grows_set_cache) (sent_grows_send E) _ _ _ _ _)].
  unfold _make_request_once. rewrite bind_run.
  cbn [String.eqb Ascii.eqb Bool.eqb andb].
  rewrite _get_from_cache_run.
  destruct (_cache st !! _) as [[d ts]|] eqn:Hk.
  - assert (Hskip : match (if Qltb (clock E (time_reads st) - ts) _cache_ttl
                           then Some d else None) with
                    | Some d0 => Py.truthy d0
                    | None => false
                    end = false).
    { destruct (Qltb _ _) eqn:Hf; [|done].
      apply Qltb_lt in Hf. by apply (Hno d ts). }
    rewrite Hskip. rewrite bind_run. cbn [send fst snd].
    eapply (sends_then _ st
              (add_sent [request] (time E st).2)).
    + exists []. reflexivity.
    + exact (respects_receive sent_grows E (sent_grows_time E)
               sent_grows_set_cache _ _ _ _ _).
  - rewrite bind_run. cbn [send fst snd].
    eapply (sends_then _ st (add_sent [request] st)).
    + exists []. reflexivity.
    + exact (respects_receive sent_grows E (sent_grows_time E)
               sent_grows_set_cache _ _ _ _ _).
Qed.

Lemma request_sent_without_usable_entry_witness :
  sends {| method := "GET"; endpoint := "/webhooks"; params := None;
           body := None |}
    (set_cache {[_get_cache_key demo "/webhooks" [] := (VDict [], 0%Q)]}
       initial)
    (_make_request demo "GET" "/webhooks" None None true
       (set_cache {[_get_cache_key demo "/webhooks" [] := (VDict [], 0%Q)]}
          initial)).2.
Proof.
  apply (request_sent_without_usable_entry demo "/webhooks" None None).
  intros d ts Hk _. cbn [set_cache _cache default] in Hk.
  rewrite lookup_singleton_eq in Hk. by injection Hk as <- _.
Defined.

(** ** Refusals and retries *)

Lemma receive_refused (E : env) (endpoint cache_key : string)
    (cacheable : bool) (r : response) (st : state) (e : exn) :
  check_status E endpoint r st = (Raise e, st) →
  receive E endpoint cache_key cacheable (Responds r) st = (Raise e, st).
Proof. intros H. cbn [receive]. by rewrite bind_run, H. Qed.

Lemma add_sent_app (l1 l2 : list request) (st : state) :
  add_sent l2 (add_sent l1 st) = add_sent (l1 ++ l2) st.
Proof. unfold add_sent. simpl. by rewrite app_assoc. Qed.

Lemma add_sent_nil (st : state) : add_sent [] st = st.
Proof. destruct st. unfold add_sent. simpl. by rewrite app_nil_r. Qed.

(** X5. A request that finds nothing in the cache and is refused is
    reported by the status of the answer: 401 as [AuthenticationError], 404
    as a [WeatherAPIError] naming the endpoint, 500 and above as one
    carrying the status, any other 4xx but 429 as one carrying the text of
    the HTTP error, and a failure of the transport as one carrying its
    text.  In each case exactly one request was sent: there is no second
    try, and nothing is put in the cache. *)
Theorem errors_by_status (E : env) (method endpoint : string)
    (params data : option pydict) (use_cache : bool) (st : state) :
  let request := {| method := method; endpoint := endpoint;
                    params := params; body := data |} in
  let refused e :=
    _make_request E method endpoint params data use_cache st
    = (Raise e, add_sent [request] st) in
  misses E endpoint params st →
  (∀ msg,
     session_request E (length (sent st)) request = RequestException msg →
     refused (WeatherAPIError ("Request failed: " +:+ msg)))
  ∧ (∀ r,
       session_request E (length (sent st)) request = Responds r →
       (status_code r = 401 →
        refused (AuthenticationError "Invalid API key"))
       ∧ (status_code r = 404 →
          refused (WeatherAPIError ("Resource not found: " +:+ endpoint)))
       ∧ (500 <= status_code r →
          refused (WeatherAPIError
                     ("Server error: " +:+ pretty (status_code r))))
       ∧ (400 <= status_code r < 500 →
          status_code r ∉ [401; 404; 429] →
          refused (WeatherAPIError
                     ("Request failed: " +:+ http_error r)))).
Proof.
  intros request refused Hmiss. subst refused. cbv beta.
  assert (Hgo : ∀ outcome e,
             session_request E (length (sent st)) request = outcome →
             receive E endpoint (_get_cache_key E endpoint (default [] params))
               (String.eqb method "GET" && use_cache) outcome
               (add_sent [request] st)
             = (Raise e, add_sent [request] st) →
             retried e = false →
             _make_request E method endpoint params data use_cache st
             = (Raise e, add_sent [request] st)).
  { intros outcome e Hanswer Hrec He. unfold _make_request.
    apply on_exception_gives_up; [|done].
    rewrite _make_request_once_miss by done. fold request.
    by rewrite Hanswer. }
  split.
  - intros msg Hanswer. by eapply Hgo.
  - intros r Hanswer. repeat split.
    + intros Hs. eapply Hgo; [done| |done]. apply receive_refused.
      unfold check_status. by rewrite Hs.
    + intros Hs. eapply Hgo; [done| |done]. apply receive_refused.
      unfold check_status. by rewrite Hs.
    + intros Hs. eapply Hgo; [done| |done]. apply receive_refused.
      unfold check_status.
      destruct (Z.eqb_spec (status_code r) 401); [lia|].
      destruct (Z.eqb_spec (status_code r) 429); [lia|].
      destruct (Z.eqb_spec (status_code r) 404); [lia|].
      by destruct (Z.leb_spec 500 (status_code r)); [|lia].
    + intros Hs Hnot. rewrite !elem_of_cons in Hnot.
      eapply Hgo; [done| |done]. apply receive_refused.
      unfold check_status.
      destruct (Z.eqb_spec (status_code r) 401); [tauto|].
      destruct (Z.eqb_spec (status_code r) 429); [tauto|].
      destruct (Z.eqb_spec (status_code r) 404); [tauto|].
      destruct (Z.leb_spec 500 (status_code r)); [lia|].
      destruct (Z.leb_spec 400 (status_code r)); [|lia].
      by destruct (Z.ltb_spec (status_code r) 600); [|lia].
Qed.

Lemma errors_by_status_witness :
  _make_request demo "GET" "/weather/current"
    (Some [("city", VStr "Paris")]) None true initial
  = (Raise (WeatherAPIError "Resource not found: /weather/current"),
     add_sent [{| method := "GET"; endpoint := "/weather/current";
                  params := Some [("city", VStr "Paris")];
                  body := None |}] initial).
Proof.
  refine (proj1 (proj2 (proj2 (errors_by_status demo "GET" "/weather/current"
                                 (Some [("city", VStr "Paris")]) None true
                                 initial _) _ _)) _).
  - apply lookup_empty.
  - reflexivity.
  - reflexivity.
Defined.

Lemma misses_add_sent (E : env) (endpoint : string) (params : option pydict)
    (l : list request) (st : state) :
  misses E endpoint params st → misses E endpoint params (add_sent l st).
Proof. done. Qed.

Lemma on_exception_last (E : env) {A} (tries : nat) (target : M A)
    (st : state) :
  on_exception E 0 tries target st = target st.
Proof. simpl. by destruct (target st) as [[a|e] st']. Qed.

Lemma on_exception_time_up (E : env) {A} (remaining tries : nat)
    (target : M A) (st : state) (e : exn) (st' : state) :
  target st = (Raise e, st') →
  (max_time <= backoff_elapsed E tries)%Q →
  on_exception E remaining tries target st = (Raise e, st').
Proof.
  intros H Ht. destruct remaining; simpl; rewrite H; [done|].
  apply Qle_bool_iff in Ht. rewrite Ht. by rewrite andb_false_r.
Qed.

(** One try that is answered 429. *)
Lemma _make_request_once_rate_limited (E : env) (method endpoint : string)
    (params data : option pydict) (use_cache : bool) (st : state)
    (r : response) (n : Z) :
  misses E endpoint params st →
  session_request E (length (sent st))
    {| method := method; endpoint := endpoint; params := params;
       body := data |} = Responds r →
  status_code r = 429 →
  retry_after_seconds E r = mret n →
  _make_request_once E method endpoint params data use_cache st
  = (Raise (RateLimitError "Rate limit exceeded" n),
     add_sent [{| method := method; endpoint := endpoint; params := params;
                  body := data |}] st).
Proof.
  intros Hmiss Hanswer Hs Hn.
  rewrite _make_request_once_miss by done. rewrite Hanswer.
  apply receive_refused. unfold check_status. rewrite Hs.
  cbn [Z.eqb Pos.eqb]. by rewrite bind_run, Hn.
Qed.

(** X6. A request that is answered 429 every time, with no [Retry-After]:
    while the retry budget of 60 seconds lasts it is tried three times, and
    then the [RateLimitError], with the default of 60 seconds, reaches the
    caller; when the budget is used up at the first failure, it is tried
    once. *)
Theorem rate_limited_tried_three_times (E : env) (method endpoint : string)
    (params data : option pydict) (use_cache : bool) (st : state)
    (r : response) :
  let request := {| method := method; endpoint := endpoint;
                    params := params; body := data |} in
  let run := _make_request E method endpoint params data use_cache st in
  misses E endpoint params st →
  (∀ n, session_request E n request = Responds r) →
  status_code r = 429 → retry_after r = None →
  ((backoff_elapsed E 1 < max_time)%Q →
   (backoff_elapsed E 2 < max_time)%Q →
   run = (Raise (RateLimitError "Rate limit exceeded" 60),
          add_sent [request; request; request] st))
  ∧ ((max_time <= backoff_elapsed E 1)%Q →
     run = (Raise (RateLimitError "Rate limit exceeded" 60),
            add_sent [request] st)).
Proof.
  intros request run Hmiss Hanswer Hs Hnone. subst run.
  assert (Hn : retry_after_seconds E r = mret 60).
  { unfold retry_after_seconds. by rewrite Hnone. }
  assert (Htry : ∀ l,
             _make_request_once E method endpoint params data use_cache
               (add_sent l st)
             = (Raise (RateLimitError "Rate limit exceeded" 60),
                add_sent (l ++ [request]) st)).
  { intros l. rewrite <- add_sent_app.
    apply (_make_request_once_rate_limited E _ _ _ _ _ _ r); try done. }
  unfold _make_request. change (max_tries - 1)%nat with 2%nat.
  pose proof (Htry []) as H0. rewrite add_sent_nil in H0. split.
  - intros H1 H2.
    rewrite (on_exception_again E _ _ _ _ _ _ H0) by done.
    rewrite (on_exception_again E _ _ _ _ _ _ (Htry [request])) by done.
    rewrite on_exception_last. exact (Htry [request; request]).
  - intros H1. by rewrite (on_exception_time_up E _ _ _ _ _ _ H0).
Qed.

Lemma rate_limited_tried_three_times_witness :
  _make_request busy "GET" "/webhooks" None None true initial
  = (Raise (RateLimitError "Rate limit exceeded" 60),
     add_sent (repeat {| method := "GET"; endpoint := "/webhooks";
                         params := None; body := None |} 3) initial).
Proof.
  refine (proj1 (rate_limited_tried_three_times busy "GET" "/webhooks" None
                   None true initial too_many _ _ _ _) _ _).
  - apply lookup_empty.
  - intros n. reflexivity.
  - reflexivity.
  - reflexivity.
  - reflexivity.
  - reflexivity.
Defined.

(** X7. A GET that is answered 429 once and then with a status below 400
    and a JSON body returns the body after exactly two requests. *)
Theorem rate_limited_then_answered (E : env) (endpoint : string)
    (params : option pydict) (st : state) (busy_answer r : response)
    (n : Z) (v : pyval) :
  let request := {| method := "GET"; endpoint := endpoint; params := params;
                    body := None |} in
  let run := _make_request E "GET" endpoint params None true st in
  misses E endpoint params st →
  session_request E (length (sent st)) request = Responds busy_answer →
  status_code busy_answer = 429 →
  retry_after_seconds E busy_answer = mret n →
  (backoff_elapsed E 1 < max_time)%Q →
  session_request E (S (length (sent st))) request = Responds r →
  passes r → json r = Json v →
  run.1 = Ok v ∧ sent run.2 = sent st ++ [request; request].
Proof.
  intros request run Hmiss Hbusy Hs Hn Ht Hanswer Hpass Hjson. subst run.
  unfold _make_request. change (max_tries - 1)%nat with 2%nat.
  rewrite (on_exception_again E _ _ _ _ _ _
             (_make_request_once_rate_limited E _ _ _ _ _ _ _ _
                Hmiss Hbusy Hs Hn)) by done.
  rewrite (on_exception_returns E _ _ _ _ _ _
             (_make_request_once_fetch E endpoint params
                (add_sent [request] st) r v Hmiss
                ltac:(cbn [sent add_sent]; rewrite length_app;
                      cbn [length]; by rewrite Nat.add_1_r)
                Hpass Hjson)).
  split; [done|]. cbn [snd sent add_sent]. by rewrite <- app_assoc.
Qed.

Lemma rate_limited_then_answered_witness :
  (_make_request busy_twice "GET" "/weather/current"
     (Some [("city", VStr "X")]) None true
     (add_sent [current_weather_request "X"] initial)).1
  = Ok (weather_report 31).
Proof.
  refine (proj1 (rate_limited_then_answered busy_twice "/weather/current"
                   (Some [("city", VStr "X")])
                   (add_sent [current_weather_request "X"] initial)
                   too_many
                   {| status_code := 200; retry_after := None;
                      http_error := "";
                      json := Json (weather_report 31) |} 60
                   (weather_report 31) _ _ _ _ _ _ _ _)).
  - apply lookup_empty.
  - reflexivity.
  - reflexivity.
  - reflexivity.
  - reflexivity.
  - reflexivity.
  - reflexivity.
  - reflexivity.
Defined.

(** X8. A 429 answer whose [Retry-After] is not a number for [int()] (a
    date, say) makes the request fail with the [ValueError] of [int()],
    which is not a [WeatherAPIError]; it is not tried again. *)
Theorem retry_after_not_a_number (E : env) (method endpoint : string)
    (params data : option pydict) (use_cache : bool) (st : state)
    (r : response) (s msg : string) :
  let request := {| method := method; endpoint := endpoint;
                    params := params; body := data |} in
  misses E endpoint params st →
  session_request E (length (sent st)) request = Responds r →
  status_code r = 429 →
  retry_after r = Some s → builtin_int E s = inr msg →
  _make_request E method endpoint params data use_cache st
  = (Raise (ValueError msg), add_sent [request] st)
  ∧ is_WeatherAPIError (ValueError msg) = false.
Proof.
  intros request Hmiss Hanswer Hs Hafter Hint. split; [|done].
  unfold _make_request. apply on_exception_gives_up; [|done].
  rewrite _make_request_once_miss by done. fold request. rewrite Hanswer.
  apply receive_refused. unfold check_status. rewrite Hs.
  cbn [Z.eqb Pos.eqb]. rewrite bind_run. unfold retry_after_seconds.
  by rewrite Hafter, Hint.
Qed.

Lemma retry_after_not_a_number_witness :
  _make_request dated "GET" "/webhooks" None None true initial
  = (Raise (ValueError
              ("invalid literal for int() with base 10: '"
               +:+ "Wed, 21 Oct 2015 07:28:00 GMT" +:+ "'")),
     add_sent [{| method := "GET"; endpoint := "/webhooks"; params := None;
                  body := None |}] initial).
Proof.
  refine (proj1 (retry_after_not_a_number dated "GET" "/webhooks" None None
                   true initial come_back_later
                   "Wed, 21 Oct 2015 07:28:00 GMT" _ _ _ _ _ _)).
  - apply lookup_empty.
  - reflexivity.
  - reflexivity.
  - reflexivity.
  - reflexivity.
Defined.

(** ** What a call can do to the log and to the cache *)

#[local] Instance same_sent_preorder : PreOrder same_sent.
Proof.
  split.
  - by intros st.
  - intros a b c. unfold same_sent. congruence.
Qed.

Lemma same_sent_receive (E : env) (endpoint cache_key : string)
    (cacheable : bool) (outcome : net_outcome) (st : state) :
  sent (receive E endpoint cache_key cacheable outcome st).2 = sent st.
Proof.
  symmetry.
  exact (respects_receive same_sent E (λ st, eq_refl) (λ g st, eq_refl)
           endpoint cache_key cacheable outcome st).
Qed.

(** One try sends its request once, or not at all. *)
Lemma _make_request_once_sent (E : env) (method endpoint : string)
    (params data : option pydict) (use_cache : bool) (st : state) :
  let request := {| method := method; endpoint := endpoint;
                    params := params; body := data |} in
  let st' := (_make_request_once E method endpoint params data use_cache st).2
  in sent st' = sent st ∨ sent st' = sent st ++ [request].
Proof.
  intros request st'. subst st'. unfold _make_request_once.
  rewrite bind_run.
  pose proof (respects__get_from_cache same_sent E (λ st, eq_refl)
                (_get_cache_key E endpoint (default [] params)) st) as Hget.
  destruct ((if String.eqb method "GET" && use_cache
             then _get_from_cache E _ else mret None) st)
    as [[cached|e] st0] eqn:Hlookup.
  - assert (Hsent : sent st0 = sent st).
    { destruct (String.eqb method "GET" && use_cache).
      - rewrite Hlookup in Hget. by symmetry.
      - by injection Hlookup as _ <-. }
    destruct (match cached with Some d => Py.truthy d | None => false end).
    + left. done.
    + right. rewrite bind_run. cbn [send fst snd].
      rewrite same_sent_receive. cbn [sent]. by rewrite Hsent.
  - left. destruct (String.eqb method "GET" && use_cache).
    + rewrite Hlookup in Hget. by symmetry.
    + discriminate Hlookup.
Qed.

Lemma repeat_snoc {A} (x : A) (k : nat) : repeat x k ++ [x] = repeat x (S k).
Proof. by rewrite <- repeat_cons. Qed.

Lemma on_exception_sent (E : env) {A} (request : request)
    (remaining tries : nat) (target : M A) :
  (∀ st, sent (target st).2 = sent st
         ∨ sent (target st).2 = sent st ++ [request]) →
  ∀ st, ∃ k, (k <= S remaining)%nat
             ∧ sent (on_exception E remaining tries target st).2
               = sent st ++ repeat request k.
Proof.
  intros Ht. revert tries.
  induction remaining as [|n IH]; intros tries st.
  - rewrite on_exception_last.
    destruct (Ht st) as [-> | ->]; [exists 0%nat | exists 1%nat];
      split; [lia| by rewrite app_nil_r |lia|done].
  - simpl. destruct (target st) as [[a|e] st'] eqn:Hrun.
    + pose proof (Ht st) as H. rewrite Hrun in H.
      destruct H as [-> | ->]; [exists 0%nat | exists 1%nat];
        split; [lia| by rewrite app_nil_r |lia|done].
    + pose proof (Ht st) as H. rewrite Hrun in H. cbn [snd] in H.
      destruct (retried e && _).
      * destruct (IH (S tries) st') as (k & Hk & ->).
        destruct H as [-> | ->].
        -- exists k. split; [lia|done].
        -- exists (S k). split; [lia|].
           by rewrite <- app_assoc.
      * cbn [snd].
        destruct H as [-> | ->]; [exists 0%nat | exists 1%nat];
          split; [lia| by rewrite app_nil_r |lia|done].
Qed.

(** X9. Whatever the server does, one call of [_make_request] sends its
    request at most three times, and sends nothing else. *)
Theorem at_most_three_requests (E : env) (method endpoint : string)
    (params data : option pydict) (use_cache : bool) (st : state) :
  let request := {| method := method; endpoint := endpoint;
                    params := params; body := data |} in
  ∃ k, (k <= 3)%nat
       ∧ sent (_make_request E method endpoint params data use_cache st).2
         = sent st ++ repeat request k.
Proof.
  intros request. unfold _make_request.
  apply (on_exception_sent E request 2).
  intros st0. apply _make_request_once_sent.
Qed.

Lemma receive_raise_pure (E : env) (endpoint cache_key : string)
    (cacheable : bool) (outcome : net_outcome) (st : state) (e : exn)
    (st' : state) :
  receive E endpoint cache_key cacheable outcome st = (Raise e, st') →
  st' = st.
Proof.
  destruct outcome as [r|msg]; cbn [receive]; [|by intros [= _ <-]].
  rewrite bind_run. pose proof (check_status_pure E endpoint r st) as Hc.
  destruct (check_status E endpoint r st) as [[[]|e0] s0]; cbn [snd] in Hc;
    subst s0; [|by intros [= _ <-]].
  rewrite bind_run. pose proof (parse_pure E r st) as Hp.
  destruct (parse E r st) as [[v|e1] s1]; cbn [snd] in Hp; subst s1;
    [|by intros [= _ <-]].
  rewrite bind_run. destruct cacheable.
  - by rewrite _save_to_cache_run.
  - done.
Qed.

Lemma _make_request_once_raise_cache (E : env) (method endpoint : string)
    (params data : option pydict) (use_cache : bool) (st : state) (e : exn)
    (st' : state) :
  _make_request_once E method endpoint params data use_cache st
  = (Raise e, st') →
  _cache st' = _cache st.
Proof.
  destruct (String.eqb method "GET" && use_cache) eqn:Hc.
  - unfold _make_request_once. rewrite bind_run, Hc, _get_from_cache_run.
    destruct (_cache st !! _) as [[d ts]|].
    + destruct (match (if Qltb _ _ then Some d else None) with
                | Some d0 => Py.truthy d0 | None => false end); [done|].
      rewrite bind_run. cbn [send fst snd].
      intros H. by apply receive_raise_pure in H as ->.
    + cbn beta iota. rewrite bind_run. cbn [send fst snd].
      intros H. by apply receive_raise_pure in H as ->.
  - rewrite _make_request_once_direct by done.
    intros H. by apply receive_raise_pure in H as ->.
Qed.

(** X10. A call of [_make_request] that raises leaves the cache exactly as
    it found it: no failure is ever cached, and none evicts an entry. *)
Theorem failure_leaves_cache (E : env) (method endpoint : string)
    (params data : option pydict) (use_cache : bool) (st : state) (e : exn)
    (st' : state) :
  _make_request E method endpoint params data use_cache st = (Raise e, st') →
  _cache st' = _cache st.
Proof.
  unfold _make_request. generalize (max_tries - 1)%nat as remaining.
  generalize 1%nat as tries. intros tries remaining. revert st tries.
  induction remaining as [|n IH]; intros st tries.
  - rewrite on_exception_last. apply _make_request_once_raise_cache.
  - simpl.
    destruct (_make_request_once E method endpoint params data use_cache st)
      as [[a|e0] st0] eqn:Hrun; [done|].
    apply _make_request_once_raise_cache in Hrun.
    destruct (retried e0 && _).
    + intros H. apply IH in H. congruence.
    + intros [= _ <-]. done.
Qed.

Lemma failure_leaves_cache_witness :
  _cache (_make_request demo "GET" "/weather/current"
            (Some [("city", VStr "Paris")]) None true initial).2
  = _cache initial.
Proof.
  apply (failure_leaves_cache demo "GET" "/weather/current"
           (Some [("city", VStr "Paris")]) None true initial
           (WeatherAPIError "Resource not found: /weather/current")).
  vm_compute. reflexivity.
Defined.

Lemma receive_uncached_pure (E : env) (endpoint cache_key : string)
    (outcome : net_outcome) (st : state) :
  (receive E endpoint cache_key false outcome st).2 = st.
Proof.
  destruct outcome as [r|msg]; cbn [receive]; [|done].
  rewrite bind_run. pose proof (check_status_pure E endpoint r st) as Hc.
  destruct (check_status E endpoint r st) as [[[]|e0] s0]; cbn [snd] in Hc;
    subst s0; [|done].
  rewrite bind_run. pose proof (parse_pure E r st) as Hp.
  by destruct (parse E r st) as [[v|e1] s1]; cbn [snd] in Hp; subst s1.
Qed.

Lemma _make_request_once_uncached (E : env) (method endpoint : string)
    (params data : option pydict) (use_cache : bool) (st : state) :
  String.eqb method "GET" && use_cache = false →
  (_make_request_once E method endpoint params data use_cache st).2
  = add_sent [{| method := method; endpoint := endpoint; params := params;
                 body := data |}] st.
Proof.
  intros Hun. rewrite _make_request_once_direct by done.
  apply receive_uncached_pure.
Qed.

Lemma on_exception_repeats (E : env) {A} (request : request)
    (target : M A) :
  (∀ st, (target st).2 = add_sent [request] st) →
  ∀ remaining tries st,
    ∃ k, (1 <= k <= S remaining)%nat
         ∧ (on_exception E remaining tries target st).2
           = add_sent (repeat request k) st.
Proof.
  intros Honce. induction remaining as [|n IH]; intros tries st.
  - exists 1%nat. split; [lia|]. by rewrite on_exception_last, Honce.
  - simpl. pose proof (Honce st) as H1.
    destruct (target st) as [[a|e0] st1]; cbn [snd] in H1; subst st1.
    + exists 1%nat. split; [lia|done].
    + destruct (retried e0 && _).
      * destruct (IH (S tries) (add_sent [request] st)) as (k & Hk & ->).
        exists (S k). split; [lia|]. by rewrite add_sent_app.
      * exists 1%nat. split; [lia|done].
Qed.

(** X11. A request that is not a cacheable GET (a POST, a DELETE, or a GET
    with [use_cache=False]) neither reads nor writes the cache and does not
    read the clock: all it does to the state is to send its request, at
    least once and at most three times. *)
Theorem uncached_methods (E : env) (method endpoint : string)
    (params data : option pydict) (use_cache : bool) (st : state) :
  let request := {| method := method; endpoint := endpoint;
                    params := params; body := data |} in
  String.eqb method "GET" && use_cache = false →
  ∃ k, (1 <= k <= 3)%nat
       ∧ (_make_request E method endpoint params data use_cache st).2
         = add_sent (repeat request k) st.
Proof.
  intros request Hun. unfold _make_request.
  apply (on_exception_repeats E request).
  intros st0. by apply _make_request_once_uncached.
Qed.

Lemma uncached_methods_witness :
  ∃ k, (1 <= k <= 3)%nat
       ∧ (_make_request demo "DELETE" "/webhooks/42" None None true
            initial).2
         = add_sent (repeat {| method := "DELETE"; endpoint := "/webhooks/42";
                               params := None; body := None |} k) initial.
Proof.
  apply (uncached_methods demo "DELETE" "/webhooks/42" None None true
           initial).
  reflexivity.
Defined.

(** ** Forecasts, searches and webhooks *)

(** X12. [get_forecast] with a number of days outside 1..7 raises the
    validation error at once, whatever the other arguments: nothing is sent
    and the cache is not touched.  With a number of days in 1..7 and
    nothing in the cache under the key of the request, the request goes
    out, carrying the days. *)
Theorem get_forecast_days_checked (E : env) (location : option string)
    (lat lon : option pyfloat) (days : Z) (units : WeatherUnits)
    (st : state) :
  let params :=
    with_place location lat lon
      [("days", VInt days); ("units", VStr (WeatherUnits_value units))] in
  let run := get_forecast E location lat lon days units st in
  (days < 1 ∨ 7 < days →
   run.1 = Raise (ValueError "Days must be between 1 and 7")
   ∧ sent run.2 = sent st ∧ _cache run.2 = _cache st)
  ∧ (1 <= days <= 7 →
     misses E "/weather/forecast" (Some params) st →
     sends {| method := "GET"; endpoint := "/weather/forecast";
              params := Some params; body := None |} st run.2).
Proof.
  intros params run. subst run. unfold get_forecast.
  rewrite bind_run, log_call_run. split.
  - intros Hd.
    assert ((1 <=? days) && (days <=? 7) = false) as ->; [|done].
    destruct (Z.leb_spec 1 days), (Z.leb_spec days 7); simpl; lia.
  - intros Hd Hmiss.
    assert ((1 <=? days) && (days <=? 7) = true) as ->.
    { destruct (Z.leb_spec 1 days), (Z.leb_spec days 7); simpl; lia. }
    cbn [negb].
    destruct (_make_request_miss_sends E "/weather/forecast" (Some params)
                {| _cache := _cache st; sent := sent st;
                   time_reads := time_reads st;
                   calls := calls st ++ [Forecast location lat lon days];
                   fired := fired st |} Hmiss) as [more Hs].
    exists more. exact Hs.
Qed.

Lemma get_forecast_days_checked_witness :
  (get_forecast demo (Some "Paris") None None 8 METRIC initial).1
  = Raise (ValueError "Days must be between 1 and 7").
Proof.
  refine (proj1 (proj1 (get_forecast_days_checked demo (Some "Paris") None
                          None 8 METRIC initial) _)).
  right. lia.
Defined.

(** X13. [search_locations] with a limit outside 1..10 raises the validation
    error and does nothing else. *)
Theorem search_locations_limit_checked (E : env) (query : string)
    (limit : Z) (st : state) :
  limit < 1 ∨ 10 < limit →
  search_locations E query limit st
  = (Raised (ValueError "Limit must be between 1 and 10"), st).
Proof.
  intros Hl. unfold search_locations.
  assert ((1 <=? limit) && (limit <=? 10) = false) as ->; [|done].
  destruct (Z.leb_spec 1 limit), (Z.leb_spec limit 10); simpl; lia.
Qed.

Lemma search_locations_limit_checked_witness :
  search_locations demo "New York" 0 initial
  = (Raised (ValueError "Limit must be between 1 and 10"), initial).
Proof.
  apply (search_locations_limit_checked demo "New York" 0 initial).
  left. lia.
Defined.

(** X14. A search with a limit in 1..10 that goes to the network and is
    answered with a status below 400 sends the query and the limit, and
    returns the [results] of the answer when the answer is a dict that has
    them, the empty list when it is a dict without [results], and fails
    with [AttributeError] when the answer is JSON but not a dict. *)
Theorem search_locations_results (E : env) (query : string) (limit : Z)
    (st : state) (r : response) (answer : pyval) :
  let request :=
    {| method := "GET"; endpoint := "/locations/search";
       params := Some [("q", VStr query); ("limit", VInt limit)];
       body := None |} in
  let run := search_locations E query limit st in
  1 <= limit <= 10 →
  misses E "/locations/search" (params request) st →
  session_request E (length (sent st)) request = Responds r →
  passes r → json r = Json answer →
  sent run.2 = sent st ++ [request]
  ∧ (∀ d results,
       answer = VDict d → Py.dict_get "results" d = Some results →
       run.1 = Returned results)
  ∧ (∀ d,
       answer = VDict d → Py.dict_get "results" d = None →
       run.1 = Returned (VList []))
  ∧ ((∀ d, answer ≠ VDict d) → ∃ msg, run.1 = RaisedAttributeError msg).
Proof.
  intros request run Hl Hmiss Hanswer Hpass Hjson. subst run.
  unfold search_locations.
  assert ((1 <=? limit) && (limit <=? 10) = true) as ->.
  { destruct (Z.leb_spec 1 limit), (Z.leb_spec limit 10); simpl; lia. }
  cbn [negb].
  rewrite (_make_request_fetch E "/locations/search" _ st r answer)
    by done.
  split; [done|]. cbn [fst]. repeat split.
  - intros d results -> Hd. cbn [get_method]. by rewrite Hd.
  - intros d -> Hd. cbn [get_method]. by rewrite Hd.
  - intros Hnot. destruct answer; cbn [get_method]; eauto.
    by destruct (Hnot d).
Qed.

Lemma search_locations_results_witness :
  (search_locations demo "New York" 5 initial).1 = Returned (VList []).
Proof.
  refine (proj1 (proj2 (proj2 (search_locations_results demo "New York" 5
                                 initial
                                 {| status_code := 200; retry_after := None;
                                    http_error := "";
                                    json := Json (weather_report 31) |}
                                 (weather_report 31) _ _ _ _ _)))
            [("location", VDict [("city", VStr "somewhere")]);
             ("current", VDict [("temperature", VInt 31);
                                ("humidity", VInt 40)])] _ _).
  - lia.
  - apply lookup_empty.
  - reflexivity.
  - reflexivity.
  - reflexivity.
  - reflexivity.
  - reflexivity.
Defined.

(** X15. [create_webhook] sends a POST to [/webhooks] whose body has the
    url, the events and [active] set, the description and the secret only
    when they are given and not empty; the call does not touch the cache. *)
Theorem create_webhook_request (E : env) (url : string)
    (events : list string) (description secret : option string)
    (st : state) :
  let data := webhook_data url events description secret in
  let run := create_webhook E url events description secret st in
  sends {| method := "POST"; endpoint := "/webhooks"; params := None;
           body := Some data |} st run.2
  ∧ _cache run.2 = _cache st
  ∧ Py.dict_get "url" data = Some (VStr url)
  ∧ Py.dict_get "events" data = Some (VList (List.map VStr events))
  ∧ Py.dict_get "active" data = Some (VBool true)
  ∧ Py.dict_get "description" data
    = (if given_str description then VStr <$> description else None)
  ∧ Py.dict_get "secret" data
    = (if given_str secret then VStr <$> secret else None).
Proof.
  intros data run. subst run data. unfold create_webhook.
  destruct (on_exception_repeats E
              {| method := "POST"; endpoint := "/webhooks"; params := None;
                 body := Some (webhook_data url events description secret) |}
              (_make_request_once E "POST" "/webhooks" None
                 (Some (webhook_data url events description secret)) true)
              (λ st0, _make_request_once_uncached E "POST" "/webhooks" None
                        _ true st0 eq_refl)
              (max_tries - 1) 1%nat st) as (k & Hk & Hrun).
  unfold _make_request. rewrite Hrun. split; [|split; [done|]].
  - destruct k as [|k]; [lia|]. eexists. reflexivity.
  - unfold webhook_data.
    destruct description as [d|], secret as [s|]; cbn [given_str];
      repeat match goal with
             | |- context [Py.truthy ?v] => destruct (Py.truthy v)
             end; by vm_compute.
Qed.

(** X16. [create_webhook] does not refresh the list of webhooks: when the
    cache holds an answer for [list_webhooks] that is younger than the time
    to live, a call of [list_webhooks] after [create_webhook] still returns
    the webhooks of that old answer, and asks the server nothing. *)
Theorem webhook_list_stale_after_create (E : env) (url : string)
    (events : list string) (description secret : option string)
    (st : state) (old : pyval) (ts : Q) :
  let st1 := (create_webhook E url events description secret st).2 in
  let run := list_webhooks E st1 in
  _cache st !! _get_cache_key E "/webhooks" [] = Some (old, ts) →
  Py.truthy old = true →
  (clock E (time_reads st) - ts < _cache_ttl)%Q →
  run.1 = get_method old "webhooks" (VList [])
  ∧ sent run.2 = sent st1.
Proof.
  intros st1 run Hk Htrue Hfresh.
  destruct (on_exception_repeats E
              {| method := "POST"; endpoint := "/webhooks"; params := None;
                 body := Some (webhook_data url events description secret) |}
              (_make_request_once E "POST" "/webhooks" None
                 (Some (webhook_data url events description secret)) true)
              (λ st0, _make_request_once_uncached E "POST" "/webhooks" None
                        _ true st0 eq_refl)
              (max_tries - 1) 1%nat st) as (k & _ & Hrun).
  assert (Hhit : _make_request E "GET" "/webhooks" None None true st1
                 = (Ok old, (time E st1).2)).
  { apply (_make_request_hit E "/webhooks" None None st1 old ts);
      [| |exact Htrue]; subst st1; unfold create_webhook, _make_request;
      rewrite Hrun; assumption. }
  subst run. unfold list_webhooks. rewrite Hhit. split; reflexivity.
Qed.

Lemma webhook_list_stale_after_create_witness :
  (list_webhooks demo
     (create_webhook demo "https://example.org/hook" ["alert"] None None
        (set_cache {[_get_cache_key demo "/webhooks" []
                     := (VDict [("webhooks", VList [VStr "w1"])], 0%Q)]}
           initial)).2).1
  = Returned (VList [VStr "w1"]).
Proof.
  refine (proj1 (webhook_list_stale_after_create demo
                   "https://example.org/hook" ["alert"] None None
                   (set_cache {[_get_cache_key demo "/webhooks" []
                                := (VDict [("webhooks", VList [VStr "w1"])],
                                    0%Q)]} initial)
                   (VDict [("webhooks", VList [VStr "w1"])]) 0%Q _ _ _)).
  - apply lookup_singleton_eq.
  - reflexivity.
  - reflexivity.
Defined.

(** ** Rules and callbacks of the monitor *)

Lemma dict_set_keys {A} (k : string) (v : A) (d : list (string * A)) :
  List.map fst (Py.dict_set k v d)
  = if bool_decide (k ∈ List.map fst d) then List.map fst d
    else List.map fst d ++ [k].
Proof.
  induction d as [|[k' v'] d IH]; [done|].
  cbn [Py.dict_set List.map fst].
  destruct (String.eqb_spec k' k) as [->|Hne].
  - rewrite bool_decide_eq_true_2 by (by left). done.
  - cbn [List.map fst]. rewrite IH.
    destruct (decide (k ∈ List.map fst d)) as [Hin|Hout].
    + rewrite !bool_decide_eq_true_2; [done|by right|done].
    + rewrite !bool_decide_eq_false_2; [done| |done].
      intros [?|?]%elem_of_cons; congruence.
Qed.

(** X17. [set_threshold] is an upsert: afterwards the rule just given is
    the one under the key [location:parameter], every other key has what
    it had, and the order of the keys is kept, a new key going last (the
    order in which [check_thresholds] takes the rules); the callbacks are
    left alone. *)
Theorem set_threshold_upsert (parameter operator : string) (value : pyval)
    (location : string) (m : monitor) :
  let key := location +:+ ":" +:+ parameter in
  let m' := set_threshold parameter operator value location m in
  Py.dict_get key (thresholds m')
  = Some {| th_operator := operator; th_value := value;
            th_parameter := parameter; th_location := location |}
  ∧ (∀ k, k ≠ key →
          Py.dict_get k (thresholds m') = Py.dict_get k (thresholds m))
  ∧ List.map fst (thresholds m')
    = (if bool_decide (key ∈ List.map fst (thresholds m))
       then List.map fst (thresholds m)
       else List.map fst (thresholds m) ++ [key])
  ∧ callbacks m' = callbacks m.
Proof.
  intros key m'. subst m'. unfold set_threshold. cbn [thresholds callbacks].
  fold key. split; [apply dict_get_set_eq|]. split.
  - intros k Hk. apply dict_get_set_ne. congruence.
  - split; [apply dict_set_keys | done].
Qed.

(** With no colon in the location names, the key tells the location and
    the parameter. *)
Lemma threshold_key_inj (location location' parameter parameter' : string) :
  colon_free location → colon_free location' →
  location +:+ ":" +:+ parameter = location' +:+ ":" +:+ parameter' →
  location = location' ∧ parameter = parameter'.
Proof.
  revert location'.
  induction location as [|a l IH]; intros [|c l'] Hl Hl';
    rewrite ?append_cons, ?append_nil.
  - intros [= ->]. done.
  - apply colon_free_cons in Hl' as [Hc _]. intros [= <-]. done.
  - apply colon_free_cons in Hl as [Ha _]. intros [= ->]. done.
  - apply colon_free_cons in Hl as [_ Hl].
    apply colon_free_cons in Hl' as [_ Hl'].
    intros [= -> Hrest]. destruct (IH l' Hl Hl' Hrest) as [-> ->]. done.
Qed.

(** X18. Rules do not collide: when no location name has a colon, setting
    a threshold for another pair of location and parameter leaves a rule
    set before in place. *)
Theorem rules_do_not_collide (parameter operator : string) (value : pyval)
    (location : string) (parameter' operator' : string) (value' : pyval)
    (location' : string) (m : monitor) :
  colon_free location → colon_free location' →
  (location, parameter) ≠ (location', parameter') →
  Py.dict_get (location +:+ ":" +:+ parameter)
    (thresholds
       (set_threshold parameter' operator' value' location'
          (set_threshold parameter operator value location m)))
  = Some {| th_operator := operator; th_value := value;
            th_parameter := parameter; th_location := location |}.
Proof.
  intros Hl Hl' Hne. unfold set_threshold. cbn [thresholds].
  rewrite dict_get_set_ne; [apply dict_get_set_eq|].
  intros Hkey. apply threshold_key_inj in Hkey as [-> ->]; done.
Qed.

Lemma rules_do_not_collide_witness :
  Py.dict_get ("Nome" +:+ ":" +:+ "humidity")
    (thresholds
       (set_threshold "temperature" "<" (VInt 30) "Nome"
          (set_threshold "humidity" ">" (VInt 100) "Nome" new_monitor)))
  = Some {| th_operator := ">"; th_value := VInt 100;
            th_parameter := "humidity"; th_location := "Nome" |}.
Proof.
  apply (rules_do_not_collide "humidity" ">" (VInt 100) "Nome"
           "temperature" "<" (VInt 30) "Nome" new_monitor).
  - reflexivity.
  - reflexivity.
  - intros [=].
Defined.

(** X19. Callbacks are called in the order of their registration, each one
    once with the data of the event, and a callback that raises stops
    nothing: whatever the callbacks do, the callbacks registered before a
    new one are called before it, and [_trigger_callbacks] returns.  On a
    monitor without callbacks nothing is called. *)
Theorem callbacks_in_registration_order (E : env) (m : monitor)
    (callback : nat) (event_type : string) (data : pyval) (st : state) :
  _trigger_callbacks E (on_threshold_exceeded callback m)
    "threshold_exceeded" data st
  = (Ok tt,
     add_fired (List.map (λ c, (c, data)) (subscribers m ++ [callback])) st)
  ∧ _trigger_callbacks E new_monitor event_type data st = (Ok tt, st).
Proof.
  split; [|done]. rewrite _trigger_callbacks_run. do 3 f_equal.
  unfold subscribers at 1, on_threshold_exceeded. cbn [callbacks].
  by rewrite dict_get_set_eq.
Qed.

(** With callbacks that all raise: both were called, in order. *)
Example callbacks_that_raise :
  fired (_trigger_callbacks grumpy
           (on_threshold_exceeded 8 (on_threshold_exceeded 7 new_monitor))
           "threshold_exceeded" (VStr "event") initial).2
  = [(7%nat, VStr "event"); (8%nat, VStr "event")].
Proof. reflexivity. Qed.

(** A refusal that is reported as a [WeatherAPIError] and not tried
    again. *)
Lemma check_status_refuses (E : env) (endpoint : string) (r : response)
    (st : state) :
  status_code r = 401 ∨ status_code r = 404 ∨ 500 <= status_code r →
  ∃ e, check_status E endpoint r st = (Raise e, st)
       ∧ is_WeatherAPIError e = true ∧ retried e = false.
Proof.
  intros Hs. unfold check_status.
  destruct (Z.eqb_spec (status_code r) 401); [by eexists|].
  destruct (Z.eqb_spec (status_code r) 429); [lia|].
  destruct (Z.eqb_spec (status_code r) 404); [by eexists|].
  destruct (Z.leb_spec 500 (status_code r)); [by eexists|lia].
Qed.

Lemma get_current_weather_named (E : env) (location : string) (st : state) :
  location ≠ "" →
  get_current_weather E (Some location) None None METRIC "en" st
  = _make_request E "GET" "/weather/current"
      (params (current_weather_request location)) None true
      (log_call (CurrentWeather (Some location) None None) st).2.
Proof.
  intros Hloc.
  assert (Hgiven : given_str (Some location) = true).
  { simpl. apply negb_true_iff. by apply String.eqb_neq. }
  unfold get_current_weather. rewrite bind_run, log_call_run.
  unfold with_place. rewrite Hgiven. reflexivity.
Qed.

(** A location that the server refuses, on a client with an empty cache:
    one request, and the location is passed over. *)
Lemma check_location_refused (E : env) (m : monitor) (location : string)
    (st : state) (r : response) :
  _cache st = ∅ → location ≠ "" →
  session_request E (length (sent st)) (current_weather_request location)
  = Responds r →
  status_code r = 401 ∨ status_code r = 404 ∨ 500 <= status_code r →
  check_location E m location st
  = (Ok tt,
     add_sent [current_weather_request location]
       (log_call (CurrentWeather (Some location) None None) st).2).
Proof.
  intros Hempty Hloc Hanswer Hs.
  set (st1 := (log_call (CurrentWeather (Some location) None None) st).2).
  destruct (check_status_refuses E "/weather/current" r
              (add_sent [current_weather_request location] st1) Hs)
    as (e & He & Hwae & Hretried).
  apply (check_location_skipped E m location st e); [|done].
  rewrite get_current_weather_named by done. fold st1.
  unfold _make_request. apply on_exception_gives_up; [|done].
  rewrite _make_request_once_miss.
  - change (sent st1) with (sent st).
    change {| method := "GET"; endpoint := "/weather/current";
              params := params (current_weather_request location);
              body := None |} with (current_weather_request location).
    rewrite Hanswer. by apply receive_refused.
  - unfold misses. change (_cache st1) with (_cache st).
    rewrite Hempty. apply lookup_empty.
Qed.

(** X20. A location whose weather cannot be had is passed over, and the
    check goes on: on a client with an empty cache, when the request for
    every monitored location is refused with 401, 404 or a status from 500
    up, [check_thresholds] returns, having sent one request for each
    location and called no callback; nothing is cached. *)
Theorem unreachable_locations_skipped (E : env) (m : monitor) (st : state) :
  let run := check_thresholds E m st in
  _cache st = ∅ →
  (∀ l n, l ∈ monitored_locations E m →
     l ≠ ""
     ∧ ∃ r, session_request E n (current_weather_request l) = Responds r
            ∧ (status_code r = 401 ∨ status_code r = 404
               ∨ 500 <= status_code r)) →
  run.1 = Ok tt
  ∧ fired run.2 = fired st
  ∧ _cache run.2 = ∅
  ∧ sent run.2
    = sent st ++ List.map current_weather_request (monitored_locations E m).
Proof.
  intros run Hempty Hrefused. subst run. unfold check_thresholds.
  revert st Hempty Hrefused.
  induction (monitored_locations E m) as [|l rest IH];
    intros st Hempty Hrefused.
  - by rewrite app_nil_r.
  - destruct (Hrefused l (length (sent st)) ltac:(by left))
      as (Hl & r & Hanswer & Hs).
    cbn [for_each]. rewrite bind_run.
    rewrite (check_location_refused E m l st r) by done.
    destruct (IH (add_sent [current_weather_request l]
                    (log_call (CurrentWeather (Some l) None None) st).2))
      as (Hok & Hfired & Hcache & Hsent).
    + done.
    + intros l' n Hl'. apply Hrefused. by right.
    + rewrite Hok, Hfired, Hcache, Hsent. repeat split.
      cbn [sent add_sent log_call modify snd List.map].
      by rewrite <- app_assoc.
Qed.

Lemma unreachable_locations_skipped_witness :
  (check_thresholds demo (hot_monitor "Paris") initial).1 = Ok tt.
Proof.
  refine (proj1 (unreachable_locations_skipped demo (hot_monitor "Paris")
                   initial _ _)).
  - reflexivity.
  - intros l n Hl. change (l ∈ ["Paris"]) in Hl.
    apply elem_of_cons in Hl as [->|Hl]; [|by apply elem_of_nil in Hl].
    split; [done|]. eexists. split; [reflexivity|]. right. by left.
Defined.

(** ** Comparing a reading with a threshold *)

Lemma _check_condition_table (v thr : pyval) :
  _check_condition v ">" thr = Cmp.gt v thr
  ∧ _check_condition v "<" thr = Cmp.lt v thr
  ∧ _check_condition v ">=" thr = Cmp.ge v thr
  ∧ _check_condition v "<=" thr = Cmp.le v thr
  ∧ _check_condition v "==" thr = Ok (Cmp.eq v thr)
  ∧ _check_condition v "!=" thr = Ok (Cmp.ne v thr).
Proof. repeat split; reflexivity. Qed.

(** Two numbers, of whatever types, are compared by value. *)
Lemma compare_numbers (v thr : pyval) (x y : pyfloat) :
  Cmp.num_of v = Some x → Cmp.num_of thr = Some y →
  Cmp.order v thr
  = match Cmp.float_cmp x y with
    | Some c => Cmp.Ordered c
    | None => Cmp.Unordered
    end
  ∧ Cmp.eq v thr
    = match Cmp.float_cmp x y with Some Eq => true | _ => false end.
Proof.
  destruct v, thr; try discriminate; cbn [Cmp.num_of];
    intros [= <-] [= <-]; done.
Qed.

Lemma Qcompare_tests (p q : Q) :
  match (p ?= q)%Q with Gt => true | _ => false end = Qltb q p
  ∧ match (p ?= q)%Q with Lt => true | _ => false end = Qltb p q
  ∧ match (p ?= q)%Q with Lt => false | _ => true end = Qle_bool q p
  ∧ match (p ?= q)%Q with Gt => false | _ => true end = Qle_bool p q
  ∧ match (p ?= q)%Q with Eq => true | _ => false end = Qeq_bool p q.
Proof.
  assert (Hle : ∀ a b : Q, (a <= b)%Q → Qle_bool a b = true).
  { intros a b. apply Qle_bool_iff. }
  assert (Hgt : ∀ a b : Q, (b < a)%Q → Qle_bool a b = false).
  { intros a b Hlt. destruct (Qle_bool a b) eqn:Hb; [|done].
    apply Qle_bool_iff in Hb. exfalso. exact (Qlt_not_le _ _ Hlt Hb). }
  assert (Hne : ∀ a b : Q, ¬ (a == b)%Q → Qeq_bool a b = false).
  { intros a b Hab. destruct (Qeq_bool a b) eqn:Hb; [|done].
    by apply Qeq_bool_iff in Hb. }
  unfold Qltb. destruct (Qcompare_spec p q) as [Heq|Hlt|Hgt'].
  - rewrite (Hle p q), (Hle q p) by (rewrite Heq; apply Qle_refl).
    repeat split. symmetry. by apply Qeq_bool_iff.
  - rewrite (Hle p q), (Hgt q p) by (done || by apply Qlt_le_weak).
    repeat split. symmetry. apply Hne. intros Heq. rewrite Heq in Hlt.
    exact (Qlt_irrefl _ Hlt).
  - rewrite (Hle q p), (Hgt p q) by (done || by apply Qlt_le_weak).
    repeat split. symmetry. apply Hne. intros Heq. rewrite Heq in Hgt'.
    exact (Qlt_irrefl _ Hgt').
Qed.

(** X21. A reading and a threshold that are finite numbers ([bool], [int]
    or [float], in any mix) are compared by value: each of the six
    operators gives the answer of the comparison of the two numbers, and
    none raises. *)
Theorem check_condition_on_numbers (v thr : pyval) (p q : Q) :
  Cmp.num_of v = Some (FFin p) → Cmp.num_of thr = Some (FFin q) →
  _check_condition v ">" thr = Ok (Qltb q p)
  ∧ _check_condition v "<" thr = Ok (Qltb p q)
  ∧ _check_condition v ">=" thr = Ok (Qle_bool q p)
  ∧ _check_condition v "<=" thr = Ok (Qle_bool p q)
  ∧ _check_condition v "==" thr = Ok (Qeq_bool p q)
  ∧ _check_condition v "!=" thr = Ok (negb (Qeq_bool p q)).
Proof.
  intros Hv Ht. destruct (compare_numbers v thr _ _ Hv Ht) as [Ho He].
  destruct (_check_condition_table v thr) as (-> & -> & -> & -> & -> & ->).
  destruct (Qcompare_tests p q) as (Hgt & Hlt & Hge & Hle & Heq).
  unfold Cmp.gt, Cmp.lt, Cmp.ge, Cmp.le, Cmp.ne, Cmp.rich.
  rewrite Ho, He. cbn [Cmp.float_cmp].
  by rewrite Hgt, Hlt, Hge, Hle, Heq.
Qed.

Lemma check_condition_on_numbers_witness :
  _check_condition (VInt 31) ">" (VFloat (FFin 30.5)) = Ok true.
Proof.
  refine (proj1 (check_condition_on_numbers (VInt 31) (VFloat (FFin 30.5))
                   (inject_Z 31) 30.5 _ _)).
  - reflexivity.
  - reflexivity.
Defined.

(** X22. A reading or a threshold that is not-a-number, against a number:
    of the six operators only [!=] holds, so such a rule with [!=] fires at
    every check and one with any other operator never does. *)
Theorem nan_only_differs (v thr : pyval) (operator : string) :
  (v = VFloat FNaN ∧ is_Some (Cmp.num_of thr))
  ∨ (thr = VFloat FNaN ∧ is_Some (Cmp.num_of v)) →
  operator ∈ [">"; "<"; ">="; "<="; "=="; "!="] →
  _check_condition v operator thr = Ok (String.eqb operator "!=").
Proof.
  intros Hnan Hop.
  assert (∃ x y, Cmp.num_of v = Some x ∧ Cmp.num_of thr = Some y
                 ∧ Cmp.float_cmp x y = None) as (x & y & Hv & Ht & Hc).
  { destruct Hnan as [[-> [y Hy]] | [-> [x Hx]]].
    - by exists FNaN, y.
    - exists x, FNaN. by destruct x. }
  destruct (compare_numbers v thr x y Hv Ht) as [Ho He].
  rewrite Hc in Ho, He.
  destruct (_check_condition_table v thr) as (Hgt & Hlt & Hge & Hle & Heq
                                               & Hne).
  repeat (apply elem_of_cons in Hop as [->|Hop]);
    [rewrite Hgt|rewrite Hlt|rewrite Hge|rewrite Hle|rewrite Heq|rewrite Hne|
     by apply elem_of_nil in Hop];
    unfold Cmp.gt, Cmp.lt, Cmp.ge, Cmp.le, Cmp.ne, Cmp.rich;
    by rewrite ?Ho, ?He.
Qed.

Lemma nan_only_differs_witness :
  _check_condition (VFloat FNaN) ">=" (VInt 30) = Ok false.
Proof.
  apply (nan_only_differs (VFloat FNaN) (VInt 30) ">=").
  - left. split; [reflexivity|]. by eexists.
  - apply list_elem_of_In. simpl. tauto.
Defined.

(** X23. A reading that is a text, against a threshold that is a number:
    the four ordering operators raise [TypeError], [==] is false and [!=]
    is true. *)
Theorem text_against_number (s : string) (thr : pyval) (f : pyfloat)
    (operator : string) :
  Cmp.num_of thr = Some f →
  (operator ∈ [">"; "<"; ">="; "<="] →
   ∃ msg, _check_condition (VStr s) operator thr = Raise (TypeError msg))
  ∧ _check_condition (VStr s) "==" thr = Ok false
  ∧ _check_condition (VStr s) "!=" thr = Ok true.
Proof.
  intros Ht.
  assert (Ho : Cmp.order (VStr s) thr = Cmp.Incomparable (VStr s) thr)
    by (by destruct thr).
  assert (He : Cmp.eq (VStr s) thr = false) by (by destruct thr).
  destruct (_check_condition_table (VStr s) thr)
    as (Hgt & Hlt & Hge & Hle & -> & ->).
  unfold Cmp.ne. rewrite He. split; [|done]. intros Hop.
  repeat (apply elem_of_cons in Hop as [->|Hop]);
    [rewrite Hgt|rewrite Hlt|rewrite Hge|rewrite Hle|
     by apply elem_of_nil in Hop];
    unfold Cmp.gt, Cmp.lt, Cmp.ge, Cmp.le, Cmp.rich; rewrite Ho; eauto.
Qed.

Lemma text_against_number_witness :
  _check_condition (VStr "high") "!=" (VInt 50) = Ok true.
Proof.
  refine (proj2 (proj2 (text_against_number "high" (VInt 50)
                          (FFin (inject_Z 50)) "!=" _))).
  reflexivity.
Defined.

(** ** Keys and signatures *)

Lemma hex_length (l : list Z) :
  String.length (Bytes.hex l) = (2 * length l)%nat.
Proof.
  induction l as [|b l IH]; [done|].
  cbn [Bytes.hex String.length length]. rewrite IH. lia.
Qed.

Lemma le_length (n : nat) (x : Z) : length (Bytes.le n x) = n.
Proof.
  revert x. induction n as [|n IH]; intros x; [done|].
  cbn [Bytes.le length]. by rewrite IH.
Qed.

Lemma be_length (n : nat) (x : Z) : length (Bytes.be n x) = n.
Proof. unfold Bytes.be. by rewrite length_rev, le_length. Qed.

(** X24. Whatever the endpoint and the parameters, the cache key is a text
    of 32 ASCII characters (the hexadecimal digits of an MD5 digest). *)
Theorem cache_key_shape (E : env) (endpoint : string) (params : pydict) :
  String.length (_get_cache_key E endpoint params) = 32%nat
  ∧ Py.isascii (_get_cache_key E endpoint params) = true.
Proof.
  unfold _get_cache_key, MD5.hexdigest. split; [|apply hex_isascii].
  rewrite hex_length. unfold MD5.digest.
  destruct (fold_left _ _ _) as [[[a b] c] d].
  by rewrite !length_app, !le_length.
Qed.

Lemma round_length (W st : list Z) (i : nat) :
  length st = 8%nat → length (SHA256.round W st i) = 8%nat.
Proof.
  destruct st as [|a [|b [|c [|d [|e [|f [|g [|h [|]]]]]]]]]; done.
Qed.

Lemma add_all_length (x y : list Z) :
  length x = length y → length (SHA256.add_all x y) = length x.
Proof.
  revert y. induction x as [|a x IH]; intros [|b y]; try done.
  intros [= H]. cbn [SHA256.add_all length]. by rewrite IH.
Qed.

Lemma compress_length (st block : list Z) :
  length st = 8%nat → length (SHA256.compress st block) = 8%nat.
Proof.
  intros Hst. unfold SHA256.compress.
  assert (Hrounds : ∀ l s, length s = 8%nat →
            length (fold_left (SHA256.round (SHA256.schedule block)) l s)
            = 8%nat).
  { induction l as [|i l IH]; intros s Hs; [done|].
    cbn [fold_left]. by apply IH, round_length. }
  rewrite add_all_length; [done|]. by rewrite Hrounds.
Qed.

Lemma digest_Z_length (msg : list Z) :
  length (SHA256.digest_Z msg) = 32%nat.
Proof.
  unfold SHA256.digest_Z.
  assert (Hblocks : ∀ l s, length s = 8%nat →
            length (fold_left SHA256.compress l s) = 8%nat).
  { induction l as [|b l IH]; intros s Hs; [done|].
    cbn [fold_left]. by apply IH, compress_length. }
  assert (Hflat : ∀ l : list Z,
            length (flat_map (Bytes.be 4) l) = (4 * length l)%nat).
  { induction l as [|w l IH]; [done|].
    cbn [flat_map length]. rewrite length_app, be_length, IH. lia. }
  rewrite Hflat, Hblocks; done.
Qed.

(** X25. A signature that [verify_webhook_signature] accepts has exactly 64
    characters: one that is shorter or longer (with a prefix naming the
    algorithm, say) is never accepted, whatever the payload and the
    secret. *)
Theorem accepted_signature_length (payload : list byte)
    (signature secret : string) :
  verify_webhook_signature payload signature secret = Ok true →
  String.length signature = 64%nat.
Proof.
  unfold verify_webhook_signature, compare_digest.
  destruct (Py.isascii _ && Py.isascii _); [|done].
  intros [= Heq]. apply String.eqb_eq in Heq as <-.
  unfold HMAC.hexdigest, HMAC.digest.
  by rewrite hex_length, digest_Z_length.
Qed.

Lemma accepted_signature_length_witness :
  String.length (HMAC.hexdigest (Py.encode "secret") (Bytes.of_string "{}"))
  = 64%nat.
Proof.
  apply (accepted_signature_length (Bytes.of_string "{}") _ "secret").
  vm_compute. reflexivity.
Defined.

(** ** Rounds of monitoring *)

(** X26. The loop of [start_monitoring]: rounds that return have asked for
    the weather of every monitored location once per round, in the same
    order each time; and an exception that leaves [check_thresholds] in a
    round leaves the loop: no later round is run. *)
Theorem monitoring_rounds (E : env) (m : monitor) (rounds : nat)
    (st : state) :
  (∀ st',
     monitor_loop E rounds m st = (Ok tt, st') →
     calls st'
     = calls st
       ++ concat (repeat (List.map (λ l, CurrentWeather (Some l) None None)
                            (monitored_locations E m)) rounds))
  ∧ (∀ e st',
       check_thresholds E m st = (Raise e, st') →
       monitor_loop E (S rounds) m st = (Raise e, st')).
Proof.
  split.
  - revert st. induction rounds as [|n IH]; intros st st'.
    + intros [= <-]. cbn [repeat concat]. by rewrite app_nil_r.
    + cbn [monitor_loop repeat concat]. rewrite bind_run.
      destruct (check_thresholds E m st) as [[[]|e] st1] eqn:Hround; [|done].
      intros Hrest. apply IH in Hrest. rewrite Hrest.
      unfold check_thresholds in Hround.
      apply check_locations_calls in Hround. by rewrite Hround, <- app_assoc.
  - intros e st' Hround. cbn [monitor_loop]. by rewrite bind_run, Hround.
Qed.

Lemma monitoring_rounds_witness :
  monitor_loop demo 3 humidity_monitor initial
  = (Raise (TypeError
              "'>' not supported between instances of 'str' and 'int'"),
     (check_thresholds demo humidity_monitor initial).2).
Proof.
  apply (proj2 (monitoring_rounds demo humidity_monitor 2 initial)).
  vm_compute. reflexivity.
Defined.

(** ** The dictionary of a batch *)

Lemma get_forecast_calls (E : env) (location : option string)
    (lat lon : option pyfloat) (days : Z) (units : WeatherUnits)
    (st : state) :
  calls (get_forecast E location lat lon days units st).2
  = calls st ++ [Forecast location lat lon days].
Proof.
  unfold get_forecast.
  rewrite <- (respects_bind_after same_calls
                (log_call (Forecast location lat lon days)) _).
  - done.
  - intros _. destruct (negb _); [apply respects_raise; apply _|].
    exact (respects__make_request same_calls E (same_calls_time E)
             same_calls_set_cache (same_calls_send E) _ _ _ _ _).
Qed.

(** One turn of the loop that goes through: the call was made, and the
    location has its entry, in its old place or at the end. *)
Lemma batch_step_through (E : env) (ty : string) (results : pydict)
    (l : string) (st : state) (results' : pydict) (st' : state) :
  batch_step E ty results l st = (Ok results', st') →
  calls st'
  = calls st ++ [if String.eqb ty "current"
                 then CurrentWeather (Some l) None None
                 else Forecast (Some l) None None 5]
  ∧ List.map fst results'
    = if bool_decide (l ∈ List.map fst results) then List.map fst results
      else List.map fst results ++ [l].
Proof.
  rewrite batch_step_run. unfold batch_call.
  assert (Hcalls : calls ((if String.eqb ty "current"
                           then get_current_weather E (Some l) None None
                                  METRIC "en"
                           else get_forecast E (Some l) None None 5 METRIC)
                            st).2
                   = calls st ++ [if String.eqb ty "current"
                                  then CurrentWeather (Some l) None None
                                  else Forecast (Some l) None None 5]).
  { destruct (String.eqb ty "current");
      [apply get_current_weather_calls | apply get_forecast_calls]. }
  destruct (String.eqb ty "current").
  - destruct (get_current_weather _ _ _ _ _ _ _) as [[data|e] st1].
    + intros [= <- <-]. split; [done | apply dict_set_keys].
    + destruct (as_WeatherAPIError e); [|done].
      intros [= <- <-]. split; [done | apply dict_set_keys].
  - destruct (String.eqb ty "forecast"); [|done].
    destruct (get_forecast _ _ _ _ _ _ _) as [[data|e] st1].
    + intros [= <- <-]. split; [done | apply dict_set_keys].
    + destruct (as_WeatherAPIError e); [|done].
      intros [= <- <-]. split; [done | apply dict_set_keys].
Qed.

Lemma batch_loop_through (E : env) (ty : string) (locations : list string) :
  ∀ results st results' st',
    batch_loop E ty locations results st = (Ok results', st') →
    NoDup (List.map fst results) →
    NoDup (List.map fst results')
    ∧ (∀ l, l ∈ List.map fst results'
            ↔ l ∈ List.map fst results ∨ l ∈ locations)
    ∧ calls st'
      = calls st
        ++ List.map (λ l, if String.eqb ty "current"
                          then CurrentWeather (Some l) None None
                          else Forecast (Some l) None None 5) locations.
Proof.
  induction locations as [|l rest IH]; intros results st results' st'.
  - intros [= <- <-] Hnodup. split; [done|]. split.
    + intros l. rewrite elem_of_nil. tauto.
    + by rewrite app_nil_r.
  - cbn [batch_loop]. rewrite bind_run.
    destruct (batch_step E ty results l st) as [[r1|e] st1] eqn:Hstep;
      [|done].
    apply batch_step_through in Hstep as [Hcalls Hkeys].
    intros Hrest Hnodup.
    apply IH in Hrest as (Hnodup' & Hin & Hcalls').
    + split; [done|]. split.
      * intros l'. rewrite Hin, Hkeys, elem_of_cons.
        destruct (decide (l ∈ List.map fst results)) as [Hl|Hl].
        -- rewrite bool_decide_eq_true_2 by done.
           split; [tauto|]. intros [?|[->|?]]; tauto.
        -- rewrite bool_decide_eq_false_2 by done.
           rewrite elem_of_app, list_elem_of_singleton. tauto.
      * rewrite Hcalls', Hcalls. cbn [List.map]. by rewrite <- app_assoc.
    + rewrite Hkeys. destruct (decide (l ∈ List.map fst results)) as [Hl|Hl].
      * by rewrite bool_decide_eq_true_2.
      * rewrite bool_decide_eq_false_2 by done.
        apply NoDup_app. split; [done|]. split.
        -- intros x Hx ->%list_elem_of_singleton. done.
        -- apply NoDup_singleton.
Qed.

(** X27. The dictionary that [batch_weather_request] returns has one entry
    for each distinct location of the list and no other; a location that
    is listed twice is asked for twice, the calls being made in the order
    of the list. *)
Theorem batch_one_entry_per_location (E : env) (locations : list string)
    (request_type : string) (st : state) (results : pydict) (st' : state) :
  batch_weather_request E locations request_type st = (Ok results, st') →
  NoDup (List.map fst results)
  ∧ (∀ l, l ∈ List.map fst results ↔ l ∈ locations)
  ∧ calls st'
    = calls st
      ++ List.map (λ l, if String.eqb request_type "current"
                        then CurrentWeather (Some l) None None
                        else Forecast (Some l) None None 5) locations.
Proof.
  unfold batch_weather_request. intros Hrun.
  apply batch_loop_through in Hrun as (Hnodup & Hin & Hcalls);
    [|apply NoDup_nil_2].
  split; [done|]. split; [|done].
  intros l. rewrite Hin, elem_of_nil. tauto.
Qed.

Lemma batch_one_entry_per_location_witness :
  NoDup (List.map fst
           [("London", weather_report 31);
            ("Paris", error_marker "Resource not found: /weather/current")]).
Proof.
  refine (proj1 (batch_one_entry_per_location demo
                   ["London"; "Paris"; "London"] "current" initial _
                   (batch_weather_request demo ["London"; "Paris"; "London"]
                      "current" initial).2 _)).
  vm_compute. reflexivity.
Defined.

(** ** Deleting a webhook *)

(** X28. [delete_webhook] sends one DELETE to [/webhooks/<id>] and decodes
    the answer as JSON before it returns [True]: an answer with a status
    below 400 and a JSON body gives [True], and one whose body is not JSON
    (an empty body, as with 204) makes the call fail, with the
    [WeatherAPIError] that wraps the decoding error where [requests]
    reports it as one of its own, else with the decoding error itself. *)
Theorem delete_webhook_decodes_answer (E : env) (webhook_id : string)
    (st : state) (r : response) :
  let request := {| method := "DELETE";
                    endpoint := "/webhooks/" +:+ webhook_id;
                    params := None; body := None |} in
  session_request E (length (sent st)) request = Responds r →
  passes r →
  (∀ v, json r = Json v →
        delete_webhook E webhook_id st = (Ok true, add_sent [request] st))
  ∧ (∀ msg, json r = NotJson msg →
        delete_webhook E webhook_id st
        = (Raise (if json_error_wrapped E
                  then WeatherAPIError ("Request failed: " +:+ msg)
                  else JSONDecodeError msg),
           add_sent [request] st)).
Proof.
  intros request Hanswer Hpass.
  assert (Honce : _make_request_once E "DELETE"
                    ("/webhooks/" +:+ webhook_id) None None true st
                  = (check_status E ("/webhooks/" +:+ webhook_id) r;;
                     parse E r) (add_sent [request] st)).
  { rewrite _make_request_once_direct by done. fold request.
    rewrite Hanswer. cbn [receive]. rewrite !bind_run.
    destruct (check_status _ _ _ _) as [[[]|e] st1]; [|done].
    rewrite bind_run. by destruct (parse E r st1) as [[v|e] st2]. }
  rewrite bind_run, check_status_passes in Honce by done.
  unfold delete_webhook, _make_request. split.
  - intros v Hjson. rewrite bind_run.
    rewrite (on_exception_returns E _ _ _ st v (add_sent [request] st));
      [done|].
    rewrite Honce. unfold parse. by rewrite Hjson.
  - intros msg Hjson. rewrite bind_run.
    rewrite (on_exception_gives_up E _ _ _ st
               (if json_error_wrapped E
                then WeatherAPIError ("Request failed: " +:+ msg)
                else JSONDecodeError msg) (add_sent [request] st));
      [done| |by destruct (json_error_wrapped E)].
    rewrite Honce. unfold parse. rewrite Hjson.
    by destruct (json_error_wrapped E).
Qed.

Lemma delete_webhook_decodes_answer_witness :
  delete_webhook terse "42" initial
  = (Raise (WeatherAPIError
              ("Request failed: "
               +:+ "Expecting value: line 1 column 1 (char 0)")),
     add_sent [{| method := "DELETE"; endpoint := "/webhooks/" +:+ "42";
                  params := None; body := None |}] initial).
Proof.
  refine (proj2 (delete_webhook_decodes_answer terse "42" initial no_content
                   _ _) _ _).
  - reflexivity.
  - reflexivity.
  - reflexivity.
Defined.
